(** * claude-mcp-server: session continuity and command construction

    A shallow embedding of [src/types.ts] (the request schemas) and of
    [src/tools/handlers.ts] (the execute-assistant and code-review
    handlers), with the properties the design document states about them.

    Conventions.
    - A JavaScript string is modelled as a [string]: one character per
      UTF-16 code unit, of which the model carries the 8-bit ones.
      [length], [slice] and [includes] count code units, as in the source.
    - [x || y] and [if (x)] on an optional string test JavaScript
      truthiness: [undefined] and the empty string are both falsy.
    - The subprocess is an oracle: the handler is a function of what the
      process answers, and it returns the invocations it made. *)

From Stdlib Require Import ZArith Lia Bool Ascii String List.
From stdpp Require Import base option list gmap strings pretty.

Local Open Scope Z_scope.
#[local] Set Default Proof Using "Type".

(** ** JavaScript strings *)
Module Js.

(** Line feed, as in the template literals ["\n"]. *)
Definition LF : string := String "010"%char "".

(** The double quote character. *)
Definition DQ : ascii := "034"%char.

(** [!!s] on a string: only the empty string is falsy. *)
Definition truthy (s : string) : bool :=
  match s with
  | EmptyString => false
  | String _ _ => true
  end.

(** [!!x] for [x : string | undefined]. *)
Definition truthyOpt (x : option string) : bool :=
  match x with
  | Some s => truthy s
  | None => false
  end.

(** [x || y] *)
Definition or (x : option string) (y : option string) : option string :=
  if truthyOpt x then x else y.

(** [x || d] where [d] is a string literal, so the result is a string. *)
Definition orDefault (x : option string) (d : string) : string :=
  match x with
  | Some s => if truthy s then s else d
  | None => d
  end.

(** [s.slice(0, n)] *)
Definition slice0 (n : nat) (s : string) : string := String.substring 0 n s.

(** [s.includes(needle)] *)
Fixpoint includes (needle s : string) : bool :=
  String.prefix needle s ||
  match s with
  | EmptyString => false
  | String _ s' => includes needle s'
  end.

(** [parts.join(sep)] *)
Definition join (sep : string) (parts : list string) : string :=
  String.concat sep parts.

(** [c.toLowerCase()] on one code unit of the ASCII range. *)
Definition lowerChar (c : ascii) : ascii :=
  let n := N_of_ascii c in
  if ((65 <=? n) && (n <=? 90))%N then ascii_of_N (n + 32) else c.

(** [s.toLowerCase()] *)
Fixpoint toLowerCase (s : string) : string :=
  match s with
  | EmptyString => EmptyString
  | String c s' => String (lowerChar c) (toLowerCase s')
  end.

(** The code units [s.trim()] removes: tab, line feed, vertical tab,
    form feed, carriage return, space and no-break space; the other white
    space of ECMAScript lies beyond the eight bits of a character. *)
Definition isTrimmed (c : ascii) : bool :=
  let n := N_of_ascii c in
  ((9 <=? n) && (n <=? 13) || (n =? 32) || (n =? 160))%N.

(** [s.trimStart()] *)
Fixpoint trimStart (s : string) : string :=
  match s with
  | EmptyString => EmptyString
  | String c s' => if isTrimmed c then trimStart s' else s
  end.

(** [s.trimEnd()] *)
Fixpoint trimEnd (s : string) : string :=
  match s with
  | EmptyString => EmptyString
  | String c s' =>
      match trimEnd s' with
      | EmptyString => if isTrimmed c then EmptyString else String c EmptyString
      | rest => String c rest
      end
  end.

(** [s.trim()] *)
Definition trim (s : string) : string := trimEnd (trimStart s).

(** [String(n)] for a safe integer [n]. *)
Definition ofInt (n : Z) : string := pretty n.

End Js.

Set Warnings "-register-all".

(** ** JSON values

  The values [JSON.parse] produces and the values a request carries. A
  number is kept as the decimal literal [m * 10^e] it was written as and
  stands for the double that literal is read as ([Json.toDouble]); an
  object keeps its members in source order. *)
Inductive JsValue : Type :=
| JNull
| JBool (b : bool)
| JNum (m e : Z)
| JStr (s : string)
| JArr (items : list JsValue)
| JObj (members : list (string * JsValue)).

Module Json.

(** [obj[key]]: the last member named [key] wins, as [JSON.parse]
    overwrites duplicates; [None] is [undefined]. *)
Fixpoint member (key : string) (members : list (string * JsValue))
  : option JsValue :=
  match members with
  | [] => None
  | (k, v) :: rest =>
      match member key rest with
      | Some v' => Some v'
      | None => if String.eqb k key then Some v else None
      end
  end.

(** [n / d] rounded to the nearest integer, a tie to the even one. *)
Definition roundHalfEven (n d : Z) : Z :=
  let q := n / d in
  let r := n mod d in
  if (d <? 2 * r) || ((d =? 2 * r) && Z.odd q) then q + 1 else q.

(** The double the literal [m * 10^e] is read as: [Some (M, k)] is the
    double [M * 2^k], with [|M| <= 2^53] and [-1074 <= k], and [None] is
    an infinity. The literal is rounded to the nearest double, a tie to
    the even significand; what lies at or above [2^1024 - 2^970] in
    magnitude is read as an infinity, what lies at or below [2^-1075] as
    zero. *)
Definition toDouble (m e : Z) : option (Z * Z) :=
  if m =? 0 then Some (0, 0)
  else
    let a := Z.abs m * 10 ^ Z.max e 0 in
    let b := 10 ^ Z.max (- e) 0 in
    let k0 := Z.log2 a - Z.log2 b - 53 in
    let k1 :=
      if b * 2 ^ Z.max k0 0 * 2 ^ 53 <=? a * 2 ^ Z.max (- k0) 0
      then k0 + 1 else k0 in
    let k := Z.max k1 (-1074) in
    let M := roundHalfEven (a * 2 ^ Z.max (- k) 0) (b * 2 ^ Z.max k 0) in
    if (0 <=? k) && (2 ^ 1024 <=? M * 2 ^ k) then None
    else Some (Z.sgn m * M, k).

(** [Number.isInteger(x)] and the value of [x], for the double [x] the
    literal [m * 10^e] is read as. *)
Definition toInteger (m e : Z) : option Z :=
  match toDouble m e with
  | Some (M, k) =>
      if 0 <=? k then Some (M * 2 ^ k)
      else if M mod 2 ^ (- k) =? 0 then Some (M / 2 ^ (- k))
      else None
  | None => None
  end.

(** [!!v]; a number is falsy when the double it is read as is zero. *)
Definition truthy (v : JsValue) : bool :=
  match v with
  | JNull => false
  | JBool b => b
  | JNum m e =>
      match toDouble m e with
      | Some (M, _) => negb (M =? 0)
      | None => true
      end
  | JStr s => Js.truthy s
  | JArr _ | JObj _ => true
  end.

(** *** [JSON.parse]

    The grammar of ECMA-404 over the string model. An escape [\uXXXX] up
    to [\u00FF] is the character it names; a higher one names a code unit
    that a character of the string model cannot hold and is kept modulo
    256, so the strings read from a text with such escapes are not those
    of [JSON.parse]. A number is kept as it is written; what JavaScript
    does with it goes through [toDouble]. *)

Definition isWhitespace (c : ascii) : bool :=
  match c with
  | " " | "009" | "010" | "013" => true
  | _ => false
  end%char.

Fixpoint skipWhitespace (s : string) : string :=
  match s with
  | String c s' => if isWhitespace c then skipWhitespace s' else s
  | EmptyString => s
  end.

Definition digit (c : ascii) : option Z :=
  let n := Z.of_N (N_of_ascii c) in
  if (48 <=? n) && (n <=? 57) then Some (n - 48) else None.

Definition hexDigit (c : ascii) : option Z :=
  let n := Z.of_N (N_of_ascii c) in
  if (48 <=? n) && (n <=? 57) then Some (n - 48)
  else if (97 <=? n) && (n <=? 102) then Some (n - 87)
  else if (65 <=? n) && (n <=? 70) then Some (n - 55)
  else None.

Definition hex4 (a b c d : ascii) : option Z :=
  match hexDigit a, hexDigit b, hexDigit c, hexDigit d with
  | Some x, Some y, Some z, Some w => Some (((x * 16 + y) * 16 + z) * 16 + w)
  | _, _, _, _ => None
  end.

(** The character an escape [\c] stands for ([\u] apart). *)
Definition simpleEscape (c : ascii) : option ascii :=
  match c with
  | "034" => Some "034"
  | "\" => Some "\"
  | "/" => Some "/"
  | "b" => Some "008"
  | "f" => Some "012"
  | "n" => Some "010"
  | "r" => Some "013"
  | "t" => Some "009"
  | _ => None
  end%char.

Definition consChar (c : ascii) (r : option (string * string))
  : option (string * string) :=
  match r with
  | Some (body, rest) => Some (String c body, rest)
  | None => None
  end.

(** The characters of a string literal after its opening quote, and the
    input that follows the closing quote. *)
Fixpoint stringBody (s : string) : option (string * string) :=
  match s with
  | EmptyString => None
  | String c s' =>
      if Ascii.eqb c Js.DQ then Some (EmptyString, s')
      else if Ascii.eqb c "\"%char then
        match s' with
        | String e r =>
            if Ascii.eqb e "u"%char then
              match r with
              | String h1 (String h2 (String h3 (String h4 r'))) =>
                  match hex4 h1 h2 h3 h4 with
                  | Some n =>
                      consChar (ascii_of_N (Z.to_N (n mod 256))) (stringBody r')
                  | None => None
                  end
              | _ => None
              end
            else
              match simpleEscape e with
              | Some ch => consChar ch (stringBody r)
              | None => None
              end
        | EmptyString => None
        end
      else if (N_of_ascii c <? 32)%N then None
      else consChar c (stringBody s')
  end.

(** The input after the character [c], when the input starts with it. *)
Definition after (c : ascii) (s : string) : option string :=
  match s with
  | String c' rest => if Ascii.eqb c c' then Some rest else None
  | EmptyString => None
  end.

(** A maximal run of decimal digits: its value on top of [acc], how many
    digits were read, and the rest. *)
Fixpoint digits (acc : Z) (count : nat) (s : string) : Z * nat * string :=
  match s with
  | String c s' =>
      match digit c with
      | Some d => digits (acc * 10 + d) (S count) s'
      | None => (acc, count, s)
      end
  | EmptyString => (acc, count, s)
  end.

(** [int]: a single [0], or a run of digits that does not start with 0. *)
Definition integerPart (s : string) : option (Z * string) :=
  match after "0" s with
  | Some rest => Some (0, rest)
  | None =>
      match digits 0 0 s with
      | (_, O, _) => None
      | (n, S _, rest) => Some (n, rest)
      end
  end.

(** [frac]: the mantissa extended by the digits after the point, and how
    many there were. *)
Definition fractionPart (n : Z) (s : string) : option (Z * Z * string) :=
  match after "." s with
  | Some s' =>
      match digits n 0 s' with
      | (_, O, _) => None
      | (m, S k, rest) => Some (m, Z.of_nat (S k), rest)
      end
  | None => Some (n, 0, s)
  end.

(** An optional sign. *)
Definition signPart (s : string) : Z * string :=
  match after "-" s, after "+" s with
  | Some rest, _ => (-1, rest)
  | None, Some rest => (1, rest)
  | None, None => (1, s)
  end.

(** [exp] *)
Definition exponentPart (s : string) : option (Z * string) :=
  match after "e" s, after "E" s with
  | None, None => Some (0, s)
  | Some s', _ | None, Some s' =>
      let '(sign, s'') := signPart s' in
      match digits 0 0 s'' with
      | (_, O, _) => None
      | (x, S _, rest) => Some (sign * x, rest)
      end
  end.

Definition number (s : string) : option (JsValue * string) :=
  let '(sign, s1) :=
    match after "-" s with
    | Some rest => (-1, rest)
    | None => (1, s)
    end in
  match integerPart s1 with
  | Some (n, s2) =>
      match fractionPart n s2 with
      | Some (m, k, s3) =>
          match exponentPart s3 with
          | Some (x, s4) => Some (JNum (sign * m) (x - k), s4)
          | None => None
          end
      | None => None
      end
  | None => None
  end.

(** [s] starts with the keyword [w]: the rest of [s]. *)
Fixpoint keyword (w s : string) : option string :=
  match w with
  | EmptyString => Some s
  | String a w' =>
      match after a s with
      | Some s' => keyword w' s'
      | None => None
      end
  end.

(** A value that is neither a string, an array nor an object. *)
Definition scalar (s : string) : option (JsValue * string) :=
  match keyword "true" s, keyword "false" s, keyword "null" s with
  | Some r, _, _ => Some (JBool true, r)
  | None, Some r, _ => Some (JBool false, r)
  | None, None, Some r => Some (JNull, r)
  | None, None, None => number s
  end.

(** One value, the elements of an array after its opening bracket, and
    the members of an object after its opening brace. *)
Fixpoint value (fuel : nat) (s : string) : option (JsValue * string) :=
  match fuel with
  | O => None
  | S fuel' =>
      let s0 := skipWhitespace s in
      match after Js.DQ s0, after "[" s0, after "{" s0 with
      | Some rest, _, _ =>
          match stringBody rest with
          | Some (str, r) => Some (JStr str, r)
          | None => None
          end
      | None, Some rest, _ =>
          match after "]" (skipWhitespace rest) with
          | Some r => Some (JArr [], r)
          | None =>
              match elements fuel' rest with
              | Some (items, r) => Some (JArr items, r)
              | None => None
              end
          end
      | None, None, Some rest =>
          match after "}" (skipWhitespace rest) with
          | Some r => Some (JObj [], r)
          | None =>
              match members fuel' rest with
              | Some (ms, r) => Some (JObj ms, r)
              | None => None
              end
          end
      | None, None, None => scalar s0
      end
  end
with elements (fuel : nat) (s : string) : option (list JsValue * string) :=
  match fuel with
  | O => None
  | S fuel' =>
      match value fuel' s with
      | Some (v, r) =>
          match after "," (skipWhitespace r), after "]" (skipWhitespace r) with
          | Some r', _ =>
              match elements fuel' r' with
              | Some (vs, r'') => Some (v :: vs, r'')
              | None => None
              end
          | None, Some r' => Some ([v], r')
          | None, None => None
          end
      | None => None
      end
  end
with members (fuel : nat) (s : string)
  : option (list (string * JsValue) * string) :=
  match fuel with
  | O => None
  | S fuel' =>
      match after Js.DQ (skipWhitespace s) with
      | Some r0 =>
          match stringBody r0 with
          | Some (k, r1) =>
              match after ":" (skipWhitespace r1) with
              | Some r2 =>
                  match value fuel' r2 with
                  | Some (v, r3) =>
                      match after "," (skipWhitespace r3),
                            after "}" (skipWhitespace r3) with
                      | Some r4, _ =>
                          match members fuel' r4 with
                          | Some (ms, r5) => Some ((k, v) :: ms, r5)
                          | None => None
                          end
                      | None, Some r4 => Some ([(k, v)], r4)
                      | None, None => None
                      end
                  | None => None
                  end
              | None => None
              end
          | None => None
          end
      | None => None
      end
  end.

(** [JSON.parse(text)]: [None] stands for the [SyntaxError] it throws.
    Two units of fuel for every character are never used up
    ([value_fuel] below). *)
Definition parse (text : string) : option JsValue :=
  match value (2 * String.length text + 2) text with
  | Some (v, rest) =>
      match skipWhitespace rest with
      | EmptyString => Some v
      | String _ _ => None
      end
  | None => None
  end.

(** Test inputs are written with ['] for the double quote. *)
Fixpoint quoted (s : string) : string :=
  match s with
  | EmptyString => EmptyString
  | String c s' =>
      String (if Ascii.eqb c "'"%char then Js.DQ else c) (quoted s')
  end.

End Json.

(** ** Constants ([src/types.ts]) *)
Module TOOLS.
Definition CLAUDE : string := "claude".
Definition REVIEW : string := "review".
Definition PING : string := "ping".
Definition HELP : string := "help".
Definition LIST_SESSIONS : string := "listSessions".
End TOOLS.

Definition DEFAULT_CLAUDE_MODEL : string := "claude-sonnet-4-6".
Definition CLAUDE_DEFAULT_MODEL_ENV_VAR : string := "CLAUDE_DEFAULT_MODEL".

(** What the handlers use of the platform they run on: the URL parser
    behind [z.string().url()]. *)
Class Platform := { URL_canParse : string -> bool }.

(** ** Request validation: the zod schemas of [src/types.ts] *)
Module Zod.

Inductive Issue : Type :=
| invalid_type (path : list string) (expected : string)
| too_big (path : list string) (maximum : Z) (message : option string)
| too_small (path : list string) (minimum : Z)
| invalid_format (path : list string) (format : string)
    (message : option string)
| invalid_value (path : list string) (options : list string).

(** The outcome of [schema.parse]: the issues of the [ZodError] it
    throws, or the parsed value. *)
Definition Result (A : Type) : Type := list Issue + A.

Definition issuesOf {A} (r : Result A) : list Issue :=
  match r with
  | inl issues => issues
  | inr _ => []
  end.

(** Two properties of one object: the issues of both are reported. *)
Definition both {A B} (ra : Result A) (rb : Result B) : Result (A * B) :=
  match ra, rb with
  | inr a, inr b => inr (a, b)
  | _, _ => inl (issuesOf ra ++ issuesOf rb)
  end.

Definition map {A B} (f : A -> B) (r : Result A) : Result B :=
  match r with
  | inl issues => inl issues
  | inr a => inr (f a)
  end.

(** [z.string()] followed by its checks; every failed check is reported. *)
Definition string_ (checks : list (string -> list Issue))
    (path : list string) (v : JsValue) : Result string :=
  match v with
  | JStr s =>
      match concat (List.map (fun check => check s) checks) with
      | [] => inr s
      | issues => inl issues
      end
  | _ => inl [invalid_type path "string"]
  end.

(** [z.boolean()] *)
Definition boolean (path : list string) (v : JsValue) : Result bool :=
  match v with
  | JBool b => inr b
  | _ => inl [invalid_type path "boolean"]
  end.

Definition MAX_SAFE_INTEGER : Z := 2 ^ 53 - 1.

(** [z.number().int().positive()] *)
Definition positiveInt (path : list string) (v : JsValue) : Result Z :=
  match v with
  | JNum m e =>
      match Json.toDouble m e with
      | None => inl [invalid_type path "number"]
      | Some _ =>
          match Json.toInteger m e with
          | Some n =>
              if MAX_SAFE_INTEGER <? n
              then inl [too_big path MAX_SAFE_INTEGER None]
              else if n <? - MAX_SAFE_INTEGER
                   then inl [too_small path (- MAX_SAFE_INTEGER);
                             too_small path 0]
              else if n <=? 0 then inl [too_small path 0]
              else inr n
          | None => inl [invalid_type path "int"]
          end
      end
  | _ => inl [invalid_type path "number"]
  end.

(** [z.enum(options)] *)
Definition enum (options : list string) (path : list string) (v : JsValue)
  : Result string :=
  match v with
  | JStr s =>
      if existsb (String.eqb s) options then inr s
      else inl [invalid_value path options]
  | _ => inl [invalid_value path options]
  end.

(** [.optional()]: an absent property is accepted as [undefined]. *)
Definition optional {A} (schema : list string -> JsValue -> Result A)
    (path : list string) (v : option JsValue) : Result (option A) :=
  match v with
  | None => inr None
  | Some x => map Some (schema path x)
  end.

(** [z.array(item).max(n)] *)
Fixpoint items {A} (item : list string -> JsValue -> Result A)
    (path : list string) (index : nat) (vs : list JsValue)
  : Result (list A) :=
  match vs with
  | [] => inr []
  | v :: vs' =>
      map (fun '(a, rest) => a :: rest)
        (both (item (path ++ [pretty index]) v)
              (items item path (S index) vs'))
  end.

Definition array {A} (item : list string -> JsValue -> Result A)
    (maximum : nat) (path : list string) (v : JsValue) : Result (list A) :=
  match v with
  | JArr vs =>
      match items item path 0 vs with
      | inr parsed =>
          if decide (length vs <= maximum)%nat then inr parsed
          else inl [too_big path (Z.of_nat maximum) None]
      | inl issues =>
          inl (issues ++
               if decide (length vs <= maximum)%nat then []
               else [too_big path (Z.of_nat maximum) None])
      end
  | _ => inl [invalid_type path "array"]
  end.

(** [.max(n, { error })] on a string *)
Definition max (n : nat) (error : string) (path : list string) (s : string)
  : list Issue :=
  if decide (String.length s <= n)%nat then []
  else [too_big path (Z.of_nat n) (Some error)].

(** [.regex(re, { error })], with [re.test] given as a function *)
Definition regex (test : string -> bool) (error : string)
    (path : list string) (s : string) : list Issue :=
  if test s then [] else [invalid_format path "regex" (Some error)].

(** [z.string().url()]: the check parses the trimmed string, and the
    trimmed string is what the schema hands on. *)
Definition urlString `{platform : Platform} (path : list string) (v : JsValue)
  : Result string :=
  match v with
  | JStr s =>
      let trimmed := Js.trim s in
      if URL_canParse trimmed then inr trimmed
      else inl [invalid_format path "url" None]
  | _ => inl [invalid_type path "string"]
  end.

(** An optional property [key] of the object with properties [props]. *)
Definition field {A} (props : list (string * JsValue))
    (schema : list string -> JsValue -> Result A) (key : string)
  : Result (option A) :=
  optional schema [key] (Json.member key props).

End Zod.

(** [/^[a-zA-Z0-9_-]+$/.test(s)] *)
Definition isSessionIdChar (c : ascii) : bool :=
  let n := N_of_ascii c in
  ((97 <=? n) && (n <=? 122) || (65 <=? n) && (n <=? 90) ||
   (48 <=? n) && (n <=? 57) || (n =? 95) || (n =? 45))%N.

Fixpoint allChars (p : ascii -> bool) (s : string) : bool :=
  match s with
  | EmptyString => true
  | String c s' => p c && allChars p s'
  end.

Definition sessionIdPattern (s : string) : bool :=
  Js.truthy s && allChars isSessionIdChar s.

(** [ProviderEntry] *)
Record ProviderEntry : Type := {
  provider_routerBaseUrl : option string;
  provider_model : option string;
}.

(** [ClaudeToolArgs] *)
Module ClaudeToolArgs.
Record t : Type := make {
  prompt : string;
  sessionId : option string;
  resetSession : option bool;
  model : option string;
  workingDirectory : option string;
  allowedTools : option string;
  dangerouslySkipPermissions : option bool;
  outputFormat : option string;
  maxTurns : option Z;
  routerBaseUrl : option string;
  fallbackProviders : option (list ProviderEntry);
}.
End ClaudeToolArgs.

(** [ReviewToolArgs] *)
Module ReviewToolArgs.
Record t : Type := make {
  prompt : option string;
  uncommitted : option bool;
  base : option string;
  commit : option string;
  title : option string;
  model : option string;
  workingDirectory : option string;
}.
End ReviewToolArgs.

Section Schemas.
Context `{platform : Platform}.

(** The properties of the object a schema is applied to; anything but an
    object is refused. *)
Definition object {A} (shape : list (string * JsValue) -> Zod.Result A)
    (input : JsValue) : Zod.Result A :=
  match input with
  | JObj props => shape props
  | _ => inl [Zod.invalid_type [] "object"]
  end.

Definition ProviderSchema (path : list string) (input : JsValue)
  : Zod.Result ProviderEntry :=
  match input with
  | JObj props =>
      Zod.map (fun '(u, m) =>
                 {| provider_routerBaseUrl := u; provider_model := m |})
        (Zod.both
           (Zod.optional Zod.urlString
              (path ++ ["routerBaseUrl"]) (Json.member "routerBaseUrl" props))
           (Zod.optional (Zod.string_ [])
              (path ++ ["model"]) (Json.member "model" props)))
  | _ => inl [Zod.invalid_type path "object"]
  end.

Definition ClaudeToolSchema (input : JsValue)
  : Zod.Result ClaudeToolArgs.t :=
  object (fun props =>
    Zod.map
      (fun '(prompt, (sessionId, (resetSession, (model, (workingDirectory,
            (allowedTools, (dangerouslySkipPermissions, (outputFormat,
            (maxTurns, (routerBaseUrl, fallbackProviders)))))))))) =>
         ClaudeToolArgs.make prompt sessionId resetSession model
           workingDirectory allowedTools dangerouslySkipPermissions
           outputFormat maxTurns routerBaseUrl fallbackProviders)
      (Zod.both
         match Json.member "prompt" props with
         | Some v => Zod.string_ [] ["prompt"] v
         | None => inl [Zod.invalid_type ["prompt"] "string"]
         end
      (Zod.both
         (Zod.field props (Zod.string_
            [Zod.max 256 "Session ID must be 256 characters or fewer"
               ["sessionId"];
             Zod.regex sessionIdPattern
               "Session ID can only contain letters, numbers, hyphens, and underscores"
               ["sessionId"]]) "sessionId")
      (Zod.both (Zod.field props Zod.boolean "resetSession")
      (Zod.both (Zod.field props (Zod.string_ []) "model")
      (Zod.both (Zod.field props (Zod.string_ []) "workingDirectory")
      (Zod.both (Zod.field props (Zod.string_ []) "allowedTools")
      (Zod.both (Zod.field props Zod.boolean "dangerouslySkipPermissions")
      (Zod.both (Zod.field props (Zod.enum ["text"; "json"; "stream-json"]) "outputFormat")
      (Zod.both (Zod.field props Zod.positiveInt "maxTurns")
      (Zod.both
         (Zod.field props Zod.urlString "routerBaseUrl")
         (Zod.field props (Zod.array ProviderSchema 5) "fallbackProviders"))))))))))))
    input.

Definition ReviewToolSchema (input : JsValue)
  : Zod.Result ReviewToolArgs.t :=
  object (fun props =>
    Zod.map
      (fun '(prompt, (uncommitted, (base, (commit, (title,
            (model, workingDirectory)))))) =>
         ReviewToolArgs.make prompt uncommitted base commit title model
           workingDirectory)
      (Zod.both (Zod.field props (Zod.string_ []) "prompt")
      (Zod.both (Zod.field props Zod.boolean "uncommitted")
      (Zod.both (Zod.field props (Zod.string_ []) "base")
      (Zod.both (Zod.field props (Zod.string_ []) "commit")
      (Zod.both (Zod.field props (Zod.string_ []) "title")
      (Zod.both (Zod.field props (Zod.string_ []) "model")
                (Zod.field props (Zod.string_ []) "workingDirectory"))))))))
    input.

End Schemas.

(** ** Sessions ([src/session/storage.ts])

    The file is not among the sources: its types and its in-memory store
    are modelled from sections 3 and 4.1 of the design, under the names
    [handlers.ts] and the tests use. *)

(** Modelled from the spec: [ConversationTurn], the prompt sent by the
    caller, the text returned by the assistant and the creation time. *)
Module ConversationTurn.
Record t : Type := make {
  prompt : string;
  response : string;
  timestamp : Z;
}.
End ConversationTurn.

(** Modelled from the spec: [Session], with its identifier, its two
    timestamps, its turns in chronological order and the optional native
    conversation handle. *)
Module Session.
Record t : Type := make {
  id : string;
  createdAt : Z;
  lastAccessedAt : Z;
  turns : list ConversationTurn.t;
  claudeSessionId : option string;
}.
End Session.

(** Modelled from the spec: the [SessionStorage] interface, with the
    operations the handlers call on it. Every operation that stamps
    [lastAccessedAt] (ensure, get, addTurn) takes the time it reads from
    [new Date()]. *)
Class SessionStorage (S : Type) : Type := {
  ensureSession : Z -> string -> S -> S;
  getSession : Z -> string -> S -> option Session.t * S;
  resetSession : string -> S -> S;
  addTurn : Z -> string -> ConversationTurn.t -> S -> S;
  setClaudeSessionId : string -> string -> S -> S;
  getClaudeSessionId : string -> S -> option string;
}.

(** Modelled from the spec: the in-memory variant of the session store
    ([InMemorySessionStorage] of [src/session/storage.ts], which is not
    among the sources). Section 4.1 of the design: [ensureSession] inserts
    an empty session when the id is absent and otherwise only stamps the
    access; [getSession] is a lookup that stamps the access on a hit;
    [resetSession] clears the turns and the native handle of an existing
    session and keeps [id] and [createdAt]; [addTurn] appends, creating
    the session first when it is missing; unknown ids are never an
    error. *)
Module InMemorySessionStorage.

Abbreviation t := (gmap string Session.t).

(** Modelled from the spec: the store of a new server holds no session. *)
Definition empty : t := ∅.

(** Modelled from the spec: an empty session, as inserted for an id that
    is absent. *)
Definition fresh (now : Z) (sessionId : string) : Session.t :=
  Session.make sessionId now now [] None.

(** Modelled from the spec: [lastAccessedAt] is updated on every access. *)
Definition touch (now : Z) (s : Session.t) : Session.t :=
  Session.make (Session.id s) (Session.createdAt s) now
    (Session.turns s) (Session.claudeSessionId s).

(** Modelled from the spec: [ensureSession(id)] is idempotent; it
    inserts an empty session for [id] if absent, otherwise it only
    updates [lastAccessedAt]. *)
Definition ensureSession (now : Z) (sessionId : string) (st : t) : t :=
  match st !! sessionId with
  | Some s => <[sessionId := touch now s]> st
  | None => <[sessionId := fresh now sessionId]> st
  end.

(** Modelled from the spec: [getSession(id)] is a lookup that updates
    [lastAccessedAt] on a hit. *)
Definition getSession (now : Z) (sessionId : string) (st : t)
  : option Session.t * t :=
  match st !! sessionId with
  | Some s => (Some (touch now s), <[sessionId := touch now s]> st)
  | None => (None, st)
  end.

(** Modelled from the spec: [resetSession(id)] clears the turns and the
    native handle of an existing session, keeping [id] and [createdAt];
    it does nothing for an unknown id. *)
Definition resetSession (sessionId : string) (st : t) : t :=
  match st !! sessionId with
  | Some s =>
      <[sessionId := Session.make (Session.id s) (Session.createdAt s)
                       (Session.lastAccessedAt s) [] None]> st
  | None => st
  end.

(** Modelled from the spec: [addTurn(id, turn)] appends, creating the
    session first if it is missing. *)
Definition addTurn (now : Z) (sessionId : string)
    (turn : ConversationTurn.t) (st : t) : t :=
  let s := default (fresh now sessionId) (st !! sessionId) in
  <[sessionId := Session.make (Session.id s) (Session.createdAt s) now
                   (Session.turns s ++ [turn]) (Session.claudeSessionId s)]> st.

(** Modelled from the spec: the native handle of an existing session is
    set; nothing happens for an unknown id. *)
Definition setClaudeSessionId (sessionId handle : string) (st : t) : t :=
  match st !! sessionId with
  | Some s =>
      <[sessionId := Session.make (Session.id s) (Session.createdAt s)
                       (Session.lastAccessedAt s) (Session.turns s)
                       (Some handle)]> st
  | None => st
  end.

(** Modelled from the spec: the native handle of the session, absent
    when the session or its handle is. *)
Definition getClaudeSessionId (sessionId : string) (st : t)
  : option string :=
  match st !! sessionId with
  | Some s => Session.claudeSessionId s
  | None => None
  end.

(** The turns recorded for a session, oldest first. *)
Definition turnsOf (sessionId : string) (st : t) : list ConversationTurn.t :=
  match st !! sessionId with
  | Some s => Session.turns s
  | None => []
  end.

End InMemorySessionStorage.

#[export] Instance inMemorySessionStorage
  : SessionStorage (gmap string Session.t) := {|
  ensureSession := InMemorySessionStorage.ensureSession;
  getSession := InMemorySessionStorage.getSession;
  resetSession := InMemorySessionStorage.resetSession;
  addTurn := InMemorySessionStorage.addTurn;
  setClaudeSessionId := InMemorySessionStorage.setClaudeSessionId;
  getClaudeSessionId := InMemorySessionStorage.getClaudeSessionId;
|}.

(** ** Errors ([src/errors.ts]) and results *)

(** The message of a validation failure: a literal of the handler, or the
    message zod renders from its issues. *)
Inductive ErrorMessage : Type :=
| Literal (text : string)
| ZodErrorMessage (issues : list Zod.Issue).

(** Modelled from the spec: the two error classes of [src/errors.ts],
    which is not among the sources (section 7 of the design): a
    validation error is surfaced as it is, an execution error wraps the
    failure of the subprocess, tagged with the tool and the cause. *)
Inductive ToolError : Type :=
| ValidationError (toolName : string) (message : ErrorMessage)
| ToolExecutionError (toolName : string) (message : string) (cause : string).

(** [CommandResult] *)
Record CommandResult : Type := { stdout : string; stderr : string }.

Definition Metadata : Type := list (string * string).

(** One item of [ToolResult.content]; its [type] is always ['text']. *)
Record TextContent : Type := { text : string; meta : Metadata }.

(** [ToolResult] *)
Record ToolResult : Type := {
  content : list TextContent;
  structuredContent : option Metadata;
}.

(** [ProgressToken] *)
Inductive ProgressToken : Type :=
| TokenString (s : string)
| TokenNumber (n : Z).

(** [ToolHandlerContext]; [sendProgress] is the [Progress] event below. *)
Record ToolHandlerContext : Type := { progressToken : option ProgressToken }.

Definition defaultContext : ToolHandlerContext := {| progressToken := None |}.

(** ** The subprocess ([src/utils/command.ts]) as an oracle

    The file is not among the sources. The handlers only depend on how
    a call of it settles, which is left to the oracle. *)

(** One call of [executeCommand] or [executeCommandStreaming]. *)
Record Invocation : Type := {
  file : string;
  argv : list string;
  envOverride : option (list (string * string));
  streaming : bool;
}.

(** Modelled from the spec: how the promise settles (section 4.4 of
    the design). A process that exits normally resolves with what it
    printed; a non-zero exit or a spawn failure rejects. *)
Inductive Settled : Type :=
| Resolved (result : CommandResult)
| Rejected (cause : string).

(** What the process does for an invocation: the messages the streaming
    variant hands to [onProgress], then the settlement. *)
Record Run : Type := { chunks : list string; settled : Settled }.

Definition Subprocess : Type := Invocation -> Run.

(** What a handler call does besides touching the session store. *)
Inductive Event : Type :=
| Progress (message : string) (progress : option Z)
| Spawn (invocation : Invocation).

(** How a handler call ends. [OffType] marks the runs in which the
    subprocess printed JSON whose [result] or [session_id] is not a
    string: the value then flows where [handlers.ts] declares a string.
    The handler goes on with it all the same; what it hands to the store
    and returns is outside of what a store and a result of strings can
    hold, so the [storage] of such an outcome is the store up to that
    point only. [readOutput] and [persistCalls] give the values and the
    store calls of those runs. *)
Inductive Completion : Type :=
| Returned (result : ToolResult)
| Thrown (error : ToolError)
| OffType.

Record Outcome (S : Type) : Type := {
  storage : S;
  events : list Event;
  completion : Completion;
}.
Arguments storage {S} _.
Arguments events {S} _.
Arguments completion {S} _.

(** The invocations among the events of a call, in order. *)
Definition spawned (evs : list Event) : list Invocation :=
  omap (fun ev => match ev with Spawn inv => Some inv | Progress _ _ => None end)
       evs.

(** The two instants at which one call reads the clock: before the
    subprocess is started and after it has answered. *)
Record Clock : Type := { atStart : Z; atReturn : Z }.

(** ** The handlers ([src/tools/handlers.ts]) *)

(** [isStructuredContentEnabled] *)
Definition isStructuredContentEnabled (env : gmap string string) : bool :=
  match env !! "STRUCTURED_CONTENT_ENABLED" with
  | Some raw =>
      if Js.truthy raw
      then existsb (String.eqb (Js.toLowerCase raw)) ["1"; "true"; "yes"; "on"]
      else false
  | None => false
  end.

(** [model || process.env[CLAUDE_DEFAULT_MODEL_ENV_VAR] || DEFAULT_CLAUDE_MODEL] *)
Definition selectModel (env : gmap string string) (model : option string)
  : string :=
  Js.orDefault (Js.or model (env !! CLAUDE_DEFAULT_MODEL_ENV_VAR))
    DEFAULT_CLAUDE_MODEL.

(** [turns.slice(-n)] *)
Definition lastTurns {A} (n : nat) (l : list A) : list A :=
  skipn (length l - n) l.

(** The callback of [recentTurns.map] in [buildEnhancedPrompt]. *)
Definition contextLine (turn : ConversationTurn.t) : string :=
  let response := ConversationTurn.response turn in
  if Js.includes "function" response || Js.includes "def " response
  then "Previous code context: " +:+ Js.slice0 200 response +:+ "..."
  else "Context: " +:+ ConversationTurn.prompt turn +:+ " -> " +:+
       Js.slice0 100 response +:+ "...".

(** [ClaudeToolHandler.buildEnhancedPrompt] *)
Definition buildEnhancedPrompt (turns : list ConversationTurn.t)
    (newPrompt : string) : string :=
  match turns with
  | [] => newPrompt
  | _ :: _ =>
      let recentTurns := lastTurns 2 turns in
      let contextualInfo := Js.join Js.LF (List.map contextLine recentTurns) in
      contextualInfo +:+ Js.LF +:+ Js.LF +:+ "Task: " +:+ newPrompt
  end.

(** The variables [execute] has set when it leaves the session block
    (lines 57-85). *)
Record SessionStage : Type := {
  useResume : bool;
  claudeSessionId : option string;
  enhancedPrompt : string;
}.

(** The test [useResume && claudeSessionId] of line 95: the handle it
    lets through, if it holds. *)
Definition resumeHandle (stage : SessionStage) : option string :=
  if useResume stage then Js.or (claudeSessionId stage) None else None.

(** Whether the call runs in resume mode; otherwise it runs in fresh
    mode. *)
Definition resumeMode (stage : SessionStage) : bool :=
  match resumeHandle stage with
  | Some _ => true
  | None => false
  end.

(** [if (x) cmdArgs.push(flag, x)] for an optional string [x] *)
Definition pushOpt (flag : string) (x : option string) : list string :=
  match x with
  | Some s => if Js.truthy s then [flag; s] else []
  | None => []
  end.

(** The catch clause of the output parser: [stdout || stderr || placeholder] *)
Definition rawOutput (placeholder : string) (result : CommandResult) : string :=
  Js.orDefault (Js.or (Some (stdout result)) (Some (stderr result)))
    placeholder.

(** What the block around [JSON.parse] leaves in [response] and
    [extractedSessionId]. *)
Inductive Parsed : Type :=
| Fields (response : string) (extractedSessionId : option string)
| Mistyped.

(** [parsed.result ?? result.stdout] *)
Definition resultField (v : option JsValue) (raw : string) : option string :=
  match v with
  | None | Some JNull => Some raw
  | Some (JStr s) => Some s
  | Some _ => None
  end.

(** [parsed.session_id], as far as the later test [&& extractedSessionId]
    can tell: a falsy value is as good as [undefined]. *)
Definition sessionIdField (v : option JsValue) : option (option string) :=
  match v with
  | None => Some None
  | Some (JStr s) => Some (Some s)
  | Some v' => if Json.truthy v' then None else Some None
  end.

(** Lines 150-158: reading a property of [null] throws inside the [try]
    and so ends in the catch clause, like a syntax error does; a string,
    number, boolean or array has neither property. *)
Definition parseOutput (result : CommandResult) : Parsed :=
  match Json.parse (stdout result) with
  | None | Some JNull =>
      Fields (rawOutput "No output from Claude" result) None
  | Some (JObj props) =>
      match resultField (Json.member "result" props) (stdout result),
            sessionIdField (Json.member "session_id" props) with
      | Some response, Some extracted => Fields response extracted
      | _, _ => Mistyped
      end
  | Some _ => Fields (stdout result) None
  end.

(** *** The same lines on the values JavaScript has there

    [handlers.ts] declares [response] and [extractedSessionId] as strings
    but does not test what the subprocess printed: [parsed.result] and
    [parsed.session_id] are passed on whatever their types.
    [parseOutput] above is the part of this in which both are strings. *)

(** What lines 150-158 leave in [response] and [extractedSessionId];
    [None] is [undefined]. *)
Record Answer : Type := {
  answerResponse : JsValue;
  answerSessionId : option JsValue;
}.

(** Lines 150-158 *)
Definition readOutput (result : CommandResult) : Answer :=
  match Json.parse (stdout result) with
  | None | Some JNull =>
      {| answerResponse := JStr (rawOutput "No output from Claude" result);
         answerSessionId := None |}
  | Some (JObj props) =>
      {| answerResponse :=
           match Json.member "result" props with
           | None | Some JNull => JStr (stdout result)
           | Some v => v
           end;
         answerSessionId := Json.member "session_id" props |}
  | Some _ =>
      {| answerResponse := JStr (stdout result); answerSessionId := None |}
  end.

(** A call of the session store after the subprocess has answered, with
    the values it is given. *)
Inductive StoreCall : Type :=
| SetClaudeSessionId (sessionId : string) (claudeSessionId : JsValue)
| AddTurn (sessionId : string) (prompt : string) (response : JsValue)
    (timestamp : Z).

(** Lines 160-176: the calls of the store, in order. *)
Definition persistCalls (now : Z) (a : ClaudeToolArgs.t) (stage : SessionStage)
    (answer : Answer) : list StoreCall :=
  match ClaudeToolArgs.sessionId a with
  | Some activeSessionId =>
      if Js.truthy activeSessionId then
        match answerSessionId answer with
        | Some extracted =>
            if negb (useResume stage) && Json.truthy extracted
            then [SetClaudeSessionId activeSessionId extracted]
            else []
        | None => []
        end ++
        [AddTurn activeSessionId (ClaudeToolArgs.prompt a)
           (answerResponse answer) now]
      else []
  | None => []
  end.

(** A call on a store whose operations take strings, as
    [SessionStorage] declares them; [None] when the value handed over is
    not a string. *)
Definition applyCall {S : Type} `{store : SessionStorage S}
    (call : StoreCall) (st : S) : option S :=
  match call with
  | SetClaudeSessionId sessionId (JStr handle) =>
      Some (setClaudeSessionId sessionId handle st)
  | AddTurn sessionId prompt (JStr response) timestamp =>
      Some (addTurn timestamp sessionId
              (ConversationTurn.make prompt response timestamp) st)
  | _ => None
  end.

Fixpoint applyCalls {S : Type} `{store : SessionStorage S}
    (calls : list StoreCall) (st : S) : option S :=
  match calls with
  | [] => Some st
  | call :: rest =>
      match applyCall call st with
      | Some st' => applyCalls rest st'
      | None => None
      end
  end.

(** [!!context.progressToken] *)
Definition useStreaming (context : ToolHandlerContext) : bool :=
  match progressToken context with
  | Some (TokenString s) => Js.truthy s
  | Some (TokenNumber n) => negb (n =? 0)
  | None => false
  end.

(** The events from the first progress notification to the settlement of
    the subprocess. *)
Definition invoke (run : Subprocess) (started : string) (inv : Invocation)
  : list Event :=
  [Progress started (Some 0); Spawn inv] ++
  (if streaming inv
   then List.map (fun message => Progress message None) (chunks (run inv))
   else []).

Section ClaudeToolHandler.
Context `{platform : Platform} {S : Type} `{store : SessionStorage S}.
Variable env : gmap string string.

(** The store at the point the native handle is looked up: the session
    has been ensured and, when the request asks for it, reset. *)
Definition ensuredAndReset (now : Z) (a : ClaudeToolArgs.t)
    (sessionId : string) (st : S) : S :=
  let st1 := ensureSession now sessionId st in
  if default false (ClaudeToolArgs.resetSession a)
  then resetSession sessionId st1 else st1.

(** Lines 57-85 of [ClaudeToolHandler.execute]. *)
Definition sessionStage (now : Z) (a : ClaudeToolArgs.t) (st : S)
  : SessionStage * S :=
  let prompt := ClaudeToolArgs.prompt a in
  let off := {| useResume := false; claudeSessionId := None;
                enhancedPrompt := prompt |} in
  match ClaudeToolArgs.sessionId a with
  | Some sessionId =>
      if Js.truthy sessionId then
        let st := ensureSession now sessionId st in
        let st := if default false (ClaudeToolArgs.resetSession a)
                  then resetSession sessionId st else st in
        let claudeSessionId := getClaudeSessionId sessionId st in
        if Js.truthyOpt claudeSessionId then
          ({| useResume := true; claudeSessionId := claudeSessionId;
              enhancedPrompt := prompt |}, st)
        else
          let '(session, st) := getSession now sessionId st in
          ({| useResume := false; claudeSessionId := claudeSessionId;
              enhancedPrompt :=
                match session with
                | Some session =>
                    match Session.turns session with
                    | [] => prompt
                    | turns => buildEnhancedPrompt turns prompt
                    end
                | None => prompt
                end |}, st)
      else (off, st)
  | None => (off, st)
  end.

(** Lines 93-126: the argument list. *)
Definition cmdArgs (a : ClaudeToolArgs.t) (stage : SessionStage)
    (selectedModel : string) : list string :=
  let outputFormat :=
    match ClaudeToolArgs.outputFormat a with
    | Some format =>
        if Js.truthy format then ["--output-format"; format]
        else ["--output-format"; "json"]
    | None => ["--output-format"; "json"]
    end in
  match resumeHandle stage with
  | Some handle =>
      ["-p"; enhancedPrompt stage; "--resume"; handle;
       "--model"; selectedModel] ++
      outputFormat ++
      pushOpt "--cwd" (ClaudeToolArgs.workingDirectory a)
  | None =>
      ["-p"; enhancedPrompt stage; "--model"; selectedModel] ++
      outputFormat ++
      match ClaudeToolArgs.maxTurns a with
      | Some n => if n =? 0 then [] else ["--max-turns"; Js.ofInt n]
      | None => []
      end ++
      (if default false (ClaudeToolArgs.dangerouslySkipPermissions a)
       then ["--dangerously-skip-permissions"] else []) ++
      pushOpt "--allowedTools" (ClaudeToolArgs.allowedTools a) ++
      pushOpt "--cwd" (ClaudeToolArgs.workingDirectory a)
  end.

(** Lines 132-147: which executor is called, and with what. *)
Definition invocation (a : ClaudeToolArgs.t) (context : ToolHandlerContext)
    (args : list string) : Invocation :=
  {| file := "claude";
     argv := args;
     envOverride :=
       match ClaudeToolArgs.routerBaseUrl a with
       | Some url =>
           if Js.truthy url then Some [("ANTHROPIC_BASE_URL", url)] else None
       | None => None
       end;
     streaming := useStreaming context |}.

(** Lines 160-176: the native handle of a new conversation is kept, and
    the turn is saved, only when the call uses a session. *)
Definition persist (now : Z) (a : ClaudeToolArgs.t) (stage : SessionStage)
    (response : string) (extractedSessionId : option string) (st : S) : S :=
  match ClaudeToolArgs.sessionId a with
  | Some activeSessionId =>
      if Js.truthy activeSessionId then
        let st :=
          match extractedSessionId with
          | Some extracted =>
              if negb (useResume stage) && Js.truthy extracted
              then setClaudeSessionId activeSessionId extracted st
              else st
          | None => st
          end in
        addTurn now activeSessionId
          (ConversationTurn.make (ClaudeToolArgs.prompt a) response now) st
      else st
  | None => st
  end.

(** Lines 181-184 *)
Definition claudeMetadata (a : ClaudeToolArgs.t) (selectedModel : string)
  : Metadata :=
  (if Js.truthy selectedModel then [("model", selectedModel)] else []) ++
  match ClaudeToolArgs.sessionId a with
  | Some activeSessionId =>
      if Js.truthy activeSessionId
      then [("sessionId", activeSessionId)] else []
  | None => []
  end.

(** [ClaudeToolHandler.execute] *)
Definition execute (run : Subprocess) (clock : Clock) (args : JsValue)
    (context : ToolHandlerContext) (st : S) : Outcome S :=
  match ClaudeToolSchema args with
  | inl issues =>
      {| storage := st; events := [];
         completion :=
           Thrown (ValidationError TOOLS.CLAUDE (ZodErrorMessage issues)) |}
  | inr a =>
      let '(stage, st) := sessionStage (atStart clock) a st in
      let selectedModel := selectModel env (ClaudeToolArgs.model a) in
      let inv := invocation a context (cmdArgs a stage selectedModel) in
      let evs := invoke run "Starting Claude execution..." inv in
      match settled (run inv) with
      | Rejected cause =>
          {| storage := st; events := evs;
             completion :=
               Thrown (ToolExecutionError TOOLS.CLAUDE
                         "Failed to execute claude command" cause) |}
      | Resolved result =>
          match parseOutput result with
          | Mistyped => {| storage := st; events := evs; completion := OffType |}
          | Fields response extractedSessionId =>
              let metadata := claudeMetadata a selectedModel in
              {| storage :=
                   persist (atReturn clock) a stage response
                     extractedSessionId st;
                 events := evs;
                 completion :=
                   Returned
                     {| content := [{| text := response; meta := metadata |}];
                        structuredContent :=
                          if isStructuredContentEnabled env &&
                             negb (Nat.eqb (length metadata) 0)
                          then Some metadata else None |} |}
          end
      end
  end.

End ClaudeToolHandler.

Section ReviewToolHandler.
Context `{platform : Platform}.
Variable env : gmap string string.

(** [if (x) reviewContext.push(sentence)] for an optional string [x] *)
Definition contextSentence (x : option string) (sentence : string -> string)
  : list string :=
  match x with
  | Some s => if Js.truthy s then [sentence s] else []
  | None => []
  end.

(** Lines 371-375 *)
Definition reviewContext (a : ReviewToolArgs.t) : list string :=
  (if default false (ReviewToolArgs.uncommitted a)
   then ["Review staged, unstaged, and untracked changes (working tree diff)."]
   else []) ++
  contextSentence (ReviewToolArgs.base a)
    (fun base => "Review changes against base branch: " +:+ base +:+ ".") ++
  contextSentence (ReviewToolArgs.commit a)
    (fun commit => "Review changes introduced by commit: " +:+ commit +:+ ".") ++
  contextSentence (ReviewToolArgs.title a)
    (fun title => "Review title: " +:+ title +:+ ".").

(** Lines 377-381 *)
Definition reviewPrompt (a : ReviewToolArgs.t) : string :=
  let context := reviewContext a in
  if Js.truthyOpt (ReviewToolArgs.prompt a) then
    Js.join " " context +:+ " " +:+ default "" (ReviewToolArgs.prompt a)
  else
    match context with
    | _ :: _ => Js.join " " context +:+ " Please provide a detailed code review."
    | [] => "Please review the current code changes and provide feedback."
    end.

(** Lines 383-384 *)
Definition reviewArgs (a : ReviewToolArgs.t) (selectedModel : string)
  : list string :=
  ["-p"; reviewPrompt a; "--model"; selectedModel; "--output-format"; "json"] ++
  pushOpt "--cwd" (ReviewToolArgs.workingDirectory a).

(** [...(x && { key: x })] for an optional string [x] *)
Definition spreadOpt (key : string) (x : option string) : Metadata :=
  match x with
  | Some s => if Js.truthy s then [(key, s)] else []
  | None => []
  end.

(** Lines 411-415 *)
Definition reviewMetadata (a : ReviewToolArgs.t) (selectedModel : string)
  : Metadata :=
  [("model", selectedModel)] ++
  spreadOpt "base" (ReviewToolArgs.base a) ++
  spreadOpt "commit" (ReviewToolArgs.commit a).

(** Lines 400-406: only [parsed.result] is read. *)
Definition parseReviewOutput (result : CommandResult) : option string :=
  match Json.parse (stdout result) with
  | None | Some JNull => Some (rawOutput "No review output from Claude" result)
  | Some (JObj props) => resultField (Json.member "result" props) (stdout result)
  | Some _ => Some (stdout result)
  end.

(** Lines 400-406 on the value JavaScript has there: [parsed.result]
    is returned whatever its type; [parseReviewOutput] is the part of
    this in which it is a string. *)
Definition readReviewOutput (result : CommandResult) : JsValue :=
  match Json.parse (stdout result) with
  | None | Some JNull =>
      JStr (rawOutput "No review output from Claude" result)
  | Some (JObj props) =>
      match Json.member "result" props with
      | None | Some JNull => JStr (stdout result)
      | Some v => v
      end
  | Some _ => JStr (stdout result)
  end.

(** [ReviewToolHandler.execute]; it uses no session store. *)
Definition review (run : Subprocess) (args : JsValue)
    (context : ToolHandlerContext) : Outcome unit :=
  match ReviewToolSchema args with
  | inl issues =>
      {| storage := (); events := [];
         completion :=
           Thrown (ValidationError TOOLS.REVIEW (ZodErrorMessage issues)) |}
  | inr a =>
      if Js.truthyOpt (ReviewToolArgs.prompt a) &&
         default false (ReviewToolArgs.uncommitted a)
      then
        {| storage := (); events := [];
           completion :=
             Thrown (ValidationError TOOLS.REVIEW (Literal
               "The review prompt cannot be combined with uncommitted=true. Use a base/commit review or omit the prompt.")) |}
      else
        let selectedModel := selectModel env (ReviewToolArgs.model a) in
        let inv :=
          {| file := "claude"; argv := reviewArgs a selectedModel;
             envOverride := None; streaming := useStreaming context |} in
        let evs := invoke run "Starting code review..." inv in
        match settled (run inv) with
        | Rejected cause =>
            {| storage := (); events := evs;
               completion :=
                 Thrown (ToolExecutionError TOOLS.REVIEW
                           "Failed to execute claude review" cause) |}
        | Resolved result =>
            match parseReviewOutput result with
            | None =>
                {| storage := (); events := evs; completion := OffType |}
            | Some response =>
                let metadata := reviewMetadata a selectedModel in
                {| storage := (); events := evs;
                   completion :=
                     Returned
                       {| content := [{| text := response; meta := metadata |}];
                          structuredContent :=
                            if isStructuredContentEnabled env
                            then Some metadata else None |} |}
            end
        end
  end.

End ReviewToolHandler.

(** [PingToolSchema] and [HelpToolSchema] of [src/types.ts] *)
Definition PingToolSchema (input : JsValue) : Zod.Result (option string) :=
  object (fun props => Zod.field props (Zod.string_ []) "message") input.

Definition HelpToolSchema (input : JsValue) : Zod.Result unit :=
  object (fun _ => inr ()) input.

(** [ListSessionsToolSchema] of [src/types.ts] *)
Definition ListSessionsToolSchema (input : JsValue) : Zod.Result unit :=
  object (fun _ => inr ()) input.

(** [PingToolHandler.execute]; the destructuring default ['pong'] stands
    in for an absent [message] only. The content item carries no [_meta],
    which the empty list stands for, and the result no
    [structuredContent]. *)
Definition ping (args : JsValue) : Outcome unit :=
  match PingToolSchema args with
  | inl issues =>
      {| storage := (); events := [];
         completion :=
           Thrown (ValidationError TOOLS.PING (ZodErrorMessage issues)) |}
  | inr message =>
      {| storage := (); events := [];
         completion :=
           Returned
             {| content := [{| text := default "pong" message; meta := [] |}];
                structuredContent := None |} |}
  end.

(** [HelpToolHandler.execute]: [executeCommand('claude', ['--help'])],
    without a progress notification and whatever the context holds. *)
Definition help (run : Subprocess) (args : JsValue) : Outcome unit :=
  match HelpToolSchema args with
  | inl issues =>
      {| storage := (); events := [];
         completion :=
           Thrown (ValidationError TOOLS.HELP (ZodErrorMessage issues)) |}
  | inr _ =>
      let inv :=
        {| file := "claude"; argv := ["--help"];
           envOverride := None; streaming := false |} in
      match settled (run inv) with
      | Rejected cause =>
          {| storage := (); events := [Spawn inv];
             completion :=
               Thrown (ToolExecutionError TOOLS.HELP
                         "Failed to execute help command" cause) |}
      | Resolved result =>
          {| storage := (); events := [Spawn inv];
             completion :=
               Returned
                 {| content :=
                      [{| text :=
                            Js.orDefault (Some (stdout result))
                              "No help information available";
                          meta := [] |}];
                    structuredContent := None |} |}
      end
  end.

(** One request to the execute-assistant handler, with what surrounds
    it: the process environment, the behaviour of the subprocess, the
    two instants read from the clock and the context of the request. *)
Record Call : Type := {
  call_env : gmap string string;
  call_run : Subprocess;
  call_clock : Clock;
  call_args : JsValue;
  call_context : ToolHandlerContext;
}.

(** The execute-assistant handler on one request. *)
Definition executeCall `{platform : Platform} {S : Type}
    `{store : SessionStorage S} (c : Call) (st : S) : Outcome S :=
  execute (call_env c) (call_run c) (call_clock c) (call_args c)
    (call_context c) st.

(** The registry [toolHandlers] holds one handler, with one store, for
    the life of the server: each call starts from the store the previous
    one left. *)
Definition serve `{platform : Platform} {S : Type} `{store : SessionStorage S}
    (calls : list Call) (st : S) : S :=
  fold_left (fun st c => storage (executeCall c st)) calls st.

(** ** The advertised tools ([src/tools/definitions.ts]) *)

(** [AVAILABLE_CLAUDE_MODELS] of [src/types.ts] *)
Definition AVAILABLE_CLAUDE_MODELS : list string :=
  ["claude-sonnet-4-6"; "claude-opus-4-6"; "claude-haiku-4-5-20251001"].

(** The parameter of [getModelDescription]: ['claude' | 'review']. *)
Inductive ToolType : Type := claudeTool | reviewTool.

(** [getModelDescription] of [src/types.ts] *)
Definition getModelDescription (toolType : ToolType) : string :=
  let modelList := Js.join ", " AVAILABLE_CLAUDE_MODELS in
  match toolType with
  | claudeTool =>
      "Specify which model to use (defaults to " +:+ DEFAULT_CLAUDE_MODEL +:+
      "). Options: " +:+ modelList
  | reviewTool =>
      "Specify which model to use for the review (defaults to " +:+
      DEFAULT_CLAUDE_MODEL +:+ ")"
  end.

(** The JSON Schema objects the definitions are written with: a [type],
    an optional [description] and, by type, [enum], [maxItems] and
    [items], or [properties] and [required]. *)
Inductive JsonSchema : Type :=
| SchemaString (description : option string) (enum : option (list string))
| SchemaBoolean (description : option string)
| SchemaNumber (description : option string)
| SchemaArray (description : option string) (maxItems : option nat)
    (items : JsonSchema)
| SchemaObject (properties : list (string * JsonSchema))
    (required : option (list string)).

(** [ToolAnnotations] *)
Module ToolAnnotations.
Record t : Type := make {
  title : string;
  readOnlyHint : bool;
  destructiveHint : bool;
  idempotentHint : bool;
  openWorldHint : bool;
}.
End ToolAnnotations.

(** [ToolDefinition] *)
Module ToolDefinition.
Record t : Type := make {
  name : string;
  description : string;
  inputSchema : JsonSchema;
  outputSchema : option JsonSchema;
  annotations : ToolAnnotations.t;
}.
End ToolDefinition.

(** [toolDefinitions]; the two descriptions that quote their examples
    are written with ['] for the double quote. *)
Definition toolDefinitions : list ToolDefinition.t :=
  [ ToolDefinition.make TOOLS.CLAUDE
      "Execute Claude Code CLI in non-interactive mode for AI assistance"
      (SchemaObject
         [("prompt",
           SchemaString
             (Some "The coding task, question, or analysis request") None);
          ("sessionId",
           SchemaString
             (Some "Optional session ID for conversational context. When resuming a session, allowedTools and workingDirectory are applied normally.")
             None);
          ("resetSession",
           SchemaBoolean
             (Some "Reset the session history before processing this request"));
          ("model", SchemaString (Some (getModelDescription claudeTool)) None);
          ("workingDirectory",
           SchemaString
             (Some "Working directory for the agent to use as its root (passed via --cwd flag)")
             None);
          ("allowedTools",
           SchemaString
             (Some (Json.quoted "Comma-separated list of tools to allow (e.g. 'Bash,Read,Write'). Passed via --allowedTools flag."))
             None);
          ("dangerouslySkipPermissions",
           SchemaBoolean (Some "Skip permission prompts. Use with caution."));
          ("outputFormat",
           SchemaString
             (Some "Output format for the claude CLI response (default: json)")
             (Some ["text"; "json"; "stream-json"]));
          ("maxTurns",
           SchemaNumber
             (Some "Maximum number of agentic turns before stopping"));
          ("routerBaseUrl",
           SchemaString
             (Some "Override ANTHROPIC_BASE_URL for this call (e.g. for claude-code-router)")
             None);
          ("fallbackProviders",
           SchemaArray
             (Some "Ordered list of fallback providers to try if the primary call fails. Each entry can override model and/or routerBaseUrl.")
             (Some 5%nat)
             (SchemaObject
                [("routerBaseUrl",
                  SchemaString
                    (Some "Override ANTHROPIC_BASE_URL for this fallback attempt")
                    None);
                 ("model",
                  SchemaString
                    (Some "Model to use for this fallback attempt") None)]
                None))]
         (Some ["prompt"]))
      (Some (SchemaObject [("sessionId", SchemaString None None)] None))
      (ToolAnnotations.make "Execute Claude Code CLI" false true false true);
    ToolDefinition.make TOOLS.REVIEW
      "Run a code review using Claude Code CLI by passing review context as a prompt"
      (SchemaObject
         [("prompt",
           SchemaString
             (Some "Custom review instructions or focus areas (cannot be used with uncommitted=true; use base/commit review instead)")
             None);
          ("uncommitted",
           SchemaBoolean
             (Some "Review staged, unstaged, and untracked changes (working tree) - cannot be combined with custom prompt"));
          ("base",
           SchemaString
             (Some (Json.quoted "Review changes against a specific base branch (e.g., 'main', 'develop')"))
             None);
          ("commit",
           SchemaString
             (Some "Review the changes introduced by a specific commit SHA")
             None);
          ("title",
           SchemaString
             (Some "Optional title to display in the review summary") None);
          ("model", SchemaString (Some (getModelDescription reviewTool)) None);
          ("workingDirectory",
           SchemaString
             (Some "Working directory to run the review in (passed via --cwd flag)")
             None)]
         (Some []))
      None
      (ToolAnnotations.make "Code Review" true false true true);
    ToolDefinition.make TOOLS.PING "Test MCP server connection"
      (SchemaObject
         [("message", SchemaString (Some "Message to echo back") None)]
         (Some []))
      None
      (ToolAnnotations.make "Ping Server" true false true false);
    ToolDefinition.make TOOLS.HELP "Get Claude Code CLI help information"
      (SchemaObject [] (Some []))
      None
      (ToolAnnotations.make "Get Help" true false true false);
    ToolDefinition.make TOOLS.LIST_SESSIONS
      "List all active conversation sessions with metadata"
      (SchemaObject [] (Some []))
      None
      (ToolAnnotations.make "List Sessions" true false true false) ].

(** The definition advertised under a tool name. *)
Definition definitionOf (toolName : string) : option ToolDefinition.t :=
  List.find (fun d => String.eqb (ToolDefinition.name d) toolName)
    toolDefinitions.

(** What a client that validates a request against an advertised schema
    admits, by the keywords the definitions use: [type], [enum],
    [maxItems], [items], [properties] and [required]. A property the
    schema does not list is not constrained. *)
Fixpoint conforms (schema : JsonSchema) (v : JsValue) : bool :=
  match schema, v with
  | SchemaString _ enum, JStr s =>
      match enum with
      | Some options => existsb (String.eqb s) options
      | None => true
      end
  | SchemaBoolean _, JBool _ => true
  | SchemaNumber _, JNum _ _ => true
  | SchemaArray _ maxItems items, JArr vs =>
      match maxItems with
      | Some n => bool_decide (length vs <= n)%nat
      | None => true
      end && forallb (conforms items) vs
  | SchemaObject properties required, JObj members =>
      (fix each (ps : list (string * JsonSchema)) : bool :=
         match ps with
         | [] => true
         | (key, s) :: ps' =>
             match Json.member key members with
             | Some v' => conforms s v'
             | None => true
             end && each ps'
         end) properties &&
      forallb (fun key => bool_decide (is_Some (Json.member key members)))
        (default [] required)
  | _, _ => false
  end.

(** Whether the input schema advertised for a tool admits a request. *)
Definition admits (toolName : string) (args : JsValue) : bool :=
  match definitionOf toolName with
  | Some definition => conforms (ToolDefinition.inputSchema definition) args
  | None => false
  end.

(** * Vocabulary of the properties *)

(** The length of [parts.join(sep)]. *)
Fixpoint totalLength (parts : list string) : nat :=
  match parts with
  | [] => 0
  | s :: rest => String.length s + totalLength rest
  end.

(** The prompts of the given turns, added up. *)
Definition promptsLength (turns : list ConversationTurn.t) : nat :=
  totalLength (List.map ConversationTurn.prompt turns).

(** What the session-id checks of the schema let through. *)
Definition validSessionId (s : string) : Prop :=
  (String.length s <= 256)%nat /\ sessionIdPattern s = true.

(** The session ids the design admits: at most 256 characters, at least
    one, each of them a letter, a digit, an underscore or a hyphen. *)
Definition wellFormedSessionId (s : string) : Prop :=
  (String.length s <= 256)%nat /\ s <> "" /\
  forall c, In c (list_ascii_of_string s) ->
    let n := N_of_ascii c in
    (97 <= n <= 122 \/ 65 <= n <= 90 \/ 48 <= n <= 57 \/ n = 95 \/ n = 45)%N.

(** No session holds the empty string as its native handle. *)
Definition handlesNonEmpty (st : gmap string Session.t) : Prop :=
  map_Forall (fun _ s => Session.claudeSessionId s <> Some "") st.

(** The stores of a server that starts with the empty store and changes
    it through calls of the execute-assistant handler only. *)
Inductive Reachable `{platform : Platform} : gmap string Session.t -> Prop :=
| Reachable_empty : Reachable InMemorySessionStorage.empty
| Reachable_execute (st : gmap string Session.t) (env : gmap string string)
    (run : Subprocess) (clock : Clock) (args : JsValue)
    (context : ToolHandlerContext) :
    Reachable st ->
    Reachable (storage (execute env run clock args context st)).

(** The text of the response a call returned, if it returned one. *)
Definition responseText (c : Completion) : option string :=
  match c with
  | Returned {| content := [item] |} => Some (text item)
  | _ => None
  end.

(** The subprocess a call started exited normally and left [result]. *)
Definition answered {S : Type} (o : Outcome S) (run : Subprocess)
    (result : CommandResult) : Prop :=
  forall inv, In inv (spawned (events o)) -> settled (run inv) = Resolved result.

(** Modelled from the spec: the contract of the session store (section
    4.1 of the design), as far as the execute-assistant handler relies on
    it beyond the signatures of the operations. A lawful store tells
    which sessions it knows and which turns it holds for each, and its
    operations act on one session at a time: [ensureSession] makes the
    session known and changes nothing else that is observable,
    [resetSession] clears the handle and the turns, [getSession] hands
    out the turns of a known session, [addTurn] appends and
    [setClaudeSessionId] sets the handle of a known session. *)
Class SessionStorageLaws (S : Type) `{store : SessionStorage S} : Type := {
  known : string -> S -> Prop;
  history : string -> S -> list ConversationTurn.t;
  law_known_ensure (now : Z) (sid : string) (st : S) :
    known sid (ensureSession now sid st);
  law_known_reset (sid : string) (st : S) :
    known sid st -> known sid (resetSession sid st);
  law_known_getSession (now : Z) (sid : string) (st : S) :
    known sid st -> known sid (snd (getSession now sid st));
  law_getSession (now : Z) (sid : string) (st : S) :
    known sid st ->
    exists session,
      fst (getSession now sid st) = Some session /\
      Session.turns session = history sid st;
  law_handle_ensure (now : Z) (sid sid' : string) (st : S) :
    getClaudeSessionId sid' (ensureSession now sid st)
    = getClaudeSessionId sid' st;
  law_handle_reset (sid sid' : string) (st : S) :
    getClaudeSessionId sid' (resetSession sid st)
    = if decide (sid = sid') then None else getClaudeSessionId sid' st;
  law_handle_getSession (now : Z) (sid sid' : string) (st : S) :
    getClaudeSessionId sid' (snd (getSession now sid st))
    = getClaudeSessionId sid' st;
  law_handle_addTurn (now : Z) (sid sid' : string) (turn : ConversationTurn.t)
      (st : S) :
    getClaudeSessionId sid' (addTurn now sid turn st)
    = getClaudeSessionId sid' st;
  law_handle_set (sid handle : string) (st : S) :
    known sid st ->
    getClaudeSessionId sid (setClaudeSessionId sid handle st) = Some handle;
  law_handle_set_other (sid sid' handle : string) (st : S) :
    sid <> sid' ->
    getClaudeSessionId sid' (setClaudeSessionId sid handle st)
    = getClaudeSessionId sid' st;
  law_history_ensure (now : Z) (sid sid' : string) (st : S) :
    history sid' (ensureSession now sid st) = history sid' st;
  law_history_reset (sid sid' : string) (st : S) :
    history sid' (resetSession sid st)
    = if decide (sid = sid') then [] else history sid' st;
  law_history_getSession (now : Z) (sid sid' : string) (st : S) :
    history sid' (snd (getSession now sid st)) = history sid' st;
  law_history_addTurn (now : Z) (sid sid' : string) (turn : ConversationTurn.t)
      (st : S) :
    history sid' (addTurn now sid turn st)
    = if decide (sid = sid') then history sid' st ++ [turn]
      else history sid' st;
  law_history_set (sid sid' handle : string) (st : S) :
    history sid' (setClaudeSessionId sid handle st) = history sid' st;
}.

(** The schema lets the value through. *)
Definition accepted {A : Type} (r : Zod.Result A) : Prop :=
  exists a, r = inr a.

(** The request names the session [sid] and asks for its reset. *)
Definition resetsSession (a : ClaudeToolArgs.t) (sid : string) : bool :=
  match ClaudeToolArgs.sessionId a with
  | Some sessionId =>
      Js.truthy sessionId && default false (ClaudeToolArgs.resetSession a) &&
      bool_decide (sessionId = sid)
  | None => false
  end.

(** The request names the session [sid]. *)
Definition namesSession (a : ClaudeToolArgs.t) (sid : string) : bool :=
  match ClaudeToolArgs.sessionId a with
  | Some sessionId => Js.truthy sessionId && bool_decide (sessionId = sid)
  | None => false
  end.

(** The turn a returning call records. *)
Definition turnOf (clock : Clock) (a : ClaudeToolArgs.t) (response : string)
  : ConversationTurn.t :=
  ConversationTurn.make (ClaudeToolArgs.prompt a) response (atReturn clock).

(** The argument list of the one subprocess a call started. *)
Definition sentArgs {S : Type} (o : Outcome S) : option (list string) :=
  match spawned (events o) with
  | [inv] => Some (argv inv)
  | _ => None
  end.

(** ** Sample data for the closed statements *)

Definition samplePlatform : Platform :=
  {| URL_canParse := String.prefix "http" |}.

(** A subprocess that prints [out] and [err] and exits normally. *)
Definition answers (out err : string) : Subprocess :=
  fun _ => {| chunks := [];
              settled := Resolved {| stdout := out; stderr := err |} |}.

Definition sampleClock : Clock := {| atStart := 100; atReturn := 200 |}.

(** A store in which session [s1] holds the native handle [h1] and one
    turn. *)
Definition resumableStore : gmap string Session.t :=
  InMemorySessionStorage.setClaudeSessionId "s1" "h1"
    (InMemorySessionStorage.addTurn 2 "s1"
       (ConversationTurn.make "first question" "first answer" 2)
       InMemorySessionStorage.empty).

(** A long answer that looks like code. *)
Definition longAnswer : string :=
  Js.join "" (repeat "Answer: a function of ten words that goes on. " 40).

(** The execute-assistant handler on the sample platform, with an empty
    process environment. *)
Definition sampleExecute (run : Subprocess) (args : JsValue)
    (st : gmap string Session.t) : Outcome (gmap string Session.t) :=
  execute (platform := samplePlatform) ∅ run sampleClock args defaultContext st.

(** Ten turns with long answers and no native handle. *)
Definition talkativeSession : Session.t :=
  Session.make "s2" 0 9
    (List.map
       (fun i => ConversationTurn.make ("Question " +:+ pretty i) longAnswer
                   (Z.of_nat i))
       (seq 0 10))
    None.

Definition talkativeStore : gmap string Session.t :=
  {[ "s2" := talkativeSession ]}.

(** A subprocess that fails with [cause]. *)
Definition fails (cause : string) : Subprocess :=
  fun _ => {| chunks := []; settled := Rejected cause |}.

(** A request on the sample platform, with an empty process environment
    and no progress token. *)
Definition sampleCall (run : Subprocess) (args : JsValue) : Call :=
  {| call_env := ∅; call_run := run; call_clock := sampleClock;
     call_args := args; call_context := defaultContext |}.

(** * Properties *)

(** ** [JSON.parse] on sample texts *)

Example parse_object :
  Json.parse (Json.quoted "{'result':'X', 'n': [1, -2.50e3, true, null], 's':'a\nb'} ")
  = Some (JObj [("result", JStr "X");
                ("n", JArr [JNum 1 0; JNum (-250) 1; JBool true; JNull]);
                ("s", JStr ("a" +:+ Js.LF +:+ "b"))]).
Proof. reflexivity. Qed.

Example parse_empty : Json.parse "" = None.
Proof. reflexivity. Qed.

Example parse_garbage :
  Json.parse "Error: not logged in" = None /\ Json.parse "[1,]" = None /\
  Json.parse "01" = None /\ Json.parse "{} x" = None.
Proof. repeat split; reflexivity. Qed.

(** ** [JSON.parse] never runs out of fuel *)
Module ParseFuel.
Import Json.

Lemma skipWhitespace_length (s : string) :
  (String.length (skipWhitespace s) <= String.length s)%nat.
Proof.
  induction s as [|c s IH]; simpl; [lia |].
  destruct (isWhitespace c); simpl; lia.
Qed.

Lemma after_length (c : ascii) (s rest : string) :
  after c s = Some rest -> (String.length rest < String.length s)%nat.
Proof.
  destruct s as [|c' s']; simpl; [discriminate |].
  destruct (Ascii.eqb c c'); [|discriminate]. intros [= <-]. lia.
Qed.

Lemma after_skip_length (c : ascii) (s rest : string) :
  after c (skipWhitespace s) = Some rest ->
  (String.length rest < String.length s)%nat.
Proof.
  intros Ha. apply after_length in Ha.
  pose proof (skipWhitespace_length s). lia.
Qed.

Lemma stringBody_length (s body rest : string) :
  stringBody s = Some (body, rest) ->
  (String.length rest < String.length s)%nat.
Proof.
  remember (String.length s) as n eqn:Hn. revert s body rest Hn.
  induction n as [n IH] using lt_wf_ind. intros s body rest Hn.
  assert (forall r b t ch,
            (String.length r < n)%nat ->
            consChar ch (stringBody r) = Some (b, t) ->
            (String.length t < n)%nat) as Hstep.
  { intros r b t ch Hr Hc.
    destruct (stringBody r) as [[b' t']|] eqn:Hb; [|discriminate].
    injection Hc as <- <-.
    pose proof (IH (String.length r) Hr r b' t' eq_refl Hb). lia. }
  destruct s as [|c s']; simpl; [discriminate |]. simpl in Hn.
  destruct (Ascii.eqb c Js.DQ); [intros [= <- <-]; lia |].
  destruct (Ascii.eqb c "\"%char).
  - destruct s' as [|e r]; [discriminate |]. simpl in Hn.
    destruct (Ascii.eqb e "u"%char).
    + destruct r as [|h1 [|h2 [|h3 [|h4 r']]]]; try discriminate.
      simpl in Hn. destruct (hex4 h1 h2 h3 h4); [|discriminate].
      apply Hstep. lia.
    + destruct (simpleEscape e); [|discriminate]. apply Hstep. lia.
  - destruct (N_of_ascii c <? 32)%N; [discriminate |]. apply Hstep. lia.
Qed.

Lemma digits_length (acc : Z) (count : nat) (s : string) :
  (String.length (snd (digits acc count s)) <= String.length s)%nat.
Proof.
  revert acc count. induction s as [|c s IH]; intros acc count; simpl; [lia |].
  destruct (digit c) as [d|]; simpl; [|lia].
  specialize (IH (acc * 10 + d)%Z (S count)). lia.
Qed.

Lemma integerPart_length (s : string) (n : Z) (rest : string) :
  integerPart s = Some (n, rest) ->
  (String.length rest <= String.length s)%nat.
Proof.
  unfold integerPart. destruct (after "0" s) as [r|] eqn:Ha.
  - intros [= <- <-]. apply after_length in Ha. lia.
  - pose proof (digits_length 0 0 s) as Hd.
    destruct (digits 0 0 s) as [[m k] r]. destruct k; [discriminate |].
    now intros [= <- <-].
Qed.

Lemma fractionPart_length (n : Z) (s : string) (m k : Z) (rest : string) :
  fractionPart n s = Some (m, k, rest) ->
  (String.length rest <= String.length s)%nat.
Proof.
  unfold fractionPart. destruct (after "." s) as [s'|] eqn:Ha.
  - pose proof (digits_length n 0 s') as Hd. apply after_length in Ha.
    destruct (digits n 0 s') as [[m' k'] r]. destruct k'; [discriminate |].
    intros [= <- <- <-]. simpl in Hd. lia.
  - now intros [= <- <- <-].
Qed.

Lemma signPart_length (s : string) :
  (String.length (snd (signPart s)) <= String.length s)%nat.
Proof.
  unfold signPart.
  destruct (after "-" s) as [r|] eqn:Hm; [apply after_length in Hm; simpl; lia |].
  destruct (after "+" s) as [r|] eqn:Hp; [apply after_length in Hp; simpl; lia |].
  simpl. lia.
Qed.

Lemma exponentPart_length (s : string) (x : Z) (rest : string) :
  exponentPart s = Some (x, rest) ->
  (String.length rest <= String.length s)%nat.
Proof.
  assert (forall s', (String.length s' < String.length s)%nat ->
            (let '(sign, s'') := signPart s' in
             match digits 0 0 s'' with
             | (_, O, _) => None
             | (x, S _, rest) => Some (sign * x, rest)
             end)%Z = Some (x, rest) ->
            (String.length rest <= String.length s)%nat) as Hexp.
  { intros s' Hs'. pose proof (signPart_length s') as Hsign.
    destruct (signPart s') as [sign s'']. simpl in Hsign.
    pose proof (digits_length 0 0 s'') as Hd.
    destruct (digits 0 0 s'') as [[m k] r]. destruct k; [discriminate |].
    intros [= <- <-]. simpl in Hd. lia. }
  unfold exponentPart.
  destruct (after "e" s) as [s'|] eqn:He.
  - apply Hexp. now apply after_length in He.
  - destruct (after "E" s) as [s'|] eqn:HE.
    + apply Hexp. now apply after_length in HE.
    + now intros [= <- <-].
Qed.

Lemma number_length (s : string) (v : JsValue) (rest : string) :
  number s = Some (v, rest) -> (String.length rest <= String.length s)%nat.
Proof.
  unfold number.
  assert (forall sign s1, (String.length s1 <= String.length s)%nat ->
            match integerPart s1 with
            | Some (n, s2) =>
                match fractionPart n s2 with
                | Some (m, k, s3) =>
                    match exponentPart s3 with
                    | Some (x, s4) => Some (JNum (sign * m) (x - k), s4)
                    | None => None
                    end
                | None => None
                end
            | None => None
            end = Some (v, rest) ->
            (String.length rest <= String.length s)%nat) as Hnum.
  { intros sign s1 Hs1.
    destruct (integerPart s1) as [[n s2]|] eqn:Hi; [|discriminate].
    destruct (fractionPart n s2) as [[[m k] s3]|] eqn:Hf; [|discriminate].
    destruct (exponentPart s3) as [[x s4]|] eqn:He; [|discriminate].
    intros [= <- <-].
    apply integerPart_length in Hi. apply fractionPart_length in Hf.
    apply exponentPart_length in He. lia. }
  destruct (after "-" s) as [r|] eqn:Hm.
  - apply Hnum. apply after_length in Hm. lia.
  - apply Hnum. lia.
Qed.

Lemma keyword_length (w s rest : string) :
  keyword w s = Some rest -> (String.length rest <= String.length s)%nat.
Proof.
  revert s. induction w as [|a w IH]; intros s; simpl.
  - now intros [= <-].
  - destruct (after a s) as [s'|] eqn:Ha; [|discriminate].
    intros Hk. apply IH in Hk. apply after_length in Ha. lia.
Qed.

Lemma scalar_length (s : string) (v : JsValue) (rest : string) :
  scalar s = Some (v, rest) -> (String.length rest <= String.length s)%nat.
Proof.
  unfold scalar.
  destruct (keyword "true" s) as [r|] eqn:Ht;
    [intros [= <- <-]; now apply keyword_length in Ht |].
  destruct (keyword "false" s) as [r|] eqn:Hf;
    [intros [= <- <-]; now apply keyword_length in Hf |].
  destruct (keyword "null" s) as [r|] eqn:Hn;
    [intros [= <- <-]; now apply keyword_length in Hn |].
  apply number_length.
Qed.

(** What is left after a value, a list of elements or a list of members
    is no longer than the input. *)
Lemma value_length (fuel : nat) :
  (forall s v rest, value fuel s = Some (v, rest) ->
     (String.length rest <= String.length s)%nat) /\
  (forall s vs rest, elements fuel s = Some (vs, rest) ->
     (String.length rest <= String.length s)%nat) /\
  (forall s ms rest, members fuel s = Some (ms, rest) ->
     (String.length rest <= String.length s)%nat).
Proof.
  induction fuel as [|fuel (IHv & IHe & IHm)]; [repeat split; discriminate |].
  repeat split.
  - intros s v rest. simpl.
    pose proof (skipWhitespace_length s) as Hws.
    destruct (after Js.DQ (skipWhitespace s)) as [r0|] eqn:Hq.
    { destruct (stringBody r0) as [[str r]|] eqn:Hb; [|discriminate].
      intros [= <- <-]. apply after_length in Hq.
      apply stringBody_length in Hb. lia. }
    destruct (after "[" (skipWhitespace s)) as [r0|] eqn:Ha.
    { apply after_length in Ha.
      destruct (after "]" (skipWhitespace r0)) as [r|] eqn:Hc.
      - intros [= <- <-]. apply after_skip_length in Hc. lia.
      - destruct (elements fuel r0) as [[items r]|] eqn:He; [|discriminate].
        intros [= <- <-]. apply IHe in He. lia. }
    destruct (after "{" (skipWhitespace s)) as [r0|] eqn:Ho.
    { apply after_length in Ho.
      destruct (after "}" (skipWhitespace r0)) as [r|] eqn:Hc.
      - intros [= <- <-]. apply after_skip_length in Hc. lia.
      - destruct (members fuel r0) as [[ms r]|] eqn:He; [|discriminate].
        intros [= <- <-]. apply IHm in He. lia. }
    intros Hs. apply scalar_length in Hs. lia.
  - intros s vs rest. simpl.
    destruct (value fuel s) as [[v r]|] eqn:Hv; [|discriminate].
    apply IHv in Hv.
    destruct (after "," (skipWhitespace r)) as [r'|] eqn:Hc.
    { apply after_skip_length in Hc.
      destruct (elements fuel r') as [[vs' r'']|] eqn:He; [|discriminate].
      intros [= <- <-]. apply IHe in He. lia. }
    destruct (after "]" (skipWhitespace r)) as [r'|] eqn:Hb; [|discriminate].
    intros [= <- <-]. apply after_skip_length in Hb. lia.
  - intros s ms rest. simpl.
    destruct (after Js.DQ (skipWhitespace s)) as [r0|] eqn:Hq; [|discriminate].
    apply after_skip_length in Hq.
    destruct (stringBody r0) as [[k r1]|] eqn:Hk; [|discriminate].
    apply stringBody_length in Hk.
    destruct (after ":" (skipWhitespace r1)) as [r2|] eqn:Hc; [|discriminate].
    apply after_skip_length in Hc.
    destruct (value fuel r2) as [[v r3]|] eqn:Hv; [|discriminate].
    apply IHv in Hv.
    destruct (after "," (skipWhitespace r3)) as [r4|] eqn:Hcomma.
    { apply after_skip_length in Hcomma.
      destruct (members fuel r4) as [[ms' r5]|] eqn:Hm; [|discriminate].
      intros [= <- <-]. apply IHm in Hm. lia. }
    destruct (after "}" (skipWhitespace r3)) as [r4|] eqn:Hb; [|discriminate].
    intros [= <- <-]. apply after_skip_length in Hb. lia.
Qed.

(** Above two units per character, more fuel changes nothing. *)
Lemma fuel_stable (fuel : nat) :
  (forall s more, (2 * String.length s + 1 <= fuel)%nat -> (fuel <= more)%nat ->
     value more s = value fuel s) /\
  (forall s more, (2 * String.length s + 2 <= fuel)%nat -> (fuel <= more)%nat ->
     elements more s = elements fuel s) /\
  (forall s more, (2 * String.length s + 2 <= fuel)%nat -> (fuel <= more)%nat ->
     members more s = members fuel s).
Proof.
  induction fuel as [|fuel (IHv & IHe & IHm)]; [repeat split; intros; lia |].
  repeat split.
  - intros s [|more] Hfuel Hmore; [lia |]. simpl.
    pose proof (skipWhitespace_length s) as Hws.
    destruct (after Js.DQ (skipWhitespace s)) as [r0|] eqn:Hq; [reflexivity |].
    destruct (after "[" (skipWhitespace s)) as [r0|] eqn:Ha.
    { apply after_length in Ha.
      destruct (after "]" (skipWhitespace r0)); [reflexivity |].
      rewrite (IHe r0 more) by lia. reflexivity. }
    destruct (after "{" (skipWhitespace s)) as [r0|] eqn:Ho; [|reflexivity].
    apply after_length in Ho.
    destruct (after "}" (skipWhitespace r0)); [reflexivity |].
    rewrite (IHm r0 more) by lia. reflexivity.
  - intros s [|more] Hfuel Hmore; [lia |]. simpl.
    rewrite (IHv s more) by lia.
    destruct (value fuel s) as [[v r]|] eqn:Hv; [|reflexivity].
    apply (proj1 (value_length fuel)) in Hv.
    destruct (after "," (skipWhitespace r)) as [r'|] eqn:Hc; [|reflexivity].
    apply after_skip_length in Hc.
    rewrite (IHe r' more) by lia. reflexivity.
  - intros s [|more] Hfuel Hmore; [lia |]. simpl.
    destruct (after Js.DQ (skipWhitespace s)) as [r0|] eqn:Hq; [|reflexivity].
    apply after_skip_length in Hq.
    destruct (stringBody r0) as [[k r1]|] eqn:Hk; [|reflexivity].
    apply stringBody_length in Hk.
    destruct (after ":" (skipWhitespace r1)) as [r2|] eqn:Hc; [|reflexivity].
    apply after_skip_length in Hc.
    rewrite (IHv r2 more) by lia.
    destruct (value fuel r2) as [[v r3]|] eqn:Hv; [|reflexivity].
    apply (proj1 (value_length fuel)) in Hv.
    destruct (after "," (skipWhitespace r3)) as [r4|] eqn:Hcomma; [|reflexivity].
    apply after_skip_length in Hcomma.
    rewrite (IHm r4 more) by lia. reflexivity.
Qed.

(** The fuel [parse] provides is enough: no larger amount would give a
    different result. *)
Lemma value_fuel (text : string) (more : nat) :
  (2 * String.length text + 2 <= more)%nat ->
  value more text = value (2 * String.length text + 2) text.
Proof.
  intros Hmore.
  apply (proj1 (fuel_stable (2 * String.length text + 2))); lia.
Qed.

End ParseFuel.

(** ** Strings *)

Lemma length_append (s1 s2 : string) :
  String.length (s1 +:+ s2) = (String.length s1 + String.length s2)%nat.
Proof. induction s1 as [|c s1 IH]; simpl; [reflexivity | now rewrite IH]. Qed.

Lemma length_slice0 (n : nat) (s : string) :
  (String.length (Js.slice0 n s) <= n)%nat.
Proof.
  unfold Js.slice0. revert s.
  induction n as [|n IH]; intros [|c s]; simpl; try lia.
  specialize (IH s). lia.
Qed.

(** [s.slice(0, n)] is the beginning of [s]. *)
Lemma slice0_prefix (n : nat) (s : string) :
  exists rest, s = Js.slice0 n s +:+ rest.
Proof.
  unfold Js.slice0. revert s.
  induction n as [|n IH]; intros [|c s]; simpl.
  - now exists "".
  - now exists (String c s).
  - now exists "".
  - destruct (IH s) as [rest Hrest]. exists rest.
    change (String c s = String c (String.substring 0 n s +:+ rest)).
    congruence.
Qed.

Lemma truthy_nonempty (s : string) : Js.truthy s = true <-> s <> "".
Proof. destruct s; simpl; split; (congruence || discriminate || eauto). Qed.

Lemma length_join (sep : string) (parts : list string) :
  String.length (Js.join sep parts) =
  (totalLength parts + String.length sep * (length parts - 1))%nat.
Proof.
  unfold Js.join.
  induction parts as [|s [|s' rest] IH].
  - simpl. lia.
  - simpl. lia.
  - change (String.concat sep (s :: s' :: rest))
      with (s +:+ sep +:+ String.concat sep (s' :: rest)).
    rewrite !length_append, IH. simpl totalLength. simpl length. lia.
Qed.

(** ** The context synthesizer *)

Lemma lastTurns_length {A} (n : nat) (l : list A) :
  (length (lastTurns n l) <= n)%nat.
Proof. unfold lastTurns. rewrite length_skipn. lia. Qed.

Lemma lastTurns_suffix {A} (n : nat) (l : list A) :
  l = firstn (length l - n) l ++ lastTurns n l.
Proof. unfold lastTurns. now rewrite firstn_skipn. Qed.

(** Turns older than the window do not matter. *)
Lemma lastTurns_app {A} (n : nat) (older recent : list A) :
  length recent = n -> lastTurns n (older ++ recent) = recent.
Proof.
  intros Hn. unfold lastTurns. rewrite length_app, Hn.
  replace (length older + n - n)%nat with (length older + 0)%nat by lia.
  rewrite skipn_app, Nat.add_0_r, skipn_all.
  replace (length older - length older)%nat with 0%nat by lia.
  reflexivity.
Qed.

(** What one turn contributes: a fixed frame around the beginning of the
    response, at most 200 characters of it for a response that looks like
    code and at most 100 otherwise. *)
Lemma contextLine_shape (turn : ConversationTurn.t) :
  let response := ConversationTurn.response turn in
  exists cut rest,
    response = cut +:+ rest /\
    ((Js.includes "function" response || Js.includes "def " response = true /\
      (String.length cut <= 200)%nat /\
      contextLine turn = "Previous code context: " +:+ cut +:+ "...") \/
     (Js.includes "function" response || Js.includes "def " response = false /\
      (String.length cut <= 100)%nat /\
      contextLine turn =
        "Context: " +:+ ConversationTurn.prompt turn +:+ " -> " +:+ cut +:+ "...")).
Proof.
  intros response. unfold contextLine. fold response.
  destruct (Js.includes "function" response || Js.includes "def " response).
  - destruct (slice0_prefix 200 response) as [rest Hrest].
    exists (Js.slice0 200 response), rest.
    split; [exact Hrest | left]. auto using length_slice0.
  - destruct (slice0_prefix 100 response) as [rest Hrest].
    exists (Js.slice0 100 response), rest.
    split; [exact Hrest | right]. auto using length_slice0.
Qed.

Lemma contextLine_length (turn : ConversationTurn.t) :
  (String.length (contextLine turn)
   <= 226 + String.length (ConversationTurn.prompt turn))%nat.
Proof.
  unfold contextLine.
  destruct (_ || _); rewrite !length_append; simpl String.length.
  - pose proof (length_slice0 200 (ConversationTurn.response turn)). lia.
  - pose proof (length_slice0 100 (ConversationTurn.response turn)). lia.
Qed.

Lemma contextLines_length (turns : list ConversationTurn.t) :
  (totalLength (List.map contextLine turns)
   <= 226 * length turns + promptsLength turns)%nat.
Proof.
  unfold promptsLength.
  induction turns as [|t turns IH]; simpl; [lia |].
  pose proof (contextLine_length t). lia.
Qed.

Lemma buildEnhancedPrompt_recent (turns : list ConversationTurn.t)
    (newPrompt : string) :
  turns <> [] ->
  buildEnhancedPrompt turns newPrompt =
  Js.join Js.LF (List.map contextLine (lastTurns 2 turns)) +:+
  Js.LF +:+ Js.LF +:+ "Task: " +:+ newPrompt.
Proof. destruct turns; [congruence | reflexivity]. Qed.

(** The turns before the last two do not matter. *)
Lemma buildEnhancedPrompt_window (older : list ConversationTurn.t)
    (t1 t2 : ConversationTurn.t) (newPrompt : string) :
  buildEnhancedPrompt (older ++ [t1; t2]) newPrompt
  = buildEnhancedPrompt [t1; t2] newPrompt.
Proof.
  rewrite !buildEnhancedPrompt_recent by (destruct older; discriminate).
  now rewrite (lastTurns_app 2 older [t1; t2]).
Qed.

Lemma buildEnhancedPrompt_length (turns : list ConversationTurn.t)
    (newPrompt : string) :
  turns <> [] ->
  (String.length (buildEnhancedPrompt turns newPrompt)
   <= 461 + promptsLength (lastTurns 2 turns) + String.length newPrompt)%nat.
Proof.
  intros Hne. rewrite buildEnhancedPrompt_recent by exact Hne.
  rewrite !length_append, length_join, length_map.
  pose proof (lastTurns_length 2 turns) as Hk.
  pose proof (contextLines_length (lastTurns 2 turns)) as Hl.
  change (String.length Js.LF) with 1%nat.
  change (String.length "Task: ") with 6%nat.
  lia.
Qed.

(** ** The request schemas *)

Lemma map_inr {A B} (f : A -> B) (r : Zod.Result A) (b : B) :
  Zod.map f r = inr b -> exists a, r = inr a /\ b = f a.
Proof. destruct r as [issues|a]; simpl; [discriminate |]. intros [= <-]. eauto. Qed.

Lemma both_inr {A B} (ra : Zod.Result A) (rb : Zod.Result B) (p : A * B) :
  Zod.both ra rb = inr p -> ra = inr (fst p) /\ rb = inr (snd p).
Proof.
  destruct ra as [ia|a], rb as [ib|b]; simpl; try discriminate.
  intros [= <-]. auto.
Qed.

Lemma optional_inr {A} (schema : list string -> JsValue -> Zod.Result A)
    (path : list string) (v : option JsValue) (o : option A) :
  Zod.optional schema path v = inr o ->
  match v with
  | None => o = None
  | Some x => exists a, schema path x = inr a /\ o = Some a
  end.
Proof.
  destruct v as [x|]; simpl.
  - intros Hm. apply map_inr in Hm. exact Hm.
  - now intros [= <-].
Qed.

(** An unconstrained optional string property is read as it is. *)
Lemma optional_string (path : list string) (v : option JsValue)
    (o : option string) :
  Zod.optional (Zod.string_ []) path v = inr o -> o = None \/ v = (JStr <$> o).
Proof.
  intros Ho. apply optional_inr in Ho. destruct v as [x|]; [|now left].
  destruct Ho as (s & Hs & ->). right.
  destruct x; try discriminate. simpl in Hs. now injection Hs as ->.
Qed.

Lemma sessionId_checks (s r : string) :
  Zod.string_
    [Zod.max 256 "Session ID must be 256 characters or fewer" ["sessionId"];
     Zod.regex sessionIdPattern
       "Session ID can only contain letters, numbers, hyphens, and underscores"
       ["sessionId"]] ["sessionId"] (JStr s) = inr r ->
  r = s /\ validSessionId s.
Proof.
  unfold Zod.string_, Zod.max, Zod.regex, validSessionId. simpl.
  destruct (decide (String.length s <= 256)%nat) as [Hlen|Hlen];
    destruct (sessionIdPattern s); simpl; try discriminate.
  intros [= <-]. auto.
Qed.

(** The pattern [/^[a-zA-Z0-9_-]+$/], character by character. *)
Lemma sessionIdPattern_spec (s : string) :
  sessionIdPattern s = true <->
  s <> "" /\ allChars isSessionIdChar s = true.
Proof.
  unfold sessionIdPattern. rewrite andb_true_iff, truthy_nonempty. reflexivity.
Qed.

Lemma isSessionIdChar_spec (c : ascii) :
  isSessionIdChar c = true <->
  let n := N_of_ascii c in
  (97 <= n <= 122 \/ 65 <= n <= 90 \/ 48 <= n <= 57 \/ n = 95 \/ n = 45)%N.
Proof.
  unfold isSessionIdChar. cbv zeta.
  rewrite !orb_true_iff, !andb_true_iff, !N.leb_le, !N.eqb_eq. tauto.
Qed.

Section SchemaFacts.
Context `{platform : Platform}.

(** A request the execute-assistant schema accepts is an object, and each
    of its properties passed the schema of that property. *)
Lemma ClaudeToolSchema_inr (args : JsValue) (a : ClaudeToolArgs.t) :
  ClaudeToolSchema args = inr a ->
  exists props,
    args = JObj props /\
    Json.member "prompt" props = Some (JStr (ClaudeToolArgs.prompt a)) /\
    match Json.member "sessionId" props with
    | None => ClaudeToolArgs.sessionId a = None
    | Some v =>
        exists s, v = JStr s /\ validSessionId s /\
                  ClaudeToolArgs.sessionId a = Some s
    end /\
    Zod.field props Zod.boolean "resetSession"
      = inr (ClaudeToolArgs.resetSession a) /\
    Zod.field props (Zod.string_ []) "model" = inr (ClaudeToolArgs.model a) /\
    Zod.field props (Zod.string_ []) "workingDirectory"
      = inr (ClaudeToolArgs.workingDirectory a) /\
    Zod.field props (Zod.string_ []) "allowedTools"
      = inr (ClaudeToolArgs.allowedTools a) /\
    Zod.field props Zod.boolean "dangerouslySkipPermissions"
      = inr (ClaudeToolArgs.dangerouslySkipPermissions a) /\
    Zod.field props (Zod.enum ["text"; "json"; "stream-json"]) "outputFormat"
      = inr (ClaudeToolArgs.outputFormat a) /\
    Zod.field props Zod.positiveInt "maxTurns"
      = inr (ClaudeToolArgs.maxTurns a).
Proof.
  unfold ClaudeToolSchema, object. destruct args as [| | | | |props];
    try discriminate.
  intros Hm. exists props. split; [reflexivity |].
  apply map_inr in Hm as (tuple & Hb & ->).
  destruct tuple as (p & sid & rs & m & wd & at_ & skip & fmt & mt & url & fb).
  repeat (apply both_inr in Hb as [?Hf Hb]); simpl in *.
  repeat split; try assumption.
  - destruct (Json.member "prompt" props) as [v|]; [|discriminate].
    destruct v; try discriminate. simpl in Hf. now injection Hf as ->.
  - unfold Zod.field in Hf0. apply optional_inr in Hf0.
    destruct (Json.member "sessionId" props) as [v|]; [|assumption].
    destruct Hf0 as (s & Hs & ->).
    destruct v; try discriminate.
    apply sessionId_checks in Hs as [-> Hv]. eauto.
Qed.

Lemma ClaudeToolSchema_sessionId (args : JsValue) (a : ClaudeToolArgs.t)
    (s : string) :
  ClaudeToolSchema args = inr a -> ClaudeToolArgs.sessionId a = Some s ->
  validSessionId s.
Proof.
  intros Ha Hs. apply ClaudeToolSchema_inr in Ha as (props & _ & _ & Hsid & _).
  destruct (Json.member "sessionId" props) as [v|]; [|congruence].
  destruct Hsid as (s' & _ & Hv & Hs'). congruence.
Qed.

Lemma ClaudeToolSchema_outputFormat (args : JsValue) (a : ClaudeToolArgs.t)
    (f : string) :
  ClaudeToolSchema args = inr a -> ClaudeToolArgs.outputFormat a = Some f ->
  f = "text" \/ f = "json" \/ f = "stream-json".
Proof.
  intros Ha Hf.
  apply ClaudeToolSchema_inr in Ha as (props & _ & _ & _ & _ & _ & _ & _ & _ & Hfmt & _).
  unfold Zod.field in Hfmt. apply optional_inr in Hfmt.
  destruct (Json.member "outputFormat" props) as [v|]; [|congruence].
  destruct Hfmt as (s & Hs & Hs'). assert (s = f) as -> by congruence.
  unfold Zod.enum in Hs. destruct v; try discriminate.
  destruct (existsb _ _) eqn:Hin; [|discriminate]. injection Hs as ->.
  simpl in Hin. rewrite !orb_true_iff, !String.eqb_eq in Hin.
  intuition congruence.
Qed.

(** A request the review schema accepts is an object whose [prompt] and
    [uncommitted] properties, when present, are a string and a boolean. *)
Lemma ReviewToolSchema_inr (args : JsValue) (a : ReviewToolArgs.t) :
  ReviewToolSchema args = inr a ->
  exists props,
    args = JObj props /\
    (ReviewToolArgs.prompt a = None \/
     Json.member "prompt" props = (JStr <$> ReviewToolArgs.prompt a)) /\
    Zod.field props Zod.boolean "uncommitted"
      = inr (ReviewToolArgs.uncommitted a).
Proof.
  unfold ReviewToolSchema, object. destruct args as [| | | | |props];
    try discriminate.
  intros Hm. exists props. split; [reflexivity |].
  apply map_inr in Hm as (tuple & Hb & ->).
  destruct tuple as (p & u & b & c & t & m & wd).
  repeat (apply both_inr in Hb as [?Hf Hb]); simpl in *.
  split; [|assumption].
  unfold Zod.field in Hf. now apply optional_string in Hf.
Qed.

End SchemaFacts.

(** ** The execute-assistant handler: session block and arguments *)

Lemma spawned_invoke (run : Subprocess) (started : string) (inv : Invocation) :
  spawned (invoke run started inv) = [inv].
Proof.
  unfold invoke, spawned. simpl. f_equal.
  destruct (streaming inv); [|reflexivity].
  induction (chunks (run inv)) as [|c cs IH]; [reflexivity | exact IH].
Qed.

Lemma resumeMode_handle (stage : SessionStage) :
  resumeMode stage = true <->
  exists handle, resumeHandle stage = Some handle.
Proof.
  unfold resumeMode. destruct (resumeHandle stage) as [h|].
  - split; eauto.
  - split; [discriminate | intros [h Hh]; discriminate].
Qed.

Section HandlerFacts.
Context `{platform : Platform} {S : Type} `{store : SessionStorage S}.
Variable env : gmap string string.

(** Without a session id the session block does nothing. *)
Lemma sessionStage_no_session (now : Z) (a : ClaudeToolArgs.t) (st : S) :
  ClaudeToolArgs.sessionId a = None ->
  sessionStage now a st =
  ({| useResume := false; claudeSessionId := None;
      enhancedPrompt := ClaudeToolArgs.prompt a |}, st).
Proof. intros Hs. unfold sessionStage. now rewrite Hs. Qed.

(** With a session id, the handle is looked up in the ensured and reset
    store, and its truthiness decides [useResume]. *)
Lemma sessionStage_lookup (now : Z) (a : ClaudeToolArgs.t) (sid : string)
    (st : S) :
  ClaudeToolArgs.sessionId a = Some sid -> sid <> "" ->
  let stage := fst (sessionStage now a st) in
  let found := getClaudeSessionId sid (ensuredAndReset now a sid st) in
  claudeSessionId stage = found /\
  useResume stage = Js.truthyOpt found /\
  resumeHandle stage = Js.or found None.
Proof.
  intros Hs Hne. unfold sessionStage, ensuredAndReset, resumeHandle.
  rewrite Hs. apply truthy_nonempty in Hne. rewrite Hne. cbv zeta.
  destruct (Js.truthyOpt (getClaudeSessionId sid _)) eqn:Ht.
  - simpl. auto.
  - destruct (getSession now sid _) as [session st']. simpl.
    unfold Js.or. rewrite Ht. auto.
Qed.

(** In resume mode the prompt is sent as it came. *)
Lemma sessionStage_resume_prompt (now : Z) (a : ClaudeToolArgs.t) (st : S) :
  useResume (fst (sessionStage now a st)) = true ->
  enhancedPrompt (fst (sessionStage now a st)) = ClaudeToolArgs.prompt a.
Proof.
  unfold sessionStage.
  destruct (ClaudeToolArgs.sessionId a) as [sid|]; [|discriminate].
  destruct (Js.truthy sid); [|discriminate]. cbv zeta.
  destruct (Js.truthyOpt (getClaudeSessionId sid _)); [reflexivity |].
  destruct (getSession now sid _) as [session st']. discriminate.
Qed.

(** The prompt sent is the caller's, or the caller's behind a context
    synthesized from the turns of the session. *)
Lemma sessionStage_prompt (now : Z) (a : ClaudeToolArgs.t) (st : S) :
  let sent := enhancedPrompt (fst (sessionStage now a st)) in
  sent = ClaudeToolArgs.prompt a \/
  exists turns, turns <> [] /\
    sent = buildEnhancedPrompt turns (ClaudeToolArgs.prompt a).
Proof.
  unfold sessionStage.
  destruct (ClaudeToolArgs.sessionId a) as [sid|]; [|now left].
  destruct (Js.truthy sid); [|now left]. cbv zeta.
  destruct (Js.truthyOpt (getClaudeSessionId sid _)); [now left |].
  destruct (getSession now sid _) as [[session|] st']; [|now left].
  simpl. destruct (Session.turns session) as [|t ts] eqn:Ht; [now left |].
  right. exists (t :: ts). split; [discriminate | reflexivity].
Qed.

(** A call that passes validation starts the subprocess exactly once,
    with the arguments built from the session block. *)
Lemma execute_spawned (run : Subprocess) (clock : Clock) (args : JsValue)
    (context : ToolHandlerContext) (st : S) (a : ClaudeToolArgs.t) :
  ClaudeToolSchema args = inr a ->
  spawned (events (execute env run clock args context st)) =
  [invocation a context
     (cmdArgs a (fst (sessionStage (atStart clock) a st))
        (selectModel env (ClaudeToolArgs.model a)))].
Proof.
  intros Ha. unfold execute. rewrite Ha.
  destruct (sessionStage (atStart clock) a st) as [stage st']. simpl fst.
  destruct (settled _) as [result|cause]; [|apply spawned_invoke].
  destruct (parseOutput result); apply spawned_invoke.
Qed.

(** A call that fails validation starts nothing and leaves the store as
    it was. *)
Lemma execute_rejected (run : Subprocess) (clock : Clock) (args : JsValue)
    (context : ToolHandlerContext) (st : S) (issues : list Zod.Issue) :
  ClaudeToolSchema args = inl issues ->
  execute env run clock args context st =
  {| storage := st; events := [];
     completion :=
       Thrown (ValidationError TOOLS.CLAUDE (ZodErrorMessage issues)) |}.
Proof. intros Ha. unfold execute. now rewrite Ha. Qed.

Lemma cmdArgs_fresh (a : ClaudeToolArgs.t) (stage : SessionStage)
    (selectedModel : string) :
  resumeMode stage = false ->
  ClaudeToolArgs.outputFormat a = None ->
  ClaudeToolArgs.maxTurns a = None ->
  ClaudeToolArgs.dangerouslySkipPermissions a = None ->
  ClaudeToolArgs.allowedTools a = None ->
  ClaudeToolArgs.workingDirectory a = None ->
  cmdArgs a stage selectedModel =
  ["-p"; enhancedPrompt stage; "--model"; selectedModel;
   "--output-format"; "json"].
Proof.
  unfold resumeMode, cmdArgs. intros Hm -> -> -> -> ->.
  destruct (resumeHandle stage); [discriminate | reflexivity].
Qed.

Lemma cmdArgs_resume (a : ClaudeToolArgs.t) (stage : SessionStage)
    (selectedModel handle format : string) :
  resumeHandle stage = Some handle ->
  Js.orDefault (ClaudeToolArgs.outputFormat a) "json" = format ->
  cmdArgs a stage selectedModel =
  ["-p"; enhancedPrompt stage; "--resume"; handle; "--model"; selectedModel;
   "--output-format"; format] ++
  pushOpt "--cwd" (ClaudeToolArgs.workingDirectory a).
Proof.
  unfold cmdArgs. intros -> <-.
  destruct (ClaudeToolArgs.outputFormat a) as [f|]; [|reflexivity].
  simpl. destruct (Js.truthy f); reflexivity.
Qed.

(** The three flags of a new conversation play no part in resume mode. *)
Lemma cmdArgs_resume_ignores (a a' : ClaudeToolArgs.t) (stage : SessionStage)
    (selectedModel : string) :
  resumeMode stage = true ->
  ClaudeToolArgs.outputFormat a' = ClaudeToolArgs.outputFormat a ->
  ClaudeToolArgs.workingDirectory a' = ClaudeToolArgs.workingDirectory a ->
  cmdArgs a' stage selectedModel = cmdArgs a stage selectedModel.
Proof.
  unfold resumeMode, cmdArgs. intros Hm -> ->.
  destruct (resumeHandle stage); [reflexivity | discriminate].
Qed.

End HandlerFacts.

(** ** The in-memory session store *)
Module InMemoryFacts.
Import InMemorySessionStorage.

Ltac store_cases sid st :=
  let E := fresh "E" in
  destruct (st !! sid) as [?s|] eqn:E; simpl;
  rewrite ?lookup_insert; repeat case_decide; subst;
  rewrite ?E; simpl; try congruence; try reflexivity.

Lemma handle_ensure (now : Z) (sid sid' : string) (st : t) :
  getClaudeSessionId sid' (ensureSession now sid st)
  = getClaudeSessionId sid' st.
Proof. unfold getClaudeSessionId, ensureSession. store_cases sid st. Qed.

Lemma handle_reset (sid sid' : string) (st : t) :
  getClaudeSessionId sid' (resetSession sid st)
  = if decide (sid = sid') then None else getClaudeSessionId sid' st.
Proof. unfold getClaudeSessionId, resetSession. store_cases sid st. Qed.

Lemma handle_getSession (now : Z) (sid sid' : string) (st : t) :
  getClaudeSessionId sid' (snd (getSession now sid st))
  = getClaudeSessionId sid' st.
Proof. unfold getClaudeSessionId, getSession. store_cases sid st. Qed.

Lemma handle_addTurn (now : Z) (sid sid' : string)
    (turn : ConversationTurn.t) (st : t) :
  getClaudeSessionId sid' (addTurn now sid turn st)
  = getClaudeSessionId sid' st.
Proof. unfold getClaudeSessionId, addTurn. store_cases sid st. Qed.

Lemma handle_set (sid sid' handle : string) (st : t) :
  getClaudeSessionId sid' (setClaudeSessionId sid handle st)
  = if decide (sid = sid')
    then match st !! sid with Some _ => Some handle | None => None end
    else getClaudeSessionId sid' st.
Proof. unfold getClaudeSessionId, setClaudeSessionId. store_cases sid st. Qed.

Lemma turns_ensure (now : Z) (sid sid' : string) (st : t) :
  turnsOf sid' (ensureSession now sid st) = turnsOf sid' st.
Proof. unfold turnsOf, ensureSession. store_cases sid st. Qed.

Lemma turns_reset (sid sid' : string) (st : t) :
  turnsOf sid' (resetSession sid st)
  = if decide (sid = sid') then [] else turnsOf sid' st.
Proof. unfold turnsOf, resetSession. store_cases sid st. Qed.

Lemma turns_getSession (now : Z) (sid sid' : string) (st : t) :
  turnsOf sid' (snd (getSession now sid st)) = turnsOf sid' st.
Proof. unfold turnsOf, getSession. store_cases sid st. Qed.

Lemma turns_set (sid sid' handle : string) (st : t) :
  turnsOf sid' (setClaudeSessionId sid handle st) = turnsOf sid' st.
Proof. unfold turnsOf, setClaudeSessionId. store_cases sid st. Qed.

Lemma turns_addTurn (now : Z) (sid sid' : string)
    (turn : ConversationTurn.t) (st : t) :
  turnsOf sid' (addTurn now sid turn st)
  = if decide (sid = sid') then turnsOf sid' st ++ [turn] else turnsOf sid' st.
Proof. unfold turnsOf, addTurn. store_cases sid st. Qed.

(** After [ensureSession] the session exists. *)
Lemma ensure_is_Some (now : Z) (sid : string) (st : t) :
  is_Some (ensureSession now sid st !! sid).
Proof.
  unfold ensureSession. destruct (st !! sid); rewrite lookup_insert_eq; eauto.
Qed.

Lemma reset_is_Some (sid sid' : string) (st : t) :
  is_Some (st !! sid') -> is_Some (resetSession sid st !! sid').
Proof.
  unfold resetSession. destruct (st !! sid) eqn:E; [|auto].
  rewrite lookup_insert. case_decide; eauto.
Qed.

Lemma getSession_is_Some (now : Z) (sid sid' : string) (st : t) :
  is_Some (st !! sid') -> is_Some (snd (getSession now sid st) !! sid').
Proof.
  unfold getSession. destruct (st !! sid) eqn:E; [|auto]. simpl.
  rewrite lookup_insert. case_decide; eauto.
Qed.

End InMemoryFacts.

(** ** C1: resume mode and the stored handle *)

(** For any session store: the handle is looked up after the session has
    been ensured and reset, and resume mode is selected exactly when the
    lookup finds a handle, provided what it finds is not the empty
    string. *)
Lemma resume_iff_handle {S : Type} `{store : SessionStorage S}
    (now : Z) (a : ClaudeToolArgs.t) (sid : string) (st : S) :
  ClaudeToolArgs.sessionId a = Some sid -> sid <> "" ->
  let found := getClaudeSessionId sid (ensuredAndReset now a sid st) in
  found <> Some "" ->
  (resumeMode (fst (sessionStage now a st)) = true <-> is_Some found) /\
  resumeHandle (fst (sessionStage now a st)) = found.
Proof.
  intros Hsid Hne found Hfound.
  destruct (sessionStage_lookup now a sid st Hsid Hne) as (_ & _ & Hh).
  fold found in Hh. unfold resumeMode. rewrite Hh.
  destruct found as [[|c h]|]; simpl.
  - congruence.
  - split; [split; eauto | reflexivity].
  - split; [|reflexivity].
    split; [discriminate | intros [h Hh']; discriminate].
Qed.

(** The handler keeps empty handles out of the in-memory store: every
    store it builds up from the empty one satisfies [handlesNonEmpty]. *)
Section HandleInvariant.
Import InMemoryFacts.
Context `{platform : Platform}.

Lemma handlesNonEmpty_lookup (st : gmap string Session.t) :
  handlesNonEmpty st <-> forall sid, getClaudeSessionId sid st <> Some "".
Proof.
  unfold handlesNonEmpty, map_Forall. simpl.
  unfold InMemorySessionStorage.getClaudeSessionId. split.
  - intros Hall sid. destruct (st !! sid) as [s|] eqn:Hs; [eauto | discriminate].
  - intros Hall sid s Hs. specialize (Hall sid). now rewrite Hs in Hall.
Qed.

Lemma sessionStage_handlesNonEmpty (now : Z) (a : ClaudeToolArgs.t)
    (st : gmap string Session.t) :
  handlesNonEmpty st -> handlesNonEmpty (snd (sessionStage now a st)).
Proof.
  rewrite !handlesNonEmpty_lookup. intros Hst sid'. unfold sessionStage.
  destruct (ClaudeToolArgs.sessionId a) as [sid|]; [|apply Hst].
  destruct (Js.truthy sid); [|apply Hst]. cbv zeta.
  assert (forall st' : gmap string Session.t,
            getClaudeSessionId sid' st' <> Some "" ->
            getClaudeSessionId sid'
              (if default false (ClaudeToolArgs.resetSession a)
               then resetSession sid st' else st') <> Some "") as Hreset.
  { intros st' Hst'. destruct (default false _); [|exact Hst'].
    simpl. rewrite handle_reset. case_decide; [discriminate | exact Hst']. }
  destruct (Js.truthyOpt _).
  - simpl snd. apply Hreset. simpl. rewrite handle_ensure. apply Hst.
  - destruct (getSession now sid _) as [session st'] eqn:Hget.
    simpl snd. change st' with (snd (session, st')). rewrite <- Hget.
    simpl. rewrite handle_getSession. apply Hreset.
    simpl. rewrite handle_ensure. apply Hst.
Qed.

Lemma persist_handlesNonEmpty (now : Z) (a : ClaudeToolArgs.t)
    (stage : SessionStage) (response : string) (extracted : option string)
    (st : gmap string Session.t) :
  handlesNonEmpty st ->
  handlesNonEmpty (persist now a stage response extracted st).
Proof.
  rewrite !handlesNonEmpty_lookup. intros Hst sid'. unfold persist.
  destruct (ClaudeToolArgs.sessionId a) as [sid|]; [|apply Hst].
  destruct (Js.truthy sid); [|apply Hst].
  simpl. rewrite handle_addTurn.
  destruct extracted as [y|]; [|apply Hst].
  destruct (negb (useResume stage) && Js.truthy y) eqn:Hy; [|apply Hst].
  apply andb_true_iff in Hy as [_ Hy]. apply truthy_nonempty in Hy.
  simpl. rewrite handle_set. case_decide; [|apply Hst].
  destruct (st !! sid); congruence.
Qed.

Lemma execute_handlesNonEmpty (env : gmap string string) (run : Subprocess)
    (clock : Clock) (args : JsValue) (context : ToolHandlerContext)
    (st : gmap string Session.t) :
  handlesNonEmpty st ->
  handlesNonEmpty (storage (execute env run clock args context st)).
Proof.
  intros Hst. unfold execute.
  destruct (ClaudeToolSchema args) as [issues|a]; [exact Hst |].
  pose proof (sessionStage_handlesNonEmpty (atStart clock) a st Hst) as Hst'.
  destruct (sessionStage (atStart clock) a st) as [stage st'].
  simpl in Hst'.
  destruct (settled _) as [result|cause]; [|exact Hst'].
  destruct (parseOutput result) as [response extracted|]; [|exact Hst'].
  simpl. now apply persist_handlesNonEmpty.
Qed.

Lemma Reachable_handlesNonEmpty (st : gmap string Session.t) :
  Reachable st -> handlesNonEmpty st.
Proof.
  induction 1 as [|st env run clock args context _ IH].
  - apply map_Forall_empty.
  - now apply execute_handlesNonEmpty.
Qed.

Lemma ensuredAndReset_handle (now : Z) (a : ClaudeToolArgs.t) (sid : string)
    (st : gmap string Session.t) :
  handlesNonEmpty st ->
  getClaudeSessionId sid (ensuredAndReset now a sid st) <> Some "".
Proof.
  rewrite handlesNonEmpty_lookup. intros Hst.
  unfold ensuredAndReset. destruct (default false _); simpl.
  - rewrite handle_reset. case_decide; [discriminate | congruence].
  - rewrite handle_ensure. apply Hst.
Qed.

(** On a store without empty handles, so on every reachable one, resume
    mode is selected exactly when a handle is stored at lookup time. *)
Lemma resume_iff_handle_inMemory (now : Z) (a : ClaudeToolArgs.t)
    (sid : string) (st : gmap string Session.t) :
  handlesNonEmpty st ->
  ClaudeToolArgs.sessionId a = Some sid -> sid <> "" ->
  resumeMode (fst (sessionStage now a st)) = true
  <-> is_Some (getClaudeSessionId sid (ensuredAndReset now a sid st)).
Proof.
  intros Hst Hsid Hne.
  apply (resume_iff_handle now a sid st Hsid Hne).
  now apply ensuredAndReset_handle.
Qed.

(** A reset in the same call always leads to fresh mode, whatever handle
    the session held before the call. *)
Lemma reset_selects_fresh_mode (now : Z) (a : ClaudeToolArgs.t)
    (sid : string) (st : gmap string Session.t) :
  ClaudeToolArgs.sessionId a = Some sid -> sid <> "" ->
  ClaudeToolArgs.resetSession a = Some true ->
  resumeMode (fst (sessionStage now a st)) = false.
Proof.
  intros Hsid Hne Hreset.
  destruct (sessionStage_lookup now a sid st Hsid Hne) as (_ & _ & Hh).
  unfold resumeMode. rewrite Hh. unfold ensuredAndReset. rewrite Hreset.
  simpl. rewrite handle_reset. case_decide; [reflexivity | congruence].
Qed.

End HandleInvariant.

(** C1. For a call that supplies a session id, resume mode is selected,
    and [--resume] with the handle passed to the subprocess, if and only
    if a native handle is stored for the session once the session has
    been ensured and a requested reset applied in that call; otherwise
    the call runs in fresh mode. This holds for any session store, as
    long as what it holds for the session at that point is not the empty
    string, which the handler never stores
    ([Reachable_handlesNonEmpty]). *)
Theorem C1_resume_iff_handle_after_reset
    `{platform : Platform} {S : Type} `{store : SessionStorage S}
    (env : gmap string string) (run : Subprocess) (clock : Clock)
    (args : JsValue) (context : ToolHandlerContext) (st : S)
    (a : ClaudeToolArgs.t) (sid : string) :
  ClaudeToolSchema args = inr a ->
  ClaudeToolArgs.sessionId a = Some sid ->
  let found :=
    getClaudeSessionId sid (ensuredAndReset (atStart clock) a sid st) in
  let stage := fst (sessionStage (atStart clock) a st) in
  found <> Some "" ->
  (resumeMode stage = true <-> is_Some found) /\
  exists rest,
    List.map argv (spawned (events (execute env run clock args context st)))
    = [["-p"; enhancedPrompt stage] ++
       match found with
       | Some handle => ["--resume"; handle]
       | None => []
       end ++ "--model" :: rest].
Proof.
  intros Ha Hsid found stage Hfound.
  pose proof (ClaudeToolSchema_sessionId _ _ _ Ha Hsid) as [_ Hpat].
  apply sessionIdPattern_spec in Hpat as [Hne _].
  destruct (resume_iff_handle (atStart clock) a sid st Hsid Hne Hfound)
    as [Hiff Hhandle].
  split; [exact Hiff |].
  rewrite (execute_spawned env run clock args context st a Ha).
  fold stage found in Hhandle |- *. unfold cmdArgs. rewrite Hhandle. simpl.
  destruct found; simpl; eauto.
Qed.

Lemma C1_witness :
  let a := ClaudeToolArgs.make "go on" (Some "s1") None None None None None
             None None None None in
  let resumed := JObj [("prompt", JStr "go on"); ("sessionId", JStr "s1")] in
  (resumeMode (fst (sessionStage 100 a resumableStore)) = true
   <-> is_Some (getClaudeSessionId "s1"
                  (ensuredAndReset 100 a "s1" resumableStore)))
  /\ exists rest,
       List.map argv
         (spawned (events (sampleExecute (answers "" "") resumed resumableStore)))
       = [["-p"; "go on"; "--resume"; "h1"; "--model"] ++ rest].
Proof.
  intros a resumed.
  destruct (C1_resume_iff_handle_after_reset (platform := samplePlatform) ∅
              (answers "" "") sampleClock resumed defaultContext
              resumableStore a "s1")
    as [Hiff [rest Hrest]].
  - reflexivity.
  - reflexivity.
  - vm_compute. discriminate.
  - split; [exact Hiff |]. exists rest. exact Hrest.
Defined.

(** ** C2: the argument list of fresh mode *)

(** C2, as stated, at the request [{prompt: "hi"}]: the argument list
    starts with the flag [-p], which the stated list leaves out. And at
    the request [{prompt: "What next?", sessionId: "s3"}] on a store
    that holds one turn and no handle for [s3]: what follows [-p] is not
    the task but the task behind the synthesized context. *)
Lemma C2_counterexample :
  let o := sampleExecute (answers "" "") (JObj [("prompt", JStr "hi")])
             InMemorySessionStorage.empty in
  let o' := sampleExecute (answers "" "")
              (JObj [("prompt", JStr "What next?"); ("sessionId", JStr "s3")])
              (InMemorySessionStorage.addTurn 2 "s3"
                 (ConversationTurn.make "first question" "first answer" 2)
                 InMemorySessionStorage.empty) in
  List.map argv (spawned (events o))
    = [["-p"; "hi"; "--model"; "claude-sonnet-4-6"; "--output-format"; "json"]]
  /\ List.map argv (spawned (events o))
    <> [["hi"; "--model"; "claude-sonnet-4-6"; "--output-format"; "json"]]
  /\ List.map argv (spawned (events o'))
    = [["-p";
        "Context: first question -> first answer..." +:+ Js.LF +:+ Js.LF +:+
        "Task: What next?";
        "--model"; "claude-sonnet-4-6"; "--output-format"; "json"]]
  /\ List.map argv (spawned (events o'))
    <> [["What next?"; "--model"; "claude-sonnet-4-6"; "--output-format";
         "json"]].
Proof.
  split; [reflexivity |]. split; [vm_compute; discriminate |].
  split; [reflexivity | vm_compute; discriminate].
Qed.

(** In fresh mode with a session id, the prompt sent is built from the
    turns [getSession] returns once the session has been ensured and
    reset: the task itself when there are none. *)
Lemma sessionStage_fresh_prompt {S : Type} `{store : SessionStorage S}
    (now : Z) (a : ClaudeToolArgs.t) (sid : string) (st : S) :
  ClaudeToolArgs.sessionId a = Some sid -> sid <> "" ->
  resumeMode (fst (sessionStage now a st)) = false ->
  enhancedPrompt (fst (sessionStage now a st))
  = match fst (getSession now sid (ensuredAndReset now a sid st)) with
    | Some session =>
        match Session.turns session with
        | [] => ClaudeToolArgs.prompt a
        | _ :: _ =>
            buildEnhancedPrompt (Session.turns session)
              (ClaudeToolArgs.prompt a)
        end
    | None => ClaudeToolArgs.prompt a
    end.
Proof.
  intros Hsid Hne. apply truthy_nonempty in Hne.
  unfold resumeMode, resumeHandle, sessionStage, ensuredAndReset.
  rewrite Hsid, Hne. cbv zeta.
  destruct (Js.truthyOpt (getClaudeSessionId sid _)) eqn:Hfound.
  - simpl. unfold Js.or. rewrite Hfound.
    destruct (getClaudeSessionId sid _); [discriminate | discriminate].
  - intros _. destruct (getSession now sid _) as [[session|] st']; simpl;
      [|reflexivity].
    now destruct (Session.turns session).
Qed.

(** C2, amended. In fresh mode with none of [outputFormat], [maxTurns],
    [dangerouslySkipPermissions], [allowedTools] and [workingDirectory]
    set, the subprocess is started once, with exactly the arguments
    [-p], the prompt sent, [--model], the selected model,
    [--output-format], [json]. The prompt sent is the task when the
    request has no session id, or when the session, ensured and reset as
    requested, has no prior turns; when it has prior turns the prompt
    sent is the context synthesized from the last two of them, an empty
    line, and the task behind [Task: ]. *)
Theorem C2_fresh_mode_arguments
    `{platform : Platform} {S : Type} `{store : SessionStorage S}
    (env : gmap string string) (run : Subprocess) (clock : Clock)
    (args : JsValue) (context : ToolHandlerContext) (st : S)
    (a : ClaudeToolArgs.t) :
  ClaudeToolSchema args = inr a ->
  resumeMode (fst (sessionStage (atStart clock) a st)) = false ->
  ClaudeToolArgs.outputFormat a = None ->
  ClaudeToolArgs.maxTurns a = None ->
  ClaudeToolArgs.dangerouslySkipPermissions a = None ->
  ClaudeToolArgs.allowedTools a = None ->
  ClaudeToolArgs.workingDirectory a = None ->
  let task := ClaudeToolArgs.prompt a in
  let sent :=
    match ClaudeToolArgs.sessionId a with
    | Some sid =>
        match fst (getSession (atStart clock) sid
                     (ensuredAndReset (atStart clock) a sid st)) with
        | Some session =>
            match Session.turns session with
            | [] => task
            | _ :: _ =>
                Js.join Js.LF
                  (List.map contextLine (lastTurns 2 (Session.turns session)))
                +:+ Js.LF +:+ Js.LF +:+ "Task: " +:+ task
            end
        | None => task
        end
    | None => task
    end in
  List.map argv (spawned (events (execute env run clock args context st)))
    = [["-p"; sent; "--model"; selectModel env (ClaudeToolArgs.model a);
        "--output-format"; "json"]].
Proof.
  intros Ha Hmode Hfmt Hturns Hskip Htools Hcwd task sent.
  rewrite (execute_spawned env run clock args context st a Ha). simpl.
  rewrite (cmdArgs_fresh a _ _ Hmode Hfmt Hturns Hskip Htools Hcwd).
  do 3 f_equal. unfold sent, task.
  destruct (ClaudeToolArgs.sessionId a) as [sid|] eqn:Hsid.
  - pose proof (ClaudeToolSchema_sessionId _ _ _ Ha Hsid) as [_ Hpat].
    apply sessionIdPattern_spec in Hpat as [Hne _].
    rewrite (sessionStage_fresh_prompt (atStart clock) a sid st Hsid Hne Hmode).
    destruct (fst (getSession _ _ _)) as [session|]; [|reflexivity].
    destruct (Session.turns session) as [|turn turns] eqn:Hsession;
      [reflexivity |].
    now rewrite buildEnhancedPrompt_recent.
  - now rewrite (sessionStage_no_session (atStart clock) a st Hsid).
Qed.

Lemma C2_witness :
  List.map argv
    (spawned (events
       (sampleExecute (answers "" "")
          (JObj [("prompt", JStr "hi"); ("model", JStr "claude-opus-4-6")])
          InMemorySessionStorage.empty)))
    = [["-p"; "hi"; "--model"; "claude-opus-4-6"; "--output-format"; "json"]]
  /\ List.map argv
       (spawned (events
          (sampleExecute (answers "" "")
             (JObj [("prompt", JStr "hi"); ("sessionId", JStr "s3")])
             InMemorySessionStorage.empty)))
     = [["-p"; "hi"; "--model"; "claude-sonnet-4-6"; "--output-format"; "json"]]
  /\ List.map argv
       (spawned (events
          (sampleExecute (answers "" "")
             (JObj [("prompt", JStr "What next?"); ("sessionId", JStr "s3")])
             (InMemorySessionStorage.addTurn 2 "s3"
                (ConversationTurn.make "first question" "first answer" 2)
                InMemorySessionStorage.empty))))
     = [["-p";
         "Context: first question -> first answer..." +:+ Js.LF +:+ Js.LF +:+
         "Task: What next?";
         "--model"; "claude-sonnet-4-6"; "--output-format"; "json"]].
Proof.
  split; [|split].
  - exact (C2_fresh_mode_arguments (platform := samplePlatform) ∅
             (answers "" "") sampleClock
             (JObj [("prompt", JStr "hi"); ("model", JStr "claude-opus-4-6")])
             defaultContext InMemorySessionStorage.empty
             (ClaudeToolArgs.make "hi" None None (Some "claude-opus-4-6") None
                None None None None None None)
             eq_refl eq_refl eq_refl eq_refl eq_refl eq_refl eq_refl).
  - exact (C2_fresh_mode_arguments (platform := samplePlatform) ∅
             (answers "" "") sampleClock
             (JObj [("prompt", JStr "hi"); ("sessionId", JStr "s3")])
             defaultContext InMemorySessionStorage.empty
             (ClaudeToolArgs.make "hi" (Some "s3") None None None None None
                None None None None)
             eq_refl eq_refl eq_refl eq_refl eq_refl eq_refl eq_refl).
  - exact (C2_fresh_mode_arguments (platform := samplePlatform) ∅
             (answers "" "") sampleClock
             (JObj [("prompt", JStr "What next?"); ("sessionId", JStr "s3")])
             defaultContext
             (InMemorySessionStorage.addTurn 2 "s3"
                (ConversationTurn.make "first question" "first answer" 2)
                InMemorySessionStorage.empty)
             (ClaudeToolArgs.make "What next?" (Some "s3") None None None
                None None None None None None)
             eq_refl eq_refl eq_refl eq_refl eq_refl eq_refl eq_refl).
Defined.

(** ** C3: the argument list of resume mode *)

(** C3, as stated, at the request [{prompt: "go on", sessionId: "s1"}]
    on a store that holds the handle [h1] for [s1]: the argument list
    starts with the flag [-p], which the stated list leaves out. *)
Lemma C3_counterexample :
  let o := sampleExecute (answers "" "")
             (JObj [("prompt", JStr "go on"); ("sessionId", JStr "s1")])
             resumableStore in
  InMemorySessionStorage.getClaudeSessionId "s1" resumableStore = Some "h1"
  /\ List.map argv (spawned (events o))
    = [["-p"; "go on"; "--resume"; "h1"; "--model"; "claude-sonnet-4-6";
        "--output-format"; "json"]]
  /\ List.map argv (spawned (events o))
    <> [["go on"; "--resume"; "h1"; "--model"; "claude-sonnet-4-6";
         "--output-format"; "json"]].
Proof. repeat split; try reflexivity. vm_compute. discriminate. Qed.

(** C3, amended. In resume mode the subprocess is started once, with
    exactly the arguments [-p], the task, [--resume], the stored native
    handle, [--model], the selected model, [--output-format], the
    explicit format or [json], followed by [--cwd] and the working
    directory when one is given, and by nothing else: whatever the
    request says about [maxTurns], [dangerouslySkipPermissions] and
    [allowedTools], none of their flags is passed. *)
Theorem C3_resume_mode_arguments
    `{platform : Platform} {S : Type} `{store : SessionStorage S}
    (env : gmap string string) (run : Subprocess) (clock : Clock)
    (args : JsValue) (context : ToolHandlerContext) (st : S)
    (a : ClaudeToolArgs.t) :
  ClaudeToolSchema args = inr a ->
  resumeMode (fst (sessionStage (atStart clock) a st)) = true ->
  exists sid handle,
    ClaudeToolArgs.sessionId a = Some sid /\
    getClaudeSessionId sid (ensuredAndReset (atStart clock) a sid st)
      = Some handle /\
    List.map argv (spawned (events (execute env run clock args context st)))
      = [["-p"; ClaudeToolArgs.prompt a; "--resume"; handle;
          "--model"; selectModel env (ClaudeToolArgs.model a);
          "--output-format"; default "json" (ClaudeToolArgs.outputFormat a)]
         ++ match ClaudeToolArgs.workingDirectory a with
            | Some dir => if decide (dir = "") then [] else ["--cwd"; dir]
            | None => []
            end].
Proof.
  intros Ha Hmode.
  assert (useResume (fst (sessionStage (atStart clock) a st)) = true) as Hres.
  { unfold resumeMode, resumeHandle in Hmode.
    destruct (useResume _); [reflexivity | discriminate]. }
  destruct (ClaudeToolArgs.sessionId a) as [sid|] eqn:Hsid.
  2: { rewrite (sessionStage_no_session _ a st Hsid) in Hres. discriminate. }
  pose proof (ClaudeToolSchema_sessionId _ _ _ Ha Hsid) as [_ Hpat].
  apply sessionIdPattern_spec in Hpat as [Hne _].
  destruct (sessionStage_lookup (atStart clock) a sid st Hsid Hne)
    as (_ & _ & Hh).
  apply resumeMode_handle in Hmode as [handle Hhandle].
  exists sid, handle. split; [reflexivity |]. split.
  - rewrite Hh in Hhandle. unfold Js.or in Hhandle.
    destruct (Js.truthyOpt _); congruence.
  - rewrite (execute_spawned env run clock args context st a Ha). simpl.
    rewrite (cmdArgs_resume a _ _ handle
               (default "json" (ClaudeToolArgs.outputFormat a)) Hhandle).
    + rewrite (sessionStage_resume_prompt _ a st Hres). do 2 f_equal.
      unfold pushOpt. destruct (ClaudeToolArgs.workingDirectory a) as [[|c d]|];
        reflexivity.
    + destruct (ClaudeToolArgs.outputFormat a) as [f|] eqn:Hf; [|reflexivity].
      destruct (ClaudeToolSchema_outputFormat _ _ _ Ha Hf) as [->|[->| ->]];
        reflexivity.
Qed.

Lemma C3_witness :
  let args := JObj [("prompt", JStr "go on"); ("sessionId", JStr "s1");
                    ("maxTurns", JNum 3 0); ("allowedTools", JStr "Bash");
                    ("dangerouslySkipPermissions", JBool true);
                    ("outputFormat", JStr "text");
                    ("workingDirectory", JStr "/srv/app")] in
  List.map argv
    (spawned (events (sampleExecute (answers "" "") args resumableStore)))
  = [["-p"; "go on"; "--resume"; "h1"; "--model"; "claude-sonnet-4-6";
      "--output-format"; "text"; "--cwd"; "/srv/app"]].
Proof.
  intros args.
  pose (a := ClaudeToolArgs.make "go on" (Some "s1") None None
               (Some "/srv/app") (Some "Bash") (Some true) (Some "text")
               (Some 3) None None).
  assert (ClaudeToolSchema (platform := samplePlatform) args = inr a)
    as Ha by reflexivity.
  assert (resumeMode (fst (sessionStage (atStart sampleClock) a resumableStore))
          = true) as Hmode by (vm_compute; reflexivity).
  destruct (C3_resume_mode_arguments (platform := samplePlatform) ∅
              (answers "" "") sampleClock args defaultContext resumableStore
              a Ha Hmode)
    as (sid & handle & Hsid & Hhandle & Hargv).
  injection Hsid as <-.
  vm_compute in Hhandle. injection Hhandle as <-.
  exact Hargv.
Defined.

(** ** C4: which model is passed *)

Lemma selectModel_explicit (env : gmap string string) (model : option string)
    (m : string) :
  model = Some m -> m <> "" -> selectModel env model = m.
Proof.
  intros -> Hm. unfold selectModel, Js.or. simpl.
  destruct m; [congruence | reflexivity].
Qed.

Lemma selectModel_environment (env : gmap string string)
    (model : option string) (e : string) :
  model = None \/ model = Some "" ->
  env !! CLAUDE_DEFAULT_MODEL_ENV_VAR = Some e -> e <> "" ->
  selectModel env model = e.
Proof.
  intros Hmodel He Hne. unfold selectModel, Js.or.
  destruct Hmodel as [-> | ->]; simpl; rewrite He;
    (destruct e; [congruence | reflexivity]).
Qed.

Lemma selectModel_fallback (env : gmap string string)
    (model : option string) :
  model = None \/ model = Some "" ->
  env !! CLAUDE_DEFAULT_MODEL_ENV_VAR = None \/
  env !! CLAUDE_DEFAULT_MODEL_ENV_VAR = Some "" ->
  selectModel env model = DEFAULT_CLAUDE_MODEL.
Proof.
  intros Hmodel Henv. unfold selectModel, Js.or.
  destruct Hmodel as [-> | ->], Henv as [-> | ->]; reflexivity.
Qed.

(** A review that is not refused starts the subprocess exactly once. *)
Lemma review_spawned (env : gmap string string)
    (run : Subprocess) (args : JsValue) (context : ToolHandlerContext)
    (a : ReviewToolArgs.t) :
  ReviewToolSchema args = inr a ->
  Js.truthyOpt (ReviewToolArgs.prompt a) &&
    default false (ReviewToolArgs.uncommitted a) = false ->
  spawned (events (review env run args context)) =
  [{| file := "claude";
      argv := reviewArgs a (selectModel env (ReviewToolArgs.model a));
      envOverride := None;
      streaming := useStreaming context |}].
Proof.
  intros Ha Hok. unfold review. rewrite Ha, Hok.
  destruct (settled _) as [result|cause]; [|apply spawned_invoke].
  destruct (parseReviewOutput result); apply spawned_invoke.
Qed.

(** C4, as stated, at the request [{prompt: "p", model: ""}] with no
    default configured: the request carries an explicit model, the empty
    string, and the subprocess is given the hardcoded default instead. *)
Lemma C4_counterexample :
  let args := JObj [("prompt", JStr "p"); ("model", JStr "")] in
  let o := sampleExecute (answers "" "") args InMemorySessionStorage.empty in
  ClaudeToolSchema (platform := samplePlatform) args
    = inr (ClaudeToolArgs.make "p" None None (Some "") None None None None
             None None None)
  /\ List.map argv (spawned (events o))
    = [["-p"; "p"; "--model"; "claude-sonnet-4-6"; "--output-format"; "json"]]
  /\ List.map argv (spawned (events o))
    <> [["-p"; "p"; "--model"; ""; "--output-format"; "json"]].
Proof. repeat split; try reflexivity. vm_compute. discriminate. Qed.

(** C4, amended. The model passed to the subprocess is the explicit
    request model when it is present and not the empty string, otherwise
    the model of the environment variable when that is set and not the
    empty string, otherwise the hardcoded default; it follows [--model]
    in the one argument list of an execute-assistant call, in resume and
    in fresh mode, and of a code review. *)
Theorem C4_model_precedence
    `{platform : Platform} {S : Type} `{store : SessionStorage S}
    (env : gmap string string) (model : option string) :
  let selected := selectModel env model in
  let configured := env !! CLAUDE_DEFAULT_MODEL_ENV_VAR in
  (forall m, model = Some m -> m <> "" -> selected = m) /\
  (model = None \/ model = Some "" ->
   forall e, configured = Some e -> e <> "" -> selected = e) /\
  (model = None \/ model = Some "" ->
   configured = None \/ configured = Some "" ->
   selected = DEFAULT_CLAUDE_MODEL) /\
  (forall run clock args context (st : S) a,
     ClaudeToolSchema args = inr a -> ClaudeToolArgs.model a = model ->
     let stage := fst (sessionStage (atStart clock) a st) in
     exists rest,
       List.map argv (spawned (events (execute env run clock args context st)))
       = [["-p"; enhancedPrompt stage] ++
          match resumeHandle stage with
          | Some handle => ["--resume"; handle]
          | None => []
          end ++ ["--model"; selected] ++ rest]) /\
  (forall run args context a,
     ReviewToolSchema args = inr a -> ReviewToolArgs.model a = model ->
     Js.truthyOpt (ReviewToolArgs.prompt a) &&
       default false (ReviewToolArgs.uncommitted a) = false ->
     exists rest,
       List.map argv (spawned (events (review env run args context)))
       = [["-p"; reviewPrompt a; "--model"; selected] ++ rest]).
Proof.
  intros selected configured. repeat split.
  - intros m. apply selectModel_explicit.
  - intros Hmodel e. now apply selectModel_environment.
  - apply selectModel_fallback.
  - intros run clock args context st a Ha Hmodel stage.
    rewrite (execute_spawned env run clock args context st a Ha), Hmodel.
    fold stage selected. unfold cmdArgs. simpl.
    destruct (resumeHandle stage); simpl; eauto.
  - intros run args context a Ha Hmodel Hok.
    rewrite (review_spawned env run args context a Ha Hok), Hmodel.
    fold selected. unfold reviewArgs. simpl. eauto.
Qed.

Lemma C4_witness :
  let env : gmap string string :=
    {[ CLAUDE_DEFAULT_MODEL_ENV_VAR := "claude-opus-4-6" ]} in
  selectModel env (Some "claude-haiku-4-5-20251001")
    = "claude-haiku-4-5-20251001"
  /\ selectModel env (Some "") = "claude-opus-4-6"
  /\ selectModel env None = "claude-opus-4-6"
  /\ selectModel ∅ None = "claude-sonnet-4-6"
  /\ (exists rest,
        List.map argv
          (spawned (events
             (execute (platform := samplePlatform) env (answers "" "")
                sampleClock
                (JObj [("prompt", JStr "go on"); ("sessionId", JStr "s1")])
                defaultContext resumableStore)))
        = [["-p"; "go on"; "--resume"; "h1"; "--model"; "claude-opus-4-6"]
           ++ rest])
  /\ (exists rest,
        List.map argv
          (spawned (events
             (review env (answers "" "")
                (JObj [("base", JStr "main")]) defaultContext)))
        = [["-p";
            "Review changes against base branch: main. Please provide a detailed code review.";
            "--model"; "claude-opus-4-6"] ++ rest]).
Proof.
  intros env.
  pose proof (C4_model_precedence (platform := samplePlatform)
                (S := gmap string Session.t) env
                (Some "claude-haiku-4-5-20251001")) as (H1 & _).
  pose proof (C4_model_precedence (platform := samplePlatform)
                (S := gmap string Session.t) env (Some ""))
    as (_ & H2 & _).
  pose proof (C4_model_precedence (platform := samplePlatform)
                (S := gmap string Session.t) env None)
    as (_ & H3 & _ & H5 & H6).
  pose proof (C4_model_precedence (platform := samplePlatform)
                (S := gmap string Session.t) ∅ None)
    as (_ & _ & H4 & _).
  split; [apply H1; [reflexivity | discriminate] |].
  split; [apply H2; [now right | reflexivity | discriminate] |].
  split; [apply H3; [now left | reflexivity | discriminate] |].
  split; [apply H4; now left |].
  split.
  - destruct (H5 (answers "" "") sampleClock
                (JObj [("prompt", JStr "go on"); ("sessionId", JStr "s1")])
                defaultContext resumableStore
                (ClaudeToolArgs.make "go on" (Some "s1") None None None None
                   None None None None None) eq_refl eq_refl)
      as [rest Hrest].
    exists rest. rewrite Hrest.
    rewrite (H3 (or_introl eq_refl) "claude-opus-4-6" eq_refl
               ltac:(discriminate)).
    vm_compute. reflexivity.
  - destruct (H6 (answers "" "") (JObj [("base", JStr "main")]) defaultContext
                (ReviewToolArgs.make None None (Some "main") None None None
                   None) eq_refl eq_refl eq_refl)
      as [rest Hrest].
    exists rest. rewrite Hrest.
    rewrite (H3 (or_introl eq_refl) "claude-opus-4-6" eq_refl
               ltac:(discriminate)).
    reflexivity.
Defined.

(** ** The execute-assistant handler: output and persistence *)

Section OutputFacts.
Context `{platform : Platform} {S : Type} `{store : SessionStorage S}.
Variable env : gmap string string.

(** [useResume] is set exactly in resume mode. *)
Lemma sessionStage_useResume (now : Z) (a : ClaudeToolArgs.t) (st : S) :
  useResume (fst (sessionStage now a st))
  = resumeMode (fst (sessionStage now a st)).
Proof.
  unfold resumeMode, resumeHandle, sessionStage.
  destruct (ClaudeToolArgs.sessionId a) as [sid|]; [|reflexivity].
  destruct (Js.truthy sid); [|reflexivity]. cbv zeta.
  destruct (getClaudeSessionId sid _) as [[|c h]|]; simpl;
    try reflexivity; destruct (getSession now sid _); reflexivity.
Qed.

(** What a call returns and leaves in the store once the subprocess has
    answered and the answer has been read. *)
Lemma execute_resolved (run : Subprocess) (clock : Clock) (args : JsValue)
    (context : ToolHandlerContext) (st : S) (a : ClaudeToolArgs.t)
    (result : CommandResult) (response : string) (extracted : option string) :
  ClaudeToolSchema args = inr a ->
  answered (execute env run clock args context st) run result ->
  parseOutput result = Fields response extracted ->
  responseText (completion (execute env run clock args context st))
    = Some response /\
  storage (execute env run clock args context st)
    = persist (atReturn clock) a (fst (sessionStage (atStart clock) a st))
        response extracted (snd (sessionStage (atStart clock) a st)).
Proof.
  intros Ha Hrun Hparse. unfold answered in Hrun.
  rewrite (execute_spawned env run clock args context st a Ha) in Hrun.
  specialize (Hrun _ (or_introl eq_refl)).
  unfold execute. rewrite Ha.
  destruct (sessionStage (atStart clock) a st) as [stage st']. simpl in *.
  rewrite Hrun, Hparse. simpl. split; reflexivity.
Qed.

(** A call whose subprocess fails leaves the store as the session block
    left it. *)
Lemma execute_unfinished (run : Subprocess) (clock : Clock) (args : JsValue)
    (context : ToolHandlerContext) (st : S) (a : ClaudeToolArgs.t)
    (error : ToolError) :
  ClaudeToolSchema args = inr a ->
  completion (execute env run clock args context st) = Thrown error ->
  storage (execute env run clock args context st)
    = snd (sessionStage (atStart clock) a st).
Proof.
  intros Ha. unfold execute. rewrite Ha.
  destruct (sessionStage (atStart clock) a st) as [stage st']. simpl.
  destruct (settled _) as [result|cause]; [|reflexivity].
  destruct (parseOutput result); discriminate.
Qed.

Lemma resultField_Some (v : option JsValue) (raw response : string) :
  resultField v raw = Some response ->
  match v with
  | None | Some JNull => JStr raw
  | Some w => w
  end = JStr response.
Proof.
  destruct v as [[]|]; simpl; try discriminate; now intros [= <-].
Qed.

Lemma sessionIdField_Some (v : option JsValue) (extracted : option string) :
  sessionIdField v = Some extracted ->
  match v with
  | Some (JStr s) => extracted = Some s
  | Some w => extracted = None /\ Json.truthy w = false
  | None => extracted = None
  end.
Proof.
  destruct v as [w|]; [|now intros [= <-]].
  destruct w; unfold sessionIdField; try (now intros [= <-]);
    (destruct (Json.truthy _) eqn:Ht; [discriminate |]; now intros [= <-]).
Qed.

(** Where both values are strings, [parseOutput] is [readOutput]: a
    [session_id] that is falsy counts as absent. *)
Lemma readOutput_typed (result : CommandResult) (response : string)
    (extracted : option string) :
  parseOutput result = Fields response extracted ->
  answerResponse (readOutput result) = JStr response /\
  match answerSessionId (readOutput result) with
  | Some (JStr s) => extracted = Some s
  | Some v => extracted = None /\ Json.truthy v = false
  | None => extracted = None
  end.
Proof.
  unfold parseOutput, readOutput.
  destruct (Json.parse (stdout result)) as [v|]; [|now intros [= <- <-]].
  destruct v as [| | | | |props]; try (now intros [= <- <-]).
  destruct (resultField _ _) as [response'|] eqn:Hres; [|discriminate].
  destruct (sessionIdField _) as [extracted'|] eqn:Hsid; [|discriminate].
  intros [= <- <-]. split.
  - now apply resultField_Some in Hres.
  - now apply sessionIdField_Some in Hsid.
Qed.

(** Where a value is not a string, and the model stops at [Mistyped],
    the handler hands that value on. *)
Lemma readOutput_mistyped (result : CommandResult) :
  parseOutput result = Mistyped ->
  (forall s, answerResponse (readOutput result) <> JStr s) \/
  exists v, answerSessionId (readOutput result) = Some v /\
            Json.truthy v = true /\ forall s, v <> JStr s.
Proof.
  unfold parseOutput, readOutput.
  destruct (Json.parse (stdout result)) as [v|]; [|discriminate].
  destruct v as [| | | | |props]; try discriminate.
  destruct (resultField _ _) as [response|] eqn:Hres.
  - intros Hm. right. cbn [answerSessionId].
    destruct (Json.member "session_id" props) as [w|]; [|discriminate].
    exists w. split; [reflexivity |].
    destruct w; unfold sessionIdField in Hm; try discriminate;
      (destruct (Json.truthy _) eqn:Ht; [|discriminate];
       split; [reflexivity | discriminate]).
  - intros _. left. cbn [answerResponse].
    destruct (Json.member "result" props) as [[]|]; simpl in Hres;
      discriminate.
Qed.

Lemma parseOutput_object (result : CommandResult) (X Y : string) :
  Json.parse (stdout result)
    = Some (JObj [("result", JStr X); ("session_id", JStr Y)]) ->
  parseOutput result = Fields X (Some Y).
Proof. intros Hp. unfold parseOutput. now rewrite Hp. Qed.

Lemma parseOutput_unparsable (result : CommandResult) :
  Json.parse (stdout result) = None ->
  parseOutput result = Fields (rawOutput "No output from Claude" result) None.
Proof. intros Hp. unfold parseOutput. now rewrite Hp. Qed.

Lemma rawOutput_fallback (placeholder : string) (result : CommandResult) :
  rawOutput placeholder result =
  if decide (stdout result = "") then
    if decide (stderr result = "") then placeholder else stderr result
  else stdout result.
Proof.
  unfold rawOutput, Js.or. destruct result as [[|c out] [|c' err]];
    reflexivity.
Qed.

End OutputFacts.

Section InMemoryHandler.
Import InMemoryFacts.

(** On the in-memory store, the session block leaves the session as
    [ensureSession] and the reset left it, up to the access stamp. *)
Lemma sessionStage_inMemory (now : Z) (a : ClaudeToolArgs.t) (sid : string)
    (st : gmap string Session.t) :
  ClaudeToolArgs.sessionId a = Some sid -> sid <> "" ->
  let st' := snd (sessionStage now a st) in
  let before := ensuredAndReset now a sid st in
  is_Some (st' !! sid) /\
  InMemorySessionStorage.turnsOf sid st'
    = InMemorySessionStorage.turnsOf sid before /\
  getClaudeSessionId sid st' = getClaudeSessionId sid before.
Proof.
  intros Hsid Hne. unfold sessionStage, ensuredAndReset. rewrite Hsid.
  apply truthy_nonempty in Hne. rewrite Hne. cbv zeta.
  set (before := if default false (ClaudeToolArgs.resetSession a) then _ else _).
  assert (is_Some (before !! sid)) as Hsome.
  { unfold before. destruct (default false _); simpl.
    - apply reset_is_Some, ensure_is_Some.
    - apply ensure_is_Some. }
  destruct (Js.truthyOpt _); [simpl; auto |].
  destruct (getSession now sid before) as [session st'] eqn:Hget.
  simpl snd. change st' with (snd (session, st')). rewrite <- Hget.
  simpl. split; [now apply getSession_is_Some |].
  now rewrite turns_getSession, handle_getSession.
Qed.

(** What saving does to the session of the call. *)
Lemma persist_inMemory (now : Z) (a : ClaudeToolArgs.t) (stage : SessionStage)
    (response : string) (extracted : option string) (sid : string)
    (st : gmap string Session.t) :
  ClaudeToolArgs.sessionId a = Some sid -> sid <> "" ->
  is_Some (st !! sid) ->
  let st' := persist now a stage response extracted st in
  InMemorySessionStorage.turnsOf sid st'
    = InMemorySessionStorage.turnsOf sid st ++
      [ConversationTurn.make (ClaudeToolArgs.prompt a) response now] /\
  getClaudeSessionId sid st'
    = match extracted with
      | Some y =>
          if negb (useResume stage) && Js.truthy y then Some y
          else getClaudeSessionId sid st
      | None => getClaudeSessionId sid st
      end.
Proof.
  intros Hsid Hne Hsome. unfold persist. rewrite Hsid.
  apply truthy_nonempty in Hne. rewrite Hne. simpl.
  rewrite turns_addTurn, handle_addTurn, decide_True by reflexivity.
  destruct extracted as [y|]; [|auto].
  destruct (negb (useResume stage) && Js.truthy y); [|auto].
  simpl. rewrite turns_set, handle_set, decide_True by reflexivity.
  destruct Hsome as [s ->]. auto.
Qed.

(** Without a session id nothing is saved. *)
Lemma persist_no_session {S : Type} `{store : SessionStorage S} (now : Z)
    (a : ClaudeToolArgs.t) (stage : SessionStage) (response : string)
    (extracted : option string) (st : S) :
  ClaudeToolArgs.sessionId a = None ->
  persist now a stage response extracted st = st.
Proof. intros Hsid. unfold persist. now rewrite Hsid. Qed.

(** What [ensureSession] and a reset leave of the history. *)
Lemma ensuredAndReset_turns (now : Z) (a : ClaudeToolArgs.t) (sid : string)
    (st : gmap string Session.t) :
  InMemorySessionStorage.turnsOf sid (ensuredAndReset now a sid st)
  = if default false (ClaudeToolArgs.resetSession a) then []
    else InMemorySessionStorage.turnsOf sid st.
Proof.
  unfold ensuredAndReset. destruct (default false _); simpl.
  - rewrite turns_reset. now rewrite decide_True.
  - apply turns_ensure.
Qed.

End InMemoryHandler.

(** ** C5: structured output *)

(** C5, as stated, at the request [{prompt: "p", sessionId: "s"}] on the
    empty store, when the subprocess prints
    [{"result":"X","session_id":""}]: a session id is supplied and the
    call runs in fresh mode, yet the handle of the output, the empty
    string, is not stored. *)
Lemma C5_counterexample :
  let out := Json.quoted "{'result':'X','session_id':''}" in
  let args := JObj [("prompt", JStr "p"); ("sessionId", JStr "s")] in
  let a := ClaudeToolArgs.make "p" (Some "s") None None None None None None
             None None None in
  let o := sampleExecute (answers out "") args InMemorySessionStorage.empty in
  Json.parse out = Some (JObj [("result", JStr "X"); ("session_id", JStr "")])
  /\ ClaudeToolSchema (platform := samplePlatform) args = inr a
  /\ resumeMode (fst (sessionStage (atStart sampleClock) a
                        InMemorySessionStorage.empty)) = false
  /\ responseText (completion o) = Some "X"
  /\ InMemorySessionStorage.getClaudeSessionId "s" (storage o) = None
  /\ InMemorySessionStorage.getClaudeSessionId "s" (storage o) <> Some "".
Proof. repeat split; try reflexivity. vm_compute. discriminate. Qed.

(** On the in-memory store: the turn is the last of the session, and
    the handle of the session is [Y] after a fresh call that printed a
    non-empty [Y], and otherwise what it was. *)
Lemma structured_output_inMemory `{platform : Platform}
    (env : gmap string string) (run : Subprocess) (clock : Clock)
    (args : JsValue) (context : ToolHandlerContext)
    (st : gmap string Session.t) (a : ClaudeToolArgs.t) (sid : string)
    (result : CommandResult) (X Y : string) :
  ClaudeToolSchema args = inr a ->
  ClaudeToolArgs.sessionId a = Some sid ->
  answered (execute env run clock args context st) run result ->
  Json.parse (stdout result)
    = Some (JObj [("result", JStr X); ("session_id", JStr Y)]) ->
  let o := execute env run clock args context st in
  let before := ensuredAndReset (atStart clock) a sid st in
  InMemorySessionStorage.turnsOf sid (storage o)
    = InMemorySessionStorage.turnsOf sid before ++
      [ConversationTurn.make (ClaudeToolArgs.prompt a) X (atReturn clock)]
  /\ getClaudeSessionId sid (storage o)
    = if resumeMode (fst (sessionStage (atStart clock) a st))
      then getClaudeSessionId sid before
      else if decide (Y = "") then getClaudeSessionId sid before
      else Some Y.
Proof.
  intros Ha Hsid Hrun Hparse o before.
  destruct (execute_resolved env run clock args context st a result X (Some Y)
              Ha Hrun (parseOutput_object result X Y Hparse)) as [_ Hst].
  unfold o. rewrite Hst.
  pose proof (ClaudeToolSchema_sessionId _ _ _ Ha Hsid) as [_ Hpat].
  apply sessionIdPattern_spec in Hpat as [Hne _].
  destruct (sessionStage_inMemory (atStart clock) a sid st Hsid Hne)
    as (Hsome & Hturns & Hhandle).
  destruct (persist_inMemory (atReturn clock) a
              (fst (sessionStage (atStart clock) a st)) X (Some Y) sid
              (snd (sessionStage (atStart clock) a st)) Hsid Hne Hsome)
    as [Hturns' Hhandle'].
  cbv zeta in *. rewrite Hturns', Hhandle', Hturns, Hhandle.
  split; [reflexivity |].
  rewrite sessionStage_useResume.
  destruct (resumeMode _); simpl; [reflexivity |].
  destruct Y; reflexivity.
Qed.

(** C5, amended. When the subprocess prints the JSON object
    [{"result":"X","session_id":"Y"}], the text of the response is [X]; a
    turn is persisted, that is handed to [addTurn], exactly when a
    session id was supplied; and [Y] is stored as the native handle of
    the session, that is handed to [setClaudeSessionId], exactly when a
    session id was supplied, the call ran in fresh mode and [Y] is not
    the empty string. In resume mode, and for an empty [Y], the handle
    of the session is left alone. *)
Theorem C5_structured_output
    `{platform : Platform} {S : Type} `{store : SessionStorage S}
    (env : gmap string string) (run : Subprocess) (clock : Clock)
    (args : JsValue) (context : ToolHandlerContext) (st : S)
    (a : ClaudeToolArgs.t) (result : CommandResult) (X Y : string) :
  ClaudeToolSchema args = inr a ->
  answered (execute env run clock args context st) run result ->
  Json.parse (stdout result)
    = Some (JObj [("result", JStr X); ("session_id", JStr Y)]) ->
  let o := execute env run clock args context st in
  let stage := fst (sessionStage (atStart clock) a st) in
  let st' := snd (sessionStage (atStart clock) a st) in
  responseText (completion o) = Some X /\
  storage o =
    match ClaudeToolArgs.sessionId a with
    | None => st
    | Some sid =>
        addTurn (atReturn clock) sid
          (ConversationTurn.make (ClaudeToolArgs.prompt a) X (atReturn clock))
          (if resumeMode stage then st'
           else if decide (Y = "") then st'
           else setClaudeSessionId sid Y st')
    end.
Proof.
  intros Ha Hrun Hparse o stage st'.
  destruct (execute_resolved env run clock args context st a result X (Some Y)
              Ha Hrun (parseOutput_object result X Y Hparse)) as [Htext Hst].
  split; [exact Htext |]. unfold o. rewrite Hst. fold stage st'.
  destruct (ClaudeToolArgs.sessionId a) as [sid|] eqn:Hsid.
  - pose proof (ClaudeToolSchema_sessionId _ _ _ Ha Hsid) as [_ Hpat].
    apply sessionIdPattern_spec in Hpat as [Hne _].
    apply truthy_nonempty in Hne.
    unfold persist. rewrite Hsid, Hne. unfold stage.
    rewrite sessionStage_useResume. fold stage.
    destruct (resumeMode stage); simpl; [reflexivity |].
    destruct Y; reflexivity.
  - unfold st'. rewrite (sessionStage_no_session (atStart clock) a st Hsid).
    simpl. now apply persist_no_session.
Qed.

Lemma C5_witness :
  let out := Json.quoted "{'result':'X','session_id':'Y'}" in
  let args := JObj [("prompt", JStr "p"); ("sessionId", JStr "s")] in
  let o := sampleExecute (answers out "") args InMemorySessionStorage.empty in
  responseText (completion o) = Some "X"
  /\ InMemorySessionStorage.turnsOf "s" (storage o)
     = [ConversationTurn.make "p" "X" 200]
  /\ getClaudeSessionId "s" (storage o) = Some "Y".
Proof.
  intros out args o.
  pose (a := ClaudeToolArgs.make "p" (Some "s") None None None None None None
               None None None).
  assert (ClaudeToolSchema (platform := samplePlatform) args = inr a)
    as Ha by reflexivity.
  assert (answered o (answers out "") {| stdout := out; stderr := "" |})
    as Hrun by (intros inv _; reflexivity).
  assert (Json.parse out
          = Some (JObj [("result", JStr "X"); ("session_id", JStr "Y")]))
    as Hparse by reflexivity.
  destruct (C5_structured_output (platform := samplePlatform) ∅
              (answers out "") sampleClock args defaultContext
              InMemorySessionStorage.empty a
              {| stdout := out; stderr := "" |} "X" "Y" Ha Hrun Hparse)
    as [Htext Hstore].
  split; [exact Htext |]. unfold o, sampleExecute. rewrite Hstore.
  split; reflexivity.
Defined.

(** ** C6: output that is not JSON *)

(** C6. When the output of the subprocess does not parse as JSON the
    call still returns a response, and its text is the raw standard
    output if that is not empty, else the raw standard error if that is
    not empty, else the placeholder [No output from Claude]. In
    particular the text is the placeholder when both are empty. *)
Theorem C6_unparsable_output_falls_back
    `{platform : Platform} {S : Type} `{store : SessionStorage S}
    (env : gmap string string) (run : Subprocess) (clock : Clock)
    (args : JsValue) (context : ToolHandlerContext) (st : S)
    (a : ClaudeToolArgs.t) (result : CommandResult) :
  ClaudeToolSchema args = inr a ->
  answered (execute env run clock args context st) run result ->
  let o := execute env run clock args context st in
  (Json.parse (stdout result) = None ->
   responseText (completion o)
   = Some (if decide (stdout result = "") then
             if decide (stderr result = "") then "No output from Claude"
             else stderr result
           else stdout result)) /\
  (stdout result = "" -> stderr result = "" ->
   responseText (completion o) = Some "No output from Claude").
Proof.
  intros Ha Hrun o.
  assert (Json.parse (stdout result) = None ->
          responseText (completion o)
          = Some (rawOutput "No output from Claude" result)) as Hraw.
  { intros Hparse.
    now destruct (execute_resolved env run clock args context st a result _ None
                    Ha Hrun (parseOutput_unparsable result Hparse)). }
  split.
  - intros Hparse. rewrite <- rawOutput_fallback. now apply Hraw.
  - intros Hout Herr. rewrite Hraw.
    + rewrite rawOutput_fallback, Hout, Herr. reflexivity.
    + rewrite Hout. reflexivity.
Qed.

Lemma C6_witness :
  responseText (completion
    (sampleExecute (answers "" "") (JObj [("prompt", JStr "p")])
       InMemorySessionStorage.empty)) = Some "No output from Claude"
  /\ responseText (completion
    (sampleExecute (answers "" "Error: not logged in")
       (JObj [("prompt", JStr "p")]) InMemorySessionStorage.empty))
     = Some "Error: not logged in"
  /\ responseText (completion
    (sampleExecute (answers "plain text" "warning")
       (JObj [("prompt", JStr "p")]) InMemorySessionStorage.empty))
     = Some "plain text".
Proof.
  pose (a := ClaudeToolArgs.make "p" None None None None None None None None
               None None).
  pose proof (fun out err =>
    C6_unparsable_output_falls_back (platform := samplePlatform) ∅
      (answers out err) sampleClock (JObj [("prompt", JStr "p")])
      defaultContext InMemorySessionStorage.empty a
      {| stdout := out; stderr := err |} eq_refl (fun _ _ => eq_refl))
    as Hcall.
  split; [|split].
  - apply (Hcall "" ""); reflexivity.
  - apply (Hcall "" "Error: not logged in"). reflexivity.
  - apply (Hcall "plain text" "warning"). reflexivity.
Defined.

(** ** C10: the prompt recorded in a turn *)

(** For any session store: what the session block does to the store. *)
Lemma sessionStage_store {S : Type} `{store : SessionStorage S}
    (now : Z) (a : ClaudeToolArgs.t) (sid : string) (st : S) :
  ClaudeToolArgs.sessionId a = Some sid -> sid <> "" ->
  let st2 := ensuredAndReset now a sid st in
  snd (sessionStage now a st)
  = if negb (resumeMode (fst (sessionStage now a st)))
    then snd (getSession now sid st2) else st2.
Proof.
  intros Hsid Hne st2. apply truthy_nonempty in Hne.
  unfold resumeMode, resumeHandle, sessionStage.
  rewrite Hsid, Hne. cbv zeta. fold (ensuredAndReset now a sid st). fold st2.
  destruct (getClaudeSessionId sid st2) as [[|c h]|]; simpl;
    try reflexivity; now destruct (getSession now sid st2).
Qed.

(** On the in-memory store: after a call with a session id that
    returned a response, the turns of the session are those it had when
    the handle was looked up, followed by one turn with the prompt of
    the request and the text returned; after a call that failed they are
    those it had. *)
Lemma turns_after_execute_inMemory `{platform : Platform}
    (env : gmap string string) (run : Subprocess) (clock : Clock)
    (args : JsValue) (context : ToolHandlerContext)
    (st : gmap string Session.t) (a : ClaudeToolArgs.t) (sid : string) :
  ClaudeToolSchema args = inr a ->
  ClaudeToolArgs.sessionId a = Some sid ->
  let o := execute env run clock args context st in
  let before :=
    if default false (ClaudeToolArgs.resetSession a) then []
    else InMemorySessionStorage.turnsOf sid st in
  (forall response,
     responseText (completion o) = Some response ->
     InMemorySessionStorage.turnsOf sid (storage o)
     = before ++
       [ConversationTurn.make (ClaudeToolArgs.prompt a) response
          (atReturn clock)]) /\
  (forall error,
     completion o = Thrown error ->
     InMemorySessionStorage.turnsOf sid (storage o) = before).
Proof.
  intros Ha Hsid o before.
  pose proof (ClaudeToolSchema_sessionId _ _ _ Ha Hsid) as [_ Hpat].
  apply sessionIdPattern_spec in Hpat as [Hne _].
  destruct (sessionStage_inMemory (atStart clock) a sid st Hsid Hne)
    as (Hsome & Hturns & _).
  rewrite ensuredAndReset_turns in Hturns. fold before in Hturns.
  split.
  - intros response Htext.
    unfold o in *. unfold execute in *. rewrite Ha in *.
    destruct (sessionStage (atStart clock) a st) as [stage st'].
    simpl in Hsome, Hturns.
    destruct (settled _) as [result|cause]; [|discriminate].
    destruct (parseOutput result) as [response' extracted|]; [|discriminate].
    simpl in Htext. injection Htext as ->. simpl storage.
    destruct (persist_inMemory (atReturn clock) a stage response extracted sid
                st' Hsid Hne Hsome) as [Hturns' _].
    now rewrite Hturns', Hturns.
  - intros error Hthrown. unfold o.
    rewrite (execute_unfinished env run clock args context st a error Ha
               Hthrown).
    exact Hturns.
Qed.

(** What lines 160-176 hand to the store is [persist] wherever the
    values are strings. *)
Lemma persistCalls_typed {S : Type} `{store : SessionStorage S}
    (now : Z) (a : ClaudeToolArgs.t) (stage : SessionStage)
    (result : CommandResult) (response : string) (extracted : option string)
    (st : S) :
  parseOutput result = Fields response extracted ->
  applyCalls (persistCalls now a stage (readOutput result)) st
  = Some (persist now a stage response extracted st).
Proof.
  intros Hparse. destruct (readOutput_typed _ _ _ Hparse) as [Hres Hsid].
  unfold persistCalls, persist.
  destruct (ClaudeToolArgs.sessionId a) as [sid|]; [|reflexivity].
  destruct (Js.truthy sid); [|reflexivity]. rewrite Hres.
  destruct (answerSessionId (readOutput result)) as [v|].
  - destruct v;
      try match type of Hsid with
          | _ /\ _ =>
              destruct Hsid as [-> Hfalsy];
              rewrite Hfalsy, andb_false_r; reflexivity
          end.
    subst extracted. change (Json.truthy (JStr s)) with (Js.truthy s).
    now destruct (negb (useResume stage) && Js.truthy s).
  - now subst extracted.
Qed.

(** Whatever the subprocess printed, strings or not, the last call of
    the store is the one [addTurn], with the prompt of the request; what
    precedes it is at most a [setClaudeSessionId]. *)
Lemma persistCalls_turn (now : Z) (a : ClaudeToolArgs.t) (stage : SessionStage)
    (answer : Answer) (sid : string) :
  ClaudeToolArgs.sessionId a = Some sid -> sid <> "" ->
  exists handles,
    persistCalls now a stage answer
    = handles ++
      [AddTurn sid (ClaudeToolArgs.prompt a) (answerResponse answer) now] /\
    (handles = [] \/
     exists handle,
       answerSessionId answer = Some handle /\ Json.truthy handle = true /\
       useResume stage = false /\
       handles = [SetClaudeSessionId sid handle]).
Proof.
  intros Hsid Hne. apply truthy_nonempty in Hne.
  unfold persistCalls. rewrite Hsid, Hne.
  eexists. split; [reflexivity |].
  destruct (answerSessionId answer) as [v|]; [|now left].
  destruct (negb (useResume stage) && Json.truthy v) eqn:Hstore; [|now left].
  apply andb_true_iff in Hstore as [Hfresh Hv]. right. exists v.
  repeat split; [exact Hv | now apply negb_true_iff in Hfresh].
Qed.

(** C10. A call with a session id hands exactly one turn to the session
    store once the subprocess has answered, whatever it printed, and
    that turn records the prompt of the request, not the synthesized
    prompt that was sent to the subprocess. Before that the call has
    used the store through [ensureSession], the requested
    [resetSession], in fresh mode [getSession] and possibly
    [setClaudeSessionId] only, none of which is given a prompt, so the
    synthesized context reaches the session history nowhere. On a store
    of strings, a call that returns a response leaves the store that
    [addTurn] yields for this turn, and a call whose subprocess fails
    hands no turn to the store. *)
Theorem C10_turn_records_original_prompt
    `{platform : Platform} {S : Type} `{store : SessionStorage S}
    (env : gmap string string) (run : Subprocess) (clock : Clock)
    (args : JsValue) (context : ToolHandlerContext) (st : S)
    (a : ClaudeToolArgs.t) (sid : string) :
  ClaudeToolSchema args = inr a ->
  ClaudeToolArgs.sessionId a = Some sid ->
  let o := execute env run clock args context st in
  let stage := fst (sessionStage (atStart clock) a st) in
  let st2 := ensuredAndReset (atStart clock) a sid st in
  let fresh := negb (resumeMode stage) in
  let st3 := if fresh then snd (getSession (atStart clock) sid st2) else st2 in
  (exists props, args = JObj props /\
     Json.member "prompt" props = Some (JStr (ClaudeToolArgs.prompt a))) /\
  (forall result,
     let answer := readOutput result in
     exists handles,
       persistCalls (atReturn clock) a stage answer
       = handles ++
         [AddTurn sid (ClaudeToolArgs.prompt a) (answerResponse answer)
            (atReturn clock)] /\
       (handles = [] \/
        exists handle,
          answerSessionId answer = Some handle /\
          Json.truthy handle = true /\ fresh = true /\
          handles = [SetClaudeSessionId sid handle])) /\
  (forall response,
     responseText (completion o) = Some response ->
     (exists st4,
        (st4 = st3 \/
         exists handle, handle <> "" /\ fresh = true /\
           st4 = setClaudeSessionId sid handle st3) /\
        storage o
        = addTurn (atReturn clock) sid
            (ConversationTurn.make (ClaudeToolArgs.prompt a) response
               (atReturn clock)) st4) /\
     forall result,
       answered o run result ->
       applyCalls (persistCalls (atReturn clock) a stage (readOutput result))
         st3
       = Some (storage o)) /\
  (forall error, completion o = Thrown error -> storage o = st3).
Proof.
  intros Ha Hsid o stage st2 fresh st3.
  pose proof (ClaudeToolSchema_sessionId _ _ _ Ha Hsid) as [_ Hpat].
  apply sessionIdPattern_spec in Hpat as [Hne _].
  pose proof (sessionStage_store (atStart clock) a sid st Hsid Hne) as Hst3.
  cbv zeta in Hst3. fold stage st2 fresh st3 in Hst3.
  pose proof (sessionStage_useResume (atStart clock) a st) as Hres.
  fold stage in Hres.
  split; [|split; [|split]].
  - destruct (ClaudeToolSchema_inr args a Ha) as (props & Hargs & Hprompt & _).
    eauto.
  - intros result answer.
    destruct (persistCalls_turn (atReturn clock) a stage answer sid Hsid Hne)
      as (handles & Hcalls & Hhandles).
    exists handles. split; [exact Hcalls |].
    destruct Hhandles as [->|(handle & Hh & Ht & Hfresh & ->)]; [now left |].
    right. exists handle. repeat split; try assumption.
    unfold fresh. now rewrite <- Hres, Hfresh.
  - intros response Htext.
    assert (exists result extracted,
              settled (run (invocation a context
                              (cmdArgs a stage
                                 (selectModel env (ClaudeToolArgs.model a)))))
              = Resolved result /\
              parseOutput result = Fields response extracted /\
              storage o
              = persist (atReturn clock) a stage response extracted st3)
      as (result & extracted & Hsettled & Hparse & Hstore).
    { unfold o, stage in *. unfold execute in *. rewrite Ha in *.
      destruct (sessionStage (atStart clock) a st) as [stage' st'].
      simpl in *. subst st'.
      destruct (settled _) as [result|cause]; [|discriminate].
      destruct (parseOutput result) as [response' extracted|] eqn:Hparse;
        [|discriminate].
      simpl in Htext. injection Htext as ->. eauto. }
    split.
    + rewrite Hstore. apply truthy_nonempty in Hne.
      unfold persist. rewrite Hsid, Hne, Hres.
      destruct extracted as [y|]; [|eauto].
      fold fresh. destruct (fresh && Js.truthy y) eqn:Hy; [|eauto].
      apply andb_true_iff in Hy as [Hf Hy]. apply truthy_nonempty in Hy.
      eexists. split; [right; eauto | reflexivity].
    + intros result' Hrun. unfold answered in Hrun.
      unfold o in Hrun.
      rewrite (execute_spawned env run clock args context st a Ha) in Hrun.
      specialize (Hrun _ (or_introl eq_refl)). fold stage in Hrun.
      rewrite Hsettled in Hrun. injection Hrun as <-.
      rewrite Hstore. now apply persistCalls_typed.
  - intros error Hthrown. unfold o.
    now rewrite (execute_unfinished env run clock args context st a error Ha
                   Hthrown).
Qed.

Lemma C10_witness :
  let args := JObj [("prompt", JStr "What next?"); ("sessionId", JStr "s3")] in
  let st := InMemorySessionStorage.addTurn 2 "s3"
              (ConversationTurn.make "first question" "first answer" 2)
              InMemorySessionStorage.empty in
  let o := sampleExecute (answers (Json.quoted "{'result':'R'}") "") args st in
  List.map argv (spawned (events o))
    = [["-p";
        "Context: first question -> first answer..." +:+ Js.LF +:+ Js.LF +:+
        "Task: What next?";
        "--model"; "claude-sonnet-4-6"; "--output-format"; "json"]]
  /\ InMemorySessionStorage.turnsOf "s3" (storage o)
     = [ConversationTurn.make "first question" "first answer" 2;
        ConversationTurn.make "What next?" "R" 200]
  /\ (exists handles,
        persistCalls 200
          (ClaudeToolArgs.make "What next?" (Some "s3") None None None
             None None None None None None)
          {| useResume := false; claudeSessionId := None;
             enhancedPrompt :=
               "Context: first question -> first answer..." +:+ Js.LF +:+
               Js.LF +:+ "Task: What next?" |}
          (readOutput
             {| stdout := Json.quoted "{'result':123,'session_id':'Y'}";
                stderr := "" |})
        = handles ++ [AddTurn "s3" "What next?" (JNum 123 0) 200]).
Proof.
  intros args st o.
  destruct (C10_turn_records_original_prompt (platform := samplePlatform) ∅
              (answers (Json.quoted "{'result':'R'}") "") sampleClock args
              defaultContext st
              (ClaudeToolArgs.make "What next?" (Some "s3") None None None
                 None None None None None None) "s3" eq_refl eq_refl)
    as (_ & Hcalls & Hreturned & _).
  split; [reflexivity |]. split.
  - destruct (Hreturned "R" eq_refl)
      as [(st4 & [-> | (handle & _ & _ & ->)] & Hstore) _];
      unfold o, sampleExecute; rewrite Hstore; reflexivity.
  - destruct (Hcalls
                {| stdout := Json.quoted "{'result':123,'session_id':'Y'}";
                   stderr := "" |}) as (handles & Hturn & _).
    exists handles. exact Hturn.
Defined.

(** ** C7: the synthesized context is bounded *)

(** In fresh mode the prompt sent is built from the turns [getSession]
    returns. *)
Lemma sessionStage_synthesized {S : Type} `{store : SessionStorage S}
    (now : Z) (a : ClaudeToolArgs.t) (sid : string) (st : S)
    (session : Session.t) :
  ClaudeToolArgs.sessionId a = Some sid -> sid <> "" ->
  getClaudeSessionId sid (ensuredAndReset now a sid st) = None ->
  fst (getSession now sid (ensuredAndReset now a sid st)) = Some session ->
  Session.turns session <> [] ->
  enhancedPrompt (fst (sessionStage now a st))
  = buildEnhancedPrompt (Session.turns session) (ClaudeToolArgs.prompt a).
Proof.
  unfold sessionStage, ensuredAndReset. intros -> Hne Hfound Hget Hturns.
  apply truthy_nonempty in Hne. rewrite Hne. cbv zeta. rewrite Hfound.
  simpl. destruct (getSession now sid _) as [found st']. simpl in Hget.
  subst found. simpl.
  destruct (Session.turns session); [congruence | reflexivity].
Qed.

(** C7. For a session with at least one prior turn and no native
    handle, the prompt sent is the task behind a context built from the
    last two turns only, one line per turn, each line holding at most the
    first 200 characters of a response that looks like code and at most
    the first 100 of any other; its length is bounded by a constant plus
    the lengths of the prompts of those two turns and of the task,
    whatever the length of the responses and the number of turns. *)
Theorem C7_synthesized_context_is_bounded
    `{platform : Platform} {S : Type} `{store : SessionStorage S}
    (now : Z) (args : JsValue) (a : ClaudeToolArgs.t) (sid : string)
    (st : S) (session : Session.t) :
  ClaudeToolSchema args = inr a ->
  ClaudeToolArgs.sessionId a = Some sid ->
  getClaudeSessionId sid (ensuredAndReset now a sid st) = None ->
  fst (getSession now sid (ensuredAndReset now a sid st)) = Some session ->
  Session.turns session <> [] ->
  let sent := enhancedPrompt (fst (sessionStage now a st)) in
  let recent := lastTurns 2 (Session.turns session) in
  sent = Js.join Js.LF (List.map contextLine recent) +:+
         Js.LF +:+ Js.LF +:+ "Task: " +:+ ClaudeToolArgs.prompt a
  /\ (length recent <= 2)%nat
  /\ (exists older, Session.turns session = older ++ recent)
  /\ Forall
       (fun turn =>
          let response := ConversationTurn.response turn in
          exists cut rest,
            response = cut +:+ rest /\
            ((Js.includes "function" response || Js.includes "def " response
              = true /\
              (String.length cut <= 200)%nat /\
              contextLine turn = "Previous code context: " +:+ cut +:+ "...") \/
             (Js.includes "function" response || Js.includes "def " response
              = false /\
              (String.length cut <= 100)%nat /\
              contextLine turn =
                "Context: " +:+ ConversationTurn.prompt turn +:+ " -> " +:+
                cut +:+ "...")))
       recent
  /\ (String.length sent
      <= 461 + promptsLength recent
         + String.length (ClaudeToolArgs.prompt a))%nat.
Proof.
  intros Ha Hsid Hnone Hget Hturns sent recent.
  pose proof (ClaudeToolSchema_sessionId _ _ _ Ha Hsid) as [_ Hpat].
  apply sessionIdPattern_spec in Hpat as [Hne _].
  pose proof (sessionStage_synthesized now a sid st session Hsid Hne Hnone
                Hget Hturns) as Hsent.
  fold sent in Hsent. repeat split.
  - rewrite Hsent. now apply buildEnhancedPrompt_recent.
  - apply lastTurns_length.
  - eexists. apply lastTurns_suffix.
  - apply Forall_forall. intros turn _. apply contextLine_shape.
  - rewrite Hsent. now apply buildEnhancedPrompt_length.
Qed.

Lemma C7_witness :
  let a := ClaudeToolArgs.make "Final question" (Some "s2") None None None
             None None None None None None in
  let sent := enhancedPrompt (fst (sessionStage 100 a talkativeStore)) in
  (length (Session.turns talkativeSession) = 10)%nat
  /\ (String.length longAnswer = 1840)%nat
  /\ sent = "Previous code context: " +:+ Js.slice0 200 longAnswer +:+ "..."
            +:+ Js.LF +:+
            "Previous code context: " +:+ Js.slice0 200 longAnswer +:+ "..."
            +:+ Js.LF +:+ Js.LF +:+ "Task: Final question"
  /\ (String.length sent <= 461 + (10 + 10) + 14)%nat.
Proof.
  intros a sent.
  destruct (C7_synthesized_context_is_bounded (platform := samplePlatform) 100
              (JObj [("prompt", JStr "Final question");
                     ("sessionId", JStr "s2")])
              a "s2" talkativeStore
              (InMemorySessionStorage.touch 100
                 (InMemorySessionStorage.touch 100 talkativeSession)))
    as (Hsent & _ & _ & _ & Hlen).
  - reflexivity.
  - reflexivity.
  - reflexivity.
  - reflexivity.
  - discriminate.
  - split; [reflexivity |]. split; [vm_compute; reflexivity |].
    split; [|exact Hlen].
    etransitivity; [exact Hsent | vm_compute; reflexivity].
Defined.

(** ** C8: a review prompt and the uncommitted flag *)

(** C8, as stated, at the request [{prompt: "", uncommitted: true}]:
    the request carries both a prompt and the flag, and the review is
    run. *)
Lemma C8_counterexample :
  let args := JObj [("prompt", JStr ""); ("uncommitted", JBool true)] in
  let o := review ∅ (answers "" "") args defaultContext in
  ReviewToolSchema args
    = inr (ReviewToolArgs.make (Some "") (Some true) None None None None None)
  /\ List.map argv (spawned (events o))
     = [["-p";
         "Review staged, unstaged, and untracked changes (working tree diff). Please provide a detailed code review.";
         "--model"; "claude-sonnet-4-6"; "--output-format"; "json"]]
  /\ responseText (completion o) = Some "No review output from Claude".
Proof. repeat split; reflexivity. Qed.

(** C8, amended. A review request that carries a prompt other than the
    empty string together with [uncommitted] set to [true] fails with a
    validation error of the review tool, thrown as such and before
    anything is started; every other request that passes the schema, so
    one with only the prompt or only the flag, is accepted: the
    subprocess is started and the call does not end in a validation
    error. *)
Theorem C8_review_prompt_excludes_uncommitted
    (env : gmap string string) (run : Subprocess) (args : JsValue)
    (context : ToolHandlerContext) (a : ReviewToolArgs.t) :
  ReviewToolSchema args = inr a ->
  let o := review env run args context in
  let both :=
    (exists p, ReviewToolArgs.prompt a = Some p /\ p <> "") /\
    ReviewToolArgs.uncommitted a = Some true in
  (both ->
   events o = [] /\
   completion o =
     Thrown (ValidationError TOOLS.REVIEW (Literal
       "The review prompt cannot be combined with uncommitted=true. Use a base/commit review or omit the prompt."))) /\
  (~ both ->
   length (spawned (events o)) = 1%nat /\
   forall tool message,
     completion o <> Thrown (ValidationError tool message)).
Proof.
  intros Ha o both.
  assert (both <->
          Js.truthyOpt (ReviewToolArgs.prompt a) &&
            default false (ReviewToolArgs.uncommitted a) = true) as Hboth.
  { unfold both. rewrite andb_true_iff. split.
    - intros [(p & -> & Hp) ->]. simpl. now rewrite truthy_nonempty.
    - intros [Hp Hu]. split.
      + destruct (ReviewToolArgs.prompt a) as [p|]; [|discriminate].
        exists p. split; [reflexivity | now apply truthy_nonempty].
      + destruct (ReviewToolArgs.uncommitted a) as [[]|]; try discriminate.
        reflexivity. }
  split.
  - intros Hb. apply Hboth in Hb. unfold o, review. rewrite Ha, Hb. auto.
  - intros Hb.
    assert (Js.truthyOpt (ReviewToolArgs.prompt a) &&
              default false (ReviewToolArgs.uncommitted a) = false) as Hok.
    { destruct (_ && _); [exfalso; apply Hb, Hboth; reflexivity | reflexivity]. }
    split.
    + unfold o. now rewrite (review_spawned env run args context a Ha Hok).
    + intros tool message. unfold o, review. rewrite Ha, Hok.
      destruct (settled _) as [result|cause]; [|discriminate].
      destruct (parseReviewOutput result); discriminate.
Qed.

Lemma C8_witness :
  let refused := review ∅ (answers "" "")
                   (JObj [("prompt", JStr "Check the naming");
                          ("uncommitted", JBool true)]) defaultContext in
  let promptOnly := review ∅ (answers "" "")
                      (JObj [("prompt", JStr "Check the naming")])
                      defaultContext in
  let flagOnly := review ∅ (answers "" "")
                    (JObj [("uncommitted", JBool true)]) defaultContext in
  (events refused = [] /\
   completion refused =
     Thrown (ValidationError "review" (Literal
       "The review prompt cannot be combined with uncommitted=true. Use a base/commit review or omit the prompt.")))
  /\ length (spawned (events promptOnly)) = 1%nat
  /\ length (spawned (events flagOnly)) = 1%nat.
Proof.
  intros refused promptOnly flagOnly.
  split; [|split].
  - apply (C8_review_prompt_excludes_uncommitted ∅ (answers "" "")
             (JObj [("prompt", JStr "Check the naming");
                    ("uncommitted", JBool true)]) defaultContext
             (ReviewToolArgs.make (Some "Check the naming") (Some true) None
                None None None None) eq_refl).
    split; [|reflexivity].
    exists "Check the naming". split; [reflexivity | discriminate].
  - apply (C8_review_prompt_excludes_uncommitted ∅ (answers "" "")
             (JObj [("prompt", JStr "Check the naming")]) defaultContext
             (ReviewToolArgs.make (Some "Check the naming") None None
                None None None None) eq_refl).
    intros [_ Hu]. discriminate.
  - apply (C8_review_prompt_excludes_uncommitted ∅ (answers "" "")
             (JObj [("uncommitted", JBool true)]) defaultContext
             (ReviewToolArgs.make None (Some true) None
                None None None None) eq_refl).
    intros [(p & Hp & _) _]. discriminate.
Defined.

(** ** C9: the session id is validated before anything runs *)

Lemma allChars_spec (p : ascii -> bool) (s : string) :
  allChars p s = true <-> forall c, In c (list_ascii_of_string s) -> p c = true.
Proof.
  induction s as [|c s IH]; simpl.
  - split; [intros _ c [] | reflexivity].
  - rewrite andb_true_iff, IH. split.
    + intros [Hc Hs] c' [<-|Hin]; auto.
    + intros Hall. split; [apply Hall; now left | intros c' Hin; apply Hall; now right].
Qed.

Lemma validSessionId_wellFormed (s : string) :
  validSessionId s <-> wellFormedSessionId s.
Proof.
  unfold validSessionId, wellFormedSessionId.
  rewrite sessionIdPattern_spec, allChars_spec.
  setoid_rewrite isSessionIdChar_spec. tauto.
Qed.

Example sessionIds :
  wellFormedSessionId "sess_123-A" /\
  ~ wellFormedSessionId "" /\ ~ wellFormedSessionId "two words" /\
  ~ wellFormedSessionId "a.b" /\ ~ wellFormedSessionId "../etc/passwd".
Proof.
  rewrite <- !validSessionId_wellFormed. unfold validSessionId.
  repeat split; try (simpl; lia); intros [_ Hp]; discriminate.
Qed.

(** C9. A session id that the execute-assistant handler accepts is well
    formed; a request whose [sessionId] is anything else fails with a
    validation error of the tool, and the call has then started no
    subprocess, sent no progress and left the session store alone. *)
Theorem C9_session_id_is_validated
    `{platform : Platform} {S : Type} `{store : SessionStorage S}
    (env : gmap string string) (run : Subprocess) (clock : Clock)
    (args : JsValue) (context : ToolHandlerContext) (st : S) :
  (forall a sid,
     ClaudeToolSchema args = inr a -> ClaudeToolArgs.sessionId a = Some sid ->
     wellFormedSessionId sid) /\
  (forall props v,
     args = JObj props -> Json.member "sessionId" props = Some v ->
     (forall s, v = JStr s -> ~ wellFormedSessionId s) ->
     exists issues,
       execute env run clock args context st =
       {| storage := st; events := [];
          completion :=
            Thrown (ValidationError TOOLS.CLAUDE (ZodErrorMessage issues)) |}).
Proof.
  split.
  - intros a sid Ha Hsid. apply validSessionId_wellFormed.
    exact (ClaudeToolSchema_sessionId args a sid Ha Hsid).
  - intros props v -> Hv Hbad.
    destruct (ClaudeToolSchema (JObj props)) as [issues|a] eqn:Ha.
    + exists issues. now apply execute_rejected.
    + exfalso. apply ClaudeToolSchema_inr in Ha
        as (props' & [= <-] & _ & Hsid & _).
      rewrite Hv in Hsid. destruct Hsid as (s & -> & Hvalid & _).
      apply (Hbad s eq_refl). now apply validSessionId_wellFormed.
Qed.

Lemma C9_witness :
  (exists issues,
     sampleExecute (answers "" "")
       (JObj [("prompt", JStr "p"); ("sessionId", JStr "two words")])
       resumableStore
     = {| storage := resumableStore; events := [];
          completion :=
            Thrown (ValidationError "claude" (ZodErrorMessage issues)) |})
  /\ wellFormedSessionId "s1".
Proof.
  pose proof (C9_session_id_is_validated (platform := samplePlatform) ∅
                (answers "" "") sampleClock
                (JObj [("prompt", JStr "p"); ("sessionId", JStr "two words")])
                defaultContext resumableStore) as [_ Hbad].
  pose proof (C9_session_id_is_validated (platform := samplePlatform) ∅
                (answers "" "") sampleClock
                (JObj [("prompt", JStr "p"); ("sessionId", JStr "s1")])
                defaultContext resumableStore) as [Hgood _].
  split.
  - apply (Hbad _ (JStr "two words") eq_refl eq_refl).
    intros s [= <-]. rewrite <- validSessionId_wellFormed.
    intros [_ Hp]. discriminate.
  - apply (Hgood (ClaudeToolArgs.make "p" (Some "s1") None None None None
                    None None None None None) "s1" eq_refl eq_refl).
Defined.

(** * Further properties of the handlers *)

(** ** The ping and help handlers *)

(** X1. The ping handler answers with the [message] of the request as it
    is, the empty string included, and with [pong] only when the request
    has no [message]; a [message] that is not a string, or a request that
    is not an object, ends in a validation error tagged [ping]. It never
    starts a subprocess and sends no progress notification. *)
Theorem ping_echoes_message (args : JsValue) :
  events (ping args) = [] /\
  let echoed (s : string) :=
    completion (ping args)
    = Returned {| content := [{| text := s; meta := [] |}];
                  structuredContent := None |} in
  let refused :=
    exists issues,
      completion (ping args)
      = Thrown (ValidationError "ping" (ZodErrorMessage issues)) in
  match args with
  | JObj props =>
      match Json.member "message" props with
      | None => echoed "pong"
      | Some (JStr s) => echoed s
      | Some _ => refused
      end
  | _ => refused
  end.
Proof.
  split.
  - unfold ping. destruct (PingToolSchema args); reflexivity.
  - cbv zeta. unfold ping, PingToolSchema, object, Zod.field.
    destruct args as [| | | | |props]; simpl; eauto.
    destruct (Json.member "message" props) as [[]|]; simpl; eauto.
Qed.

(** X2. The help handler accepts any object, runs [claude --help] once
    through the non-streaming executor, without environment override and
    without a progress notification, and answers with what the process
    printed on its standard output, or with a placeholder when that is
    empty, whatever it printed on its standard error; a failing process
    ends in an execution error tagged [help] that carries the cause. *)
Theorem help_runs_claude_help (run : Subprocess)
    (props : list (string * JsValue)) :
  let o := help run (JObj props) in
  let inv := {| file := "claude"; argv := ["--help"];
                envOverride := None; streaming := false |} in
  events o = [Spawn inv] /\
  match settled (run inv) with
  | Resolved result =>
      completion o
      = Returned
          {| content :=
               [{| text := if decide (stdout result = "")
                           then "No help information available"
                           else stdout result;
                   meta := [] |}];
             structuredContent := None |}
  | Rejected cause =>
      completion o
      = Thrown (ToolExecutionError "help" "Failed to execute help command"
                  cause)
  end.
Proof.
  cbv zeta. unfold help, HelpToolSchema, object.
  destruct (settled _) as [result|cause]; simpl; [|auto].
  split; [reflexivity |].
  destruct (stdout result) as [|c s]; reflexivity.
Qed.

(** ** How a call of the execute-assistant handler ends *)

Lemma selectModel_nonempty (env : gmap string string) (model : option string) :
  selectModel env model <> "".
Proof.
  unfold selectModel, Js.orDefault, Js.or, Js.truthyOpt.
  destruct model as [[|c m]|]; simpl;
    destruct (env !! CLAUDE_DEFAULT_MODEL_ENV_VAR) as [[|c' m']|]; simpl;
    discriminate.
Qed.

Lemma sentArgs_execute `{platform : Platform} {S : Type}
    `{store : SessionStorage S} (env : gmap string string) (run : Subprocess)
    (clock : Clock) (args : JsValue) (context : ToolHandlerContext) (st : S)
    (a : ClaudeToolArgs.t) :
  ClaudeToolSchema args = inr a ->
  sentArgs (execute env run clock args context st)
  = Some (cmdArgs a (fst (sessionStage (atStart clock) a st))
            (selectModel env (ClaudeToolArgs.model a))).
Proof.
  intros Ha. unfold sentArgs.
  now rewrite (execute_spawned env run clock args context st a Ha).
Qed.

(** X3. A call of the execute-assistant handler ends in a validation
    error exactly when the schema refuses the request, and then nothing
    has happened: no progress notification, no subprocess, the store as
    it was. A request the schema accepts starts the [claude] executable
    exactly once; the call ends in an execution error, which carries the
    cause, exactly when that process fails, and in no error when the
    process exits normally. *)
Theorem execute_error_taxonomy `{platform : Platform} {S : Type}
    `{store : SessionStorage S} (env : gmap string string) (run : Subprocess)
    (clock : Clock) (args : JsValue) (context : ToolHandlerContext) (st : S) :
  let o := execute env run clock args context st in
  match ClaudeToolSchema args with
  | inl issues =>
      o = {| storage := st; events := [];
             completion :=
               Thrown (ValidationError "claude" (ZodErrorMessage issues)) |}
  | inr a =>
      exists inv,
        spawned (events o) = [inv] /\ file inv = "claude" /\
        match settled (run inv) with
        | Rejected cause =>
            completion o
            = Thrown (ToolExecutionError "claude"
                        "Failed to execute claude command" cause)
        | Resolved _ => forall e, completion o <> Thrown e
        end
  end.
Proof.
  cbv zeta. destruct (ClaudeToolSchema args) as [issues|a] eqn:Ha.
  - exact (execute_rejected env run clock args context st issues Ha).
  - eexists. split; [exact (execute_spawned env run clock args context st a Ha) |].
    split; [reflexivity |].
    unfold execute. rewrite Ha.
    destruct (sessionStage (atStart clock) a st) as [stage st']. simpl fst.
    destruct (settled _) as [result|cause]; [|reflexivity].
    intros e. destruct (parseOutput result); discriminate.
Qed.

(** X4. The result of a returning call has exactly one content item. Its
    metadata always names the model that was selected and, exactly when
    the request supplied a session id, that id as [sessionId]: the
    caller's id, never the identifier the subprocess printed. The
    [structuredContent] of the result is that same metadata when the
    environment enables structured content and absent otherwise. *)
Theorem execute_metadata `{platform : Platform} {S : Type}
    `{store : SessionStorage S} (env : gmap string string) (run : Subprocess)
    (clock : Clock) (args : JsValue) (context : ToolHandlerContext) (st : S)
    (a : ClaudeToolArgs.t) (result : ToolResult) :
  ClaudeToolSchema args = inr a ->
  completion (execute env run clock args context st) = Returned result ->
  let metadata :=
    ("model", selectModel env (ClaudeToolArgs.model a)) ::
    match ClaudeToolArgs.sessionId a with
    | Some sid => [("sessionId", sid)]
    | None => []
    end in
  (exists response,
     content result = [{| text := response; meta := metadata |}]) /\
  structuredContent result
  = if isStructuredContentEnabled env then Some metadata else None.
Proof.
  intros Ha Hret metadata.
  assert (claudeMetadata a (selectModel env (ClaudeToolArgs.model a))
          = metadata) as Hmeta.
  { unfold claudeMetadata, metadata.
    pose proof (selectModel_nonempty env (ClaudeToolArgs.model a)) as Hm.
    apply truthy_nonempty in Hm. rewrite Hm.
    destruct (ClaudeToolArgs.sessionId a) as [sid|] eqn:Hsid; [|reflexivity].
    pose proof (ClaudeToolSchema_sessionId _ _ _ Ha Hsid) as [_ Hpat].
    apply sessionIdPattern_spec in Hpat as [Hne _].
    apply truthy_nonempty in Hne. now rewrite Hne. }
  unfold execute in Hret. rewrite Ha in Hret.
  destruct (sessionStage (atStart clock) a st) as [stage st'].
  destruct (settled _) as [res|cause]; [|discriminate].
  destruct (parseOutput res) as [response extracted|]; [|discriminate].
  injection Hret as <-. simpl. rewrite Hmeta. split; [eauto |].
  unfold metadata. simpl. now rewrite andb_true_r.
Qed.

Lemma execute_metadata_witness :
  let args := JObj [("prompt", JStr "p"); ("sessionId", JStr "s1")] in
  let env : gmap string string := {[ "STRUCTURED_CONTENT_ENABLED" := "TRUE" ]} in
  let o := execute (platform := samplePlatform) env
             (answers (Json.quoted "{'result':'R','session_id':'cli-7'}") "")
             sampleClock args defaultContext InMemorySessionStorage.empty in
  exists result,
    completion o = Returned result /\
    structuredContent result
    = Some [("model", "claude-sonnet-4-6"); ("sessionId", "s1")].
Proof.
  intros args env o.
  assert (exists result, completion o = Returned result) as [result Hret]
    by (eexists; reflexivity).
  exists result. split; [exact Hret |].
  destruct (execute_metadata (platform := samplePlatform) env
              (answers (Json.quoted "{'result':'R','session_id':'cli-7'}") "")
              sampleClock args defaultContext InMemorySessionStorage.empty
              (ClaudeToolArgs.make "p" (Some "s1") None None None None None
                 None None None None) result eq_refl Hret) as [_ Hstructured].
  rewrite Hstructured. reflexivity.
Defined.

(** ** The request schema, property by property *)

Section SchemaFields.
Context `{platform : Platform}.

(** The execute-assistant schema accepts an object exactly when each of
    its eleven properties passes, and the record it yields holds what
    each property was read as. *)
Lemma ClaudeToolSchema_fields (props : list (string * JsValue))
    (a : ClaudeToolArgs.t) :
  ClaudeToolSchema (JObj props) = inr a <->
  match Json.member "prompt" props with
  | Some v => Zod.string_ [] ["prompt"] v
  | None => inl [Zod.invalid_type ["prompt"] "string"]
  end = inr (ClaudeToolArgs.prompt a) /\
  Zod.field props (Zod.string_
    [Zod.max 256 "Session ID must be 256 characters or fewer" ["sessionId"];
     Zod.regex sessionIdPattern
       "Session ID can only contain letters, numbers, hyphens, and underscores"
       ["sessionId"]]) "sessionId" = inr (ClaudeToolArgs.sessionId a) /\
  Zod.field props Zod.boolean "resetSession"
    = inr (ClaudeToolArgs.resetSession a) /\
  Zod.field props (Zod.string_ []) "model" = inr (ClaudeToolArgs.model a) /\
  Zod.field props (Zod.string_ []) "workingDirectory"
    = inr (ClaudeToolArgs.workingDirectory a) /\
  Zod.field props (Zod.string_ []) "allowedTools"
    = inr (ClaudeToolArgs.allowedTools a) /\
  Zod.field props Zod.boolean "dangerouslySkipPermissions"
    = inr (ClaudeToolArgs.dangerouslySkipPermissions a) /\
  Zod.field props (Zod.enum ["text"; "json"; "stream-json"]) "outputFormat"
    = inr (ClaudeToolArgs.outputFormat a) /\
  Zod.field props Zod.positiveInt "maxTurns"
    = inr (ClaudeToolArgs.maxTurns a) /\
  Zod.field props Zod.urlString "routerBaseUrl"
    = inr (ClaudeToolArgs.routerBaseUrl a) /\
  Zod.field props (Zod.array ProviderSchema 5) "fallbackProviders"
    = inr (ClaudeToolArgs.fallbackProviders a).
Proof.
  unfold ClaudeToolSchema, object. split.
  - intros Hm. apply map_inr in Hm as (tuple & Hb & ->).
    destruct tuple as (p & sid & rs & m & wd & at_ & skip & fmt & mt & url & fb).
    repeat (apply both_inr in Hb as [?Hf Hb]); simpl in *.
    repeat split; assumption.
  - intros (H1 & H2 & H3 & H4 & H5 & H6 & H7 & H8 & H9 & H10 & H11).
    rewrite H1, H2, H3, H4, H5, H6, H7, H8, H9, H10, H11.
    destruct a; reflexivity.
Qed.

Lemma ClaudeToolSchema_object (args : JsValue) (a : ClaudeToolArgs.t) :
  ClaudeToolSchema args = inr a -> exists props, args = JObj props.
Proof. destruct args; try discriminate. eauto. Qed.

(** An integer is a finite number. *)
Lemma toInteger_finite (m e n : Z) :
  Json.toInteger m e = Some n -> exists double, Json.toDouble m e = Some double.
Proof.
  unfold Json.toInteger. destruct (Json.toDouble m e) as [double|]; [eauto |].
  discriminate.
Qed.

(** An accepted [maxTurns] is a positive integer. *)
Lemma ClaudeToolSchema_maxTurns (args : JsValue) (a : ClaudeToolArgs.t)
    (n : Z) :
  ClaudeToolSchema args = inr a -> ClaudeToolArgs.maxTurns a = Some n ->
  0 < n <= Zod.MAX_SAFE_INTEGER.
Proof.
  intros Ha Hn. destruct (ClaudeToolSchema_object args a Ha) as [props ->].
  apply ClaudeToolSchema_fields in Ha
    as (_ & _ & _ & _ & _ & _ & _ & _ & Hmt & _).
  unfold Zod.field in Hmt. apply optional_inr in Hmt.
  destruct (Json.member "maxTurns" props) as [v|]; [|congruence].
  destruct Hmt as (n' & Hv & Hn'). assert (n' = n) as -> by congruence.
  unfold Zod.positiveInt in Hv. destruct v; try discriminate.
  destruct (Json.toDouble m e) as [double|]; [|discriminate].
  destruct (Json.toInteger m e) as [k|]; [|discriminate].
  destruct (Zod.MAX_SAFE_INTEGER <? k) eqn:H1; [discriminate |].
  destruct (k <? - Zod.MAX_SAFE_INTEGER) eqn:H2; [discriminate |].
  destruct (k <=? 0) eqn:H3; [discriminate |].
  injection Hv as <-. lia.
Qed.

(** An accepted [routerBaseUrl] is a string the URL parser accepts. *)
Lemma ClaudeToolSchema_routerBaseUrl (args : JsValue) (a : ClaudeToolArgs.t)
    (url : string) :
  ClaudeToolSchema args = inr a -> ClaudeToolArgs.routerBaseUrl a = Some url ->
  URL_canParse url = true.
Proof.
  intros Ha Hu. destruct (ClaudeToolSchema_object args a Ha) as [props ->].
  apply ClaudeToolSchema_fields in Ha
    as (_ & _ & _ & _ & _ & _ & _ & _ & _ & Hurl & _).
  unfold Zod.field in Hurl. apply optional_inr in Hurl.
  destruct (Json.member "routerBaseUrl" props) as [v|]; [|congruence].
  destruct Hurl as (u & Hv & Hu'). assert (u = url) as -> by congruence.
  destruct v; try discriminate. unfold Zod.urlString in Hv. cbv zeta in Hv.
  destruct (URL_canParse (Js.trim s)) eqn:Hs; [|discriminate].
  now injection Hv as <-.
Qed.

End SchemaFields.

(** ** Progress notifications and the environment of the subprocess *)

(** X5. A call that passes validation first sends the notification
    [Starting Claude execution...] with progress 0, then starts the
    subprocess. The streaming executor is used, and every message it
    reports forwarded in order as a notification without a progress
    number, exactly when the context holds a progress token other than
    the number 0 and the empty string; otherwise that first notification
    is the only one. *)
Theorem execute_progress `{platform : Platform} {S : Type}
    `{store : SessionStorage S} (env : gmap string string) (run : Subprocess)
    (clock : Clock) (args : JsValue) (context : ToolHandlerContext) (st : S)
    (a : ClaudeToolArgs.t) :
  ClaudeToolSchema args = inr a ->
  exists inv,
    streaming inv
    = match progressToken context with
      | Some (TokenString s) => bool_decide (s <> "")
      | Some (TokenNumber n) => bool_decide (n <> 0)
      | None => false
      end /\
    events (execute env run clock args context st)
    = Progress "Starting Claude execution..." (Some 0) :: Spawn inv ::
      if streaming inv
      then List.map (fun message => Progress message None) (chunks (run inv))
      else [].
Proof.
  intros Ha.
  exists (invocation a context
            (cmdArgs a (fst (sessionStage (atStart clock) a st))
               (selectModel env (ClaudeToolArgs.model a)))).
  split; cycle 1.
  - unfold execute. rewrite Ha.
    destruct (sessionStage (atStart clock) a st) as [stage st'].
    destruct (settled _) as [result|cause]; [|reflexivity].
    destruct (parseOutput result); reflexivity.
  - simpl. unfold useStreaming.
    destruct (progressToken context) as [[s|n]|]; [| |reflexivity].
    + destruct s; reflexivity.
    + destruct (Z.eqb_spec n 0) as [->|Hn]; simpl; [reflexivity |].
      now rewrite bool_decide_eq_true_2.
Qed.

Lemma execute_progress_witness :
  let run : Subprocess :=
    fun _ => {| chunks := ["one"; "two"];
                settled := Resolved {| stdout := "done"; stderr := "" |} |} in
  let notifications (token : option ProgressToken) :=
    List.length
      (events (execute (platform := samplePlatform) ∅ run sampleClock
                 (JObj [("prompt", JStr "p")]) {| progressToken := token |}
                 InMemorySessionStorage.empty)) in
  notifications (Some (TokenString "t1")) = 4%nat /\
  notifications (Some (TokenNumber 0)) = 2%nat /\
  notifications None = 2%nat.
Proof.
  intros run notifications.
  pose proof (fun token =>
    execute_progress (platform := samplePlatform) ∅ run sampleClock
      (JObj [("prompt", JStr "p")]) {| progressToken := token |}
      InMemorySessionStorage.empty
      (ClaudeToolArgs.make "p" None None None None None None None None None
         None) eq_refl) as Hcall.
  unfold notifications.
  split; [|split].
  - destruct (Hcall (Some (TokenString "t1"))) as (inv & Hs & ->).
    rewrite Hs. reflexivity.
  - destruct (Hcall (Some (TokenNumber 0))) as (inv & Hs & ->).
    rewrite Hs. reflexivity.
  - destruct (Hcall None) as (inv & Hs & ->). rewrite Hs. reflexivity.
Defined.

(** X6. The subprocess of the execute-assistant handler gets an
    environment override exactly when the request carries a non-empty
    [routerBaseUrl]; the override then consists of the one variable
    [ANTHROPIC_BASE_URL], set to that URL, which has passed the URL check
    of the schema. *)
Theorem router_url_environment `{platform : Platform} {S : Type}
    `{store : SessionStorage S} (env : gmap string string) (run : Subprocess)
    (clock : Clock) (args : JsValue) (context : ToolHandlerContext) (st : S)
    (a : ClaudeToolArgs.t) (inv : Invocation) :
  ClaudeToolSchema args = inr a ->
  In inv (spawned (events (execute env run clock args context st))) ->
  match envOverride inv with
  | Some override =>
      exists url,
        ClaudeToolArgs.routerBaseUrl a = Some url /\ url <> "" /\
        URL_canParse url = true /\
        override = [("ANTHROPIC_BASE_URL", url)]
  | None =>
      ClaudeToolArgs.routerBaseUrl a = None \/
      ClaudeToolArgs.routerBaseUrl a = Some ""
  end.
Proof.
  intros Ha Hin.
  rewrite (execute_spawned env run clock args context st a Ha) in Hin.
  destruct Hin as [<-|[]]. simpl.
  destruct (ClaudeToolArgs.routerBaseUrl a) as [url|] eqn:Hurl; [|now left].
  pose proof (ClaudeToolSchema_routerBaseUrl args a url Ha Hurl) as Hcan.
  destruct url as [|c u]; simpl; [now right |].
  eexists. repeat split; [discriminate | exact Hcan].
Qed.

Lemma router_url_environment_witness :
  let a := ClaudeToolArgs.make "p" None None None None None None None None
             (Some "http://localhost:3456") None in
  exists url,
    ClaudeToolArgs.routerBaseUrl a = Some url /\ url <> "" /\
    URL_canParse (Platform := samplePlatform) url = true /\
    [("ANTHROPIC_BASE_URL", "http://localhost:3456")]
    = [("ANTHROPIC_BASE_URL", url)].
Proof.
  intros a.
  exact (router_url_environment (platform := samplePlatform) ∅
           (answers "ok" "") sampleClock
           (JObj [("prompt", JStr "p");
                  ("routerBaseUrl", JStr "http://localhost:3456")])
           defaultContext InMemorySessionStorage.empty a
           (invocation a defaultContext
              ["-p"; "p"; "--model"; "claude-sonnet-4-6";
               "--output-format"; "json"])
           eq_refl (or_introl eq_refl)).
Defined.

(** ** The argument list of a new conversation *)

(** X7. In fresh mode the argument list is the prompt sent, the model
    and the output format, followed by the optional flags in a fixed
    order: the turn limit, the permission bypass, the tool allowlist and
    the working directory. A turn limit the schema accepted is positive
    and is always passed on, as its decimal numeral; the bypass flag is
    passed exactly for [true]; the allowlist and the working directory
    are passed unless they are the empty string. *)
Theorem fresh_mode_optional_flags `{platform : Platform} {S : Type}
    `{store : SessionStorage S} (env : gmap string string) (run : Subprocess)
    (clock : Clock) (args : JsValue) (context : ToolHandlerContext) (st : S)
    (a : ClaudeToolArgs.t) :
  ClaudeToolSchema args = inr a ->
  resumeMode (fst (sessionStage (atStart clock) a st)) = false ->
  let flag (name : string) (value : option string) :=
    match value with
    | Some s => if decide (s = "") then [] else [name; s]
    | None => []
    end in
  let sent := enhancedPrompt (fst (sessionStage (atStart clock) a st)) in
  sentArgs (execute env run clock args context st)
    = Some (["-p"; sent; "--model"; selectModel env (ClaudeToolArgs.model a);
             "--output-format"; default "json" (ClaudeToolArgs.outputFormat a)]
            ++ match ClaudeToolArgs.maxTurns a with
               | Some n => ["--max-turns"; pretty n]
               | None => []
               end
            ++ (if decide (ClaudeToolArgs.dangerouslySkipPermissions a
                           = Some true)
                then ["--dangerously-skip-permissions"] else [])
            ++ flag "--allowedTools" (ClaudeToolArgs.allowedTools a)
            ++ flag "--cwd" (ClaudeToolArgs.workingDirectory a))
    /\ match ClaudeToolArgs.maxTurns a with
       | Some n => 0 < n
       | None => True
       end.
Proof.
  intros Ha Hmode flag sent.
  rewrite (sentArgs_execute env run clock args context st a Ha).
  assert (forall name value, pushOpt name value = flag name value) as Hflag.
  { intros name [[|c s]|]; reflexivity. }
  split.
  - f_equal. unfold cmdArgs. unfold resumeMode in Hmode.
    destruct (resumeHandle _); [discriminate |].
    rewrite !Hflag.
    assert (match ClaudeToolArgs.outputFormat a with
            | Some format =>
                if Js.truthy format then ["--output-format"; format]
                else ["--output-format"; "json"]
            | None => ["--output-format"; "json"]
            end
            = ["--output-format";
               default "json" (ClaudeToolArgs.outputFormat a)]) as ->.
    { destruct (ClaudeToolArgs.outputFormat a) as [f|] eqn:Hf; [|reflexivity].
      destruct (ClaudeToolSchema_outputFormat args a f Ha Hf)
        as [->|[->| ->]]; reflexivity. }
    assert (match ClaudeToolArgs.maxTurns a with
            | Some n => if n =? 0 then [] else ["--max-turns"; Js.ofInt n]
            | None => []
            end
            = match ClaudeToolArgs.maxTurns a with
              | Some n => ["--max-turns"; pretty n]
              | None => []
              end) as ->.
    { destruct (ClaudeToolArgs.maxTurns a) as [n|] eqn:Hn; [|reflexivity].
      pose proof (ClaudeToolSchema_maxTurns args a n Ha Hn) as Hpos.
      destruct (Z.eqb_spec n 0); [lia | reflexivity]. }
    destruct (ClaudeToolArgs.dangerouslySkipPermissions a) as [[]|];
      reflexivity.
  - destruct (ClaudeToolArgs.maxTurns a) as [n|] eqn:Hn; [|exact I].
    now apply (ClaudeToolSchema_maxTurns args a n Ha Hn).
Qed.

Lemma fresh_mode_optional_flags_witness :
  let args := JObj [("prompt", JStr "p"); ("maxTurns", JNum 3 0);
                    ("dangerouslySkipPermissions", JBool true);
                    ("allowedTools", JStr "Read,Grep");
                    ("workingDirectory", JStr "/repo");
                    ("outputFormat", JStr "text")] in
  sentArgs (sampleExecute (answers "ok" "") args InMemorySessionStorage.empty)
  = Some ["-p"; "p"; "--model"; "claude-sonnet-4-6"; "--output-format"; "text";
          "--max-turns"; "3"; "--dangerously-skip-permissions";
          "--allowedTools"; "Read,Grep"; "--cwd"; "/repo"].
Proof.
  intros args.
  destruct (fresh_mode_optional_flags (platform := samplePlatform) ∅
              (answers "ok" "") sampleClock args defaultContext
              InMemorySessionStorage.empty
              (ClaudeToolArgs.make "p" None None None (Some "/repo")
                 (Some "Read,Grep") (Some true) (Some "text") (Some 3) None
                 None) eq_refl eq_refl) as [Hsent _].
  unfold sampleExecute. etransitivity; [exact Hsent | reflexivity].
Defined.

(** ** Reading the output of the subprocess *)

Lemma parse_nonempty (text : string) (v : JsValue) :
  Json.parse text = Some v -> text <> "".
Proof. intros Hp ->. discriminate. Qed.

Lemma resultField_None (v : option JsValue) (raw : string) :
  resultField v raw = None ->
  exists w, v = Some w /\ w <> JNull /\ forall s, w <> JStr s.
Proof.
  destruct v as [w|]; [|discriminate]. intros Hr. exists w.
  split; [reflexivity |]. destruct w; try discriminate; split; discriminate.
Qed.

Lemma sessionIdField_None (v : option JsValue) :
  sessionIdField v = None ->
  exists w, v = Some w /\ Json.truthy w = true /\ forall s, w <> JStr s.
Proof.
  destruct v as [w|]; [|discriminate]. intros Hr. exists w.
  split; [reflexivity |]. split.
  - assert ((exists s, w = JStr s) \/
            sessionIdField (Some w)
            = if Json.truthy w then None else Some None) as [[s ->]|Hw]
      by (destruct w; eauto).
    + discriminate.
    + rewrite Hw in Hr. now destruct (Json.truthy w).
  - intros s ->. discriminate.
Qed.

(** X8. When the standard output of the subprocess is valid JSON, the
    response is the [result] string of the object it denotes, and the
    whole standard output when the JSON value is not an object or the
    object has no [result] or a [null] one; the standard error and the
    placeholder are not used. Only an object whose [result] is neither a
    string nor [null], or whose [session_id] is truthy and not a string,
    leaves the typed behaviour of the handler. *)
Theorem json_output_text `{platform : Platform} {S : Type}
    `{store : SessionStorage S} (env : gmap string string) (run : Subprocess)
    (clock : Clock) (args : JsValue) (context : ToolHandlerContext) (st : S)
    (a : ClaudeToolArgs.t) (result : CommandResult) (v : JsValue) :
  ClaudeToolSchema args = inr a ->
  answered (execute env run clock args context st) run result ->
  Json.parse (stdout result) = Some v ->
  let o := execute env run clock args context st in
  let offType (w : JsValue) := forall s, w <> JStr s in
  match responseText (completion o) with
  | Some response =>
      response
      = match v with
        | JObj props =>
            match Json.member "result" props with
            | Some (JStr X) => X
            | _ => stdout result
            end
        | _ => stdout result
        end
  | None =>
      completion o = OffType /\
      exists props, v = JObj props /\
        ((exists w, Json.member "result" props = Some w /\
                    w <> JNull /\ offType w) \/
         (exists w, Json.member "session_id" props = Some w /\
                    Json.truthy w = true /\ offType w))
  end.
Proof.
  intros Ha Hrun Hparse o offType.
  destruct (parseOutput result) as [response extracted|] eqn:Hout.
  - destruct (execute_resolved env run clock args context st a result
                response extracted Ha Hrun Hout) as [Htext _].
    fold o in Htext. rewrite Htext.
    unfold parseOutput in Hout. rewrite Hparse in Hout.
    pose proof (parse_nonempty _ _ Hparse) as Hne.
    destruct v as [| | | | |props]; try (now injection Hout as <- _).
    + injection Hout as <- _. rewrite rawOutput_fallback.
      destruct (decide (stdout result = "")); [contradiction | reflexivity].
    + destruct (Json.member "result" props) as [[]|]; simpl in Hout;
        try discriminate;
        destruct (sessionIdField _); try discriminate;
        now injection Hout as <- _.
  - assert (completion o = OffType) as Hoff.
    { unfold answered in Hrun.
      rewrite (execute_spawned env run clock args context st a Ha) in Hrun.
      specialize (Hrun _ (or_introl eq_refl)).
      unfold o, execute. rewrite Ha.
      destruct (sessionStage (atStart clock) a st) as [stage st'].
      simpl in *. now rewrite Hrun, Hout. }
    rewrite Hoff. simpl. split; [reflexivity |].
    unfold parseOutput in Hout. rewrite Hparse in Hout.
    destruct v as [| | | | |props]; try discriminate.
    exists props. split; [reflexivity |].
    destruct (resultField _ _) as [response|] eqn:Hres.
    + right. apply sessionIdField_None.
      now destruct (sessionIdField _).
    + left. now apply resultField_None in Hres.
Qed.

Lemma json_output_text_witness :
  responseText (completion
    (sampleExecute (answers "[1, 2]" "warning") (JObj [("prompt", JStr "p")])
       InMemorySessionStorage.empty)) = Some "[1, 2]".
Proof.
  pose proof (json_output_text (platform := samplePlatform) ∅
                (answers "[1, 2]" "warning") sampleClock
                (JObj [("prompt", JStr "p")]) defaultContext
                InMemorySessionStorage.empty
                (ClaudeToolArgs.make "p" None None None None None None None
                   None None None)
                {| stdout := "[1, 2]"; stderr := "warning" |}
                (JArr [JNum 1 0; JNum 2 0])
                eq_refl (fun _ _ => eq_refl) eq_refl) as Htext.
  cbv zeta in Htext. unfold sampleExecute.
  destruct (responseText _) as [response|].
  - now subst response.
  - destruct Htext as [_ (props & Hobj & _)]. discriminate.
Defined.

(** ** Properties of the request that play no part *)

Lemma member_skip (key k : string) (v : JsValue)
    (before after : list (string * JsValue)) :
  k <> key ->
  Json.member key (before ++ (k, v) :: after)
  = Json.member key (before ++ after).
Proof.
  intros Hk. induction before as [|[k' v'] before IH]; simpl.
  - destruct (Json.member key after); [reflexivity |].
    destruct (String.eqb_spec k key); [contradiction | reflexivity].
  - now rewrite IH.
Qed.

(** X9. A property of the request that the schema does not name is
    ignored: wherever it stands in the request and whatever its value,
    the call validates, runs and ends as it does without it. *)
Theorem unknown_properties_are_ignored `{platform : Platform} {S : Type}
    `{store : SessionStorage S} (env : gmap string string) (run : Subprocess)
    (clock : Clock) (context : ToolHandlerContext) (st : S)
    (before after : list (string * JsValue)) (k : string) (v : JsValue) :
  ~ In k ["prompt"; "sessionId"; "resetSession"; "model"; "workingDirectory";
          "allowedTools"; "dangerouslySkipPermissions"; "outputFormat";
          "maxTurns"; "routerBaseUrl"; "fallbackProviders"] ->
  execute env run clock (JObj (before ++ (k, v) :: after)) context st
  = execute env run clock (JObj (before ++ after)) context st.
Proof.
  intros Hk.
  assert (ClaudeToolSchema (JObj (before ++ (k, v) :: after))
          = ClaudeToolSchema (JObj (before ++ after))) as Hschema.
  { unfold ClaudeToolSchema, object, Zod.field.
    rewrite !(member_skip _ k v before after);
      try (intros ->; apply Hk; simpl; tauto).
    reflexivity. }
  unfold execute. now rewrite Hschema.
Qed.

Lemma unknown_properties_are_ignored_witness :
  sampleExecute (answers "ok" "")
    (JObj [("prompt", JStr "p"); ("temperature", JNum 7 (-1))])
    InMemorySessionStorage.empty
  = sampleExecute (answers "ok" "") (JObj [("prompt", JStr "p")])
      InMemorySessionStorage.empty.
Proof.
  apply (unknown_properties_are_ignored (platform := samplePlatform) ∅
           (answers "ok" "") sampleClock defaultContext
           InMemorySessionStorage.empty [("prompt", JStr "p")] []
           "temperature" (JNum 7 (-1))).
  simpl. intros H. repeat (destruct H as [H|H]; [discriminate |]). exact H.
Defined.

(** X10. The list of fallback providers is validated and then unused:
    two requests that the schema accepts and that differ in that property
    only lead to the same subprocess, the same result and the same
    store. *)
Theorem fallback_providers_are_unused `{platform : Platform} {S : Type}
    `{store : SessionStorage S} (env : gmap string string) (run : Subprocess)
    (clock : Clock) (context : ToolHandlerContext) (st : S)
    (before after : list (string * JsValue)) (v : JsValue)
    (a a' : ClaudeToolArgs.t) :
  ClaudeToolSchema (JObj (before ++ after)) = inr a ->
  ClaudeToolSchema (JObj (before ++ ("fallbackProviders", v) :: after))
    = inr a' ->
  execute env run clock
    (JObj (before ++ ("fallbackProviders", v) :: after)) context st
  = execute env run clock (JObj (before ++ after)) context st.
Proof.
  intros Ha Ha'. unfold execute. rewrite Ha, Ha'.
  apply ClaudeToolSchema_fields in Ha
    as (H1 & H2 & H3 & H4 & H5 & H6 & H7 & H8 & H9 & H10 & _).
  apply ClaudeToolSchema_fields in Ha'
    as (H1' & H2' & H3' & H4' & H5' & H6' & H7' & H8' & H9' & H10' & _).
  unfold Zod.field in *.
  rewrite !(member_skip _ "fallbackProviders" v before after) in *
    by discriminate.
  destruct a as [p sid rs m wd tools skip fmt mt url fb],
           a' as [p' sid' rs' m' wd' tools' skip' fmt' mt' url' fb'].
  simpl in *.
  assert (p' = p) as -> by congruence.
  assert (sid' = sid) as -> by congruence.
  assert (rs' = rs) as -> by congruence.
  assert (m' = m) as -> by congruence.
  assert (wd' = wd) as -> by congruence.
  assert (tools' = tools) as -> by congruence.
  assert (skip' = skip) as -> by congruence.
  assert (fmt' = fmt) as -> by congruence.
  assert (mt' = mt) as -> by congruence.
  assert (url' = url) as -> by congruence.
  reflexivity.
Qed.

Lemma fallback_providers_are_unused_witness :
  sampleExecute (answers "ok" "")
    (JObj [("prompt", JStr "p");
           ("fallbackProviders",
            JArr [JObj [("routerBaseUrl", JStr "http://localhost:3456");
                        ("model", JStr "m")]])])
    InMemorySessionStorage.empty
  = sampleExecute (answers "ok" "") (JObj [("prompt", JStr "p")])
      InMemorySessionStorage.empty.
Proof.
  exact (fallback_providers_are_unused (platform := samplePlatform) ∅
           (answers "ok" "") sampleClock defaultContext
           InMemorySessionStorage.empty [("prompt", JStr "p")] []
           (JArr [JObj [("routerBaseUrl", JStr "http://localhost:3456");
                        ("model", JStr "m")]])
           (ClaudeToolArgs.make "p" None None None None None None None None
              None None)
           (ClaudeToolArgs.make "p" None None None None None None None None
              None
              (Some [{| provider_routerBaseUrl := Some "http://localhost:3456";
                        provider_model := Some "m" |}]))
           eq_refl eq_refl).
Defined.

(** ** Calls on a lawful session store *)

(** The in-memory store is lawful. *)
#[export] Instance inMemoryLaws : SessionStorageLaws (gmap string Session.t).
Proof.
  refine {| known := fun sid st => is_Some (st !! sid);
            history := InMemorySessionStorage.turnsOf |}.
  - exact InMemoryFacts.ensure_is_Some.
  - intros sid st. apply InMemoryFacts.reset_is_Some.
  - intros now sid st. apply InMemoryFacts.getSession_is_Some.
  - intros now sid st [s Hs]. simpl.
    unfold InMemorySessionStorage.getSession,
      InMemorySessionStorage.turnsOf. rewrite Hs. simpl. eauto.
  - exact InMemoryFacts.handle_ensure.
  - exact InMemoryFacts.handle_reset.
  - exact InMemoryFacts.handle_getSession.
  - exact InMemoryFacts.handle_addTurn.
  - intros sid handle st [s Hs]. simpl.
    rewrite InMemoryFacts.handle_set, Hs. now rewrite decide_True.
  - intros sid sid' handle st Hne. simpl.
    rewrite InMemoryFacts.handle_set. now rewrite decide_False.
  - exact InMemoryFacts.turns_ensure.
  - exact InMemoryFacts.turns_reset.
  - exact InMemoryFacts.turns_getSession.
  - exact InMemoryFacts.turns_addTurn.
  - exact InMemoryFacts.turns_set.
Defined.

Section LawfulStore.
Context `{platform : Platform} {S : Type} `{store : SessionStorage S}.
Context `{!SessionStorageLaws S}.

(** The session block leaves every session as it was, except that it
    clears the one the request asks to reset. *)
Lemma sessionStage_observed (now : Z) (a : ClaudeToolArgs.t) (st : S)
    (sid : string) :
  getClaudeSessionId sid (snd (sessionStage now a st))
  = (if resetsSession a sid then None else getClaudeSessionId sid st) /\
  history sid (snd (sessionStage now a st))
  = (if resetsSession a sid then [] else history sid st).
Proof.
  unfold sessionStage, resetsSession.
  destruct (ClaudeToolArgs.sessionId a) as [active|]; [|auto].
  destruct (Js.truthy active); [|auto]. cbv zeta.
  set (st2 := if default false (ClaudeToolArgs.resetSession a)
              then resetSession active (ensureSession now active st)
              else ensureSession now active st).
  assert (getClaudeSessionId sid st2
          = (if true && default false (ClaudeToolArgs.resetSession a) &&
                bool_decide (active = sid)
             then None else getClaudeSessionId sid st) /\
          history sid st2
          = (if true && default false (ClaudeToolArgs.resetSession a) &&
                bool_decide (active = sid)
             then [] else history sid st)) as [Hh Ht].
  { unfold st2. destruct (default false _); simpl.
    - rewrite law_handle_reset, law_history_reset,
        law_handle_ensure, law_history_ensure.
      destruct (decide (active = sid)) as [->|Hne].
      + now rewrite bool_decide_eq_true_2.
      + now rewrite bool_decide_eq_false_2.
    - now rewrite law_handle_ensure, law_history_ensure. }
  destruct (Js.truthyOpt _); [simpl; auto |].
  destruct (getSession now active st2) as [session st3] eqn:Hget.
  simpl snd. change st3 with (snd (session, st3)). rewrite <- Hget.
  now rewrite law_handle_getSession, law_history_getSession.
Qed.

(** The session block leaves the session it names known to the store. *)
Lemma sessionStage_known (now : Z) (a : ClaudeToolArgs.t) (st : S)
    (sid : string) :
  ClaudeToolArgs.sessionId a = Some sid -> sid <> "" ->
  known sid (snd (sessionStage now a st)).
Proof.
  intros Hsid Hne. apply truthy_nonempty in Hne.
  unfold sessionStage. rewrite Hsid, Hne. cbv zeta.
  set (st2 := if default false (ClaudeToolArgs.resetSession a)
              then resetSession sid (ensureSession now sid st)
              else ensureSession now sid st).
  assert (known sid st2) as Hknown.
  { unfold st2. destruct (default false _).
    - apply law_known_reset, law_known_ensure.
    - apply law_known_ensure. }
  destruct (Js.truthyOpt _); [exact Hknown |].
  destruct (getSession now sid st2) as [session st3] eqn:Hget.
  simpl snd. change st3 with (snd (session, st3)). rewrite <- Hget.
  now apply law_known_getSession.
Qed.

(** What the session block finds: the handle that selects resume mode,
    and in fresh mode the prompt built from the turns of the session. *)
Lemma sessionStage_found (now : Z) (a : ClaudeToolArgs.t) (st : S)
    (sid : string) :
  ClaudeToolArgs.sessionId a = Some sid -> sid <> "" ->
  let reset := default false (ClaudeToolArgs.resetSession a) in
  let stage := fst (sessionStage now a st) in
  resumeHandle stage
  = Js.or (if reset then None else getClaudeSessionId sid st) None /\
  (resumeMode stage = false ->
   enhancedPrompt stage
   = buildEnhancedPrompt (if reset then [] else history sid st)
       (ClaudeToolArgs.prompt a)).
Proof.
  intros Hsid Hne reset stage.
  destruct (sessionStage_lookup now a sid st Hsid Hne) as (_ & Hres & Hh).
  fold stage in Hres, Hh.
  assert (getClaudeSessionId sid (ensuredAndReset now a sid st)
          = (if reset then None else getClaudeSessionId sid st) /\
          history sid (ensuredAndReset now a sid st)
          = (if reset then [] else history sid st) /\
          known sid (ensuredAndReset now a sid st)) as (Hfound & Hturns & Hknown).
  { unfold ensuredAndReset. fold reset. destruct reset.
    - rewrite law_handle_reset, law_history_reset, !decide_True by reflexivity.
      split; [reflexivity |]. split; [reflexivity |].
      apply law_known_reset, law_known_ensure.
    - rewrite law_handle_ensure, law_history_ensure.
      split; [reflexivity |]. split; [reflexivity |]. apply law_known_ensure. }
  rewrite Hfound in Hh, Hres. split; [exact Hh |].
  intros Hmode. rewrite <- Hturns.
  destruct (law_getSession now sid _ Hknown) as (session & Hget & Hs).
  rewrite <- Hs. unfold resumeMode in Hmode. rewrite Hh in Hmode.
  unfold stage, sessionStage. apply truthy_nonempty in Hne.
  rewrite Hsid, Hne. cbv zeta.
  fold (ensuredAndReset now a sid st). rewrite Hfound.
  destruct (Js.truthyOpt _) eqn:Htruthy.
  { unfold Js.or in Hmode. rewrite Htruthy in Hmode.
    destruct (if reset then None else getClaudeSessionId sid st);
      discriminate. }
  destruct (getSession now sid _) as [found st3]. simpl in Hget. subst found.
  simpl. now destruct (Session.turns session).
Qed.

(** What the last block of a returning call leaves: the turn, and the
    handle the subprocess printed when the call ran in fresh mode. *)
Lemma persist_observed (now : Z) (a : ClaudeToolArgs.t) (stage : SessionStage)
    (response : string) (extracted : option string) (st : S)
    (active sid : string) :
  ClaudeToolArgs.sessionId a = Some active -> active <> "" ->
  known active st ->
  let st' := persist now a stage response extracted st in
  let stores :=
    match extracted with
    | Some y => negb (useResume stage) && Js.truthy y
    | None => false
    end in
  getClaudeSessionId sid st'
  = (if decide (active = sid)
     then if stores then extracted else getClaudeSessionId sid st
     else getClaudeSessionId sid st) /\
  history sid st'
  = (if decide (active = sid)
     then history sid st ++
          [ConversationTurn.make (ClaudeToolArgs.prompt a) response now]
     else history sid st).
Proof.
  intros Hsid Hne Hknown st' stores. apply truthy_nonempty in Hne.
  unfold st', persist. rewrite Hsid, Hne.
  rewrite law_handle_addTurn, law_history_addTurn.
  unfold stores. destruct extracted as [y|].
  - destruct (negb (useResume stage) && Js.truthy y).
    + rewrite law_history_set.
      destruct (decide (active = sid)) as [<-|Hother].
      * now rewrite law_handle_set.
      * now rewrite law_handle_set_other.
    + now destruct (decide (active = sid)).
  - now destruct (decide (active = sid)).
Qed.

(** What one call leaves in a lawful store, session by session; for a
    run marked [OffType] this is the store up to the output of the
    subprocess, the calls that follow being those of [persistCalls]. *)
Lemma execute_observed (env : gmap string string) (run : Subprocess)
    (clock : Clock) (args : JsValue) (context : ToolHandlerContext) (st : S)
    (a : ClaudeToolArgs.t) (sid : string) :
  ClaudeToolSchema args = inr a ->
  let o := execute env run clock args context st in
  let stage := fst (sessionStage (atStart clock) a st) in
  let inv := invocation a context
               (cmdArgs a stage (selectModel env (ClaudeToolArgs.model a))) in
  let handle := if resetsSession a sid then None
                else getClaudeSessionId sid st in
  let turns := if resetsSession a sid then [] else history sid st in
  match settled (run inv) with
  | Resolved result =>
      match parseOutput result with
      | Fields response extracted =>
          responseText (completion o) = Some response /\
          getClaudeSessionId sid (storage o)
          = (if namesSession a sid && negb (resumeMode stage) &&
                Js.truthyOpt extracted
             then extracted else handle) /\
          history sid (storage o)
          = (if namesSession a sid
             then turns ++ [turnOf clock a response] else turns)
      | Mistyped =>
          completion o = OffType /\
          getClaudeSessionId sid (storage o) = handle /\
          history sid (storage o) = turns
      end
  | Rejected cause =>
      completion o
      = Thrown (ToolExecutionError TOOLS.CLAUDE
                  "Failed to execute claude command" cause) /\
      getClaudeSessionId sid (storage o) = handle /\
      history sid (storage o) = turns
  end.
Proof.
  intros Ha o stage inv handle turns.
  destruct (sessionStage_observed (atStart clock) a st sid) as [Hh Ht].
  fold handle in Hh. fold turns in Ht.
  pose proof (sessionStage_known (atStart clock) a st) as Hknown.
  pose proof (sessionStage_useResume (atStart clock) a st) as Hres.
  fold stage in Hres.
  unfold o, execute, inv, stage in *. rewrite Ha.
  destruct (sessionStage (atStart clock) a st) as [stage' st']. simpl in *.
  destruct (settled _) as [result|cause]; [|auto].
  destruct (parseOutput result) as [response extracted|]; [|auto].
  simpl. split; [reflexivity |].
  unfold namesSession.
  destruct (ClaudeToolArgs.sessionId a) as [active|] eqn:Hsid; cycle 1.
  { rewrite persist_no_session by exact Hsid. auto. }
  destruct (Js.truthy active) eqn:Hactive; cycle 1.
  { unfold persist. rewrite Hsid, Hactive. auto. }
  apply truthy_nonempty in Hactive.
  destruct (persist_observed (atReturn clock) a stage' response extracted st'
              active sid Hsid Hactive (Hknown active eq_refl Hactive))
    as [Hh' Ht'].
  rewrite Hh', Ht', Hh, Ht, Hres. simpl.
  destruct (decide (active = sid)) as [->|Hother].
  - rewrite bool_decide_eq_true_2 by reflexivity. simpl.
    split; [|reflexivity].
    destruct extracted as [y|]; simpl; [|now rewrite andb_false_r].
    reflexivity.
  - rewrite bool_decide_eq_false_2 by exact Hother. auto.
Qed.

(** A session id the schema accepted is not the empty string. *)
Lemma ClaudeToolSchema_named (args : JsValue) (a : ClaudeToolArgs.t)
    (sid : string) :
  ClaudeToolSchema args = inr a -> ClaudeToolArgs.sessionId a = Some sid ->
  sid <> "" /\ namesSession a sid = true /\
  resetsSession a sid = default false (ClaudeToolArgs.resetSession a).
Proof.
  intros Ha Hsid.
  pose proof (ClaudeToolSchema_sessionId _ _ _ Ha Hsid) as [_ Hpat].
  apply sessionIdPattern_spec in Hpat as [Hne _]. split; [exact Hne |].
  apply truthy_nonempty in Hne. unfold namesSession, resetsSession.
  rewrite Hsid, Hne, bool_decide_eq_true_2 by reflexivity.
  simpl. now rewrite andb_true_r.
Qed.

Lemma sessionId_other (a : ClaudeToolArgs.t) (sid : string) :
  ClaudeToolArgs.sessionId a <> Some sid ->
  namesSession a sid = false /\ resetsSession a sid = false.
Proof.
  intros Hsid. unfold namesSession, resetsSession.
  destruct (ClaudeToolArgs.sessionId a) as [active|]; [|auto].
  rewrite bool_decide_eq_false_2 by congruence.
  now rewrite !andb_false_r.
Qed.

End LawfulStore.

Section SessionsOverCalls.
Context `{platform : Platform} {S : Type} `{store : SessionStorage S}.
Context `{!SessionStorageLaws S}.

(** A call that names a session holding a non-empty handle, and does not
    reset it, resumes with that handle and sends the prompt as it
    came. *)
Lemma execute_resumes (env : gmap string string) (run : Subprocess)
    (clock : Clock) (args : JsValue) (context : ToolHandlerContext) (st : S)
    (a : ClaudeToolArgs.t) (sid handle : string) :
  ClaudeToolSchema args = inr a ->
  ClaudeToolArgs.sessionId a = Some sid ->
  ClaudeToolArgs.resetSession a <> Some true ->
  getClaudeSessionId sid st = Some handle -> handle <> "" ->
  resumeHandle (fst (sessionStage (atStart clock) a st)) = Some handle /\
  exists rest,
    sentArgs (execute env run clock args context st)
    = Some ("-p" :: ClaudeToolArgs.prompt a :: "--resume" :: handle ::
            "--model" :: rest).
Proof using All.
  intros Ha Hsid Hreset Hfound Hne.
  destruct (ClaudeToolSchema_named args a sid Ha Hsid) as (Hsidne & _ & _).
  destruct (sessionStage_found (atStart clock) a st sid Hsid Hsidne)
    as [Hh _].
  assert (default false (ClaudeToolArgs.resetSession a) = false) as Hoff.
  { destruct (ClaudeToolArgs.resetSession a) as [[]|]; simpl; congruence. }
  rewrite Hoff, Hfound in Hh. apply truthy_nonempty in Hne.
  unfold Js.or in Hh. simpl in Hh. rewrite Hne in Hh.
  split; [exact Hh |].
  rewrite (sentArgs_execute env run clock args context st a Ha).
  rewrite (cmdArgs_resume a _ _ handle _ Hh eq_refl).
  rewrite sessionStage_resume_prompt.
  - eexists. reflexivity.
  - rewrite sessionStage_useResume. unfold resumeMode. now rewrite Hh.
Qed.

(** One call keeps a non-empty handle it is not asked to reset. *)
Lemma execute_keeps_handle (c : Call) (st : S) (sid handle : string) :
  getClaudeSessionId sid st = Some handle -> handle <> "" ->
  (forall a, ClaudeToolSchema (call_args c) = inr a ->
             resetsSession a sid = false) ->
  getClaudeSessionId sid (storage (executeCall c st)) = Some handle.
Proof using All.
  intros Hfound Hne Hkeep. unfold executeCall.
  destruct (ClaudeToolSchema (call_args c)) as [issues|a] eqn:Ha.
  - now rewrite (execute_rejected _ _ _ _ _ st issues Ha).
  - pose proof (execute_observed (call_env c) (call_run c) (call_clock c)
                  (call_args c) (call_context c) st a sid Ha) as Ho.
    cbv zeta in Ho. rewrite (Hkeep a eq_refl), Hfound in Ho.
    destruct (settled _) as [result|cause]; [|tauto].
    destruct (parseOutput result) as [response extracted|]; [|tauto].
    destruct Ho as (_ & Hh & _). rewrite Hh.
    destruct (namesSession a sid) eqn:Hnames; [|reflexivity].
    assert (ClaudeToolArgs.sessionId a = Some sid) as Hsid.
    { unfold namesSession in Hnames.
      destruct (ClaudeToolArgs.sessionId a) as [active|]; [|discriminate].
      apply andb_true_iff in Hnames as [_ Heq].
      apply bool_decide_eq_true in Heq. congruence. }
    assert (ClaudeToolArgs.resetSession a <> Some true) as Hreset.
    { destruct (ClaudeToolSchema_named _ a sid Ha Hsid) as (_ & _ & Hr).
      rewrite (Hkeep a eq_refl) in Hr. intros Ht. now rewrite Ht in Hr. }
    destruct (execute_resumes (call_env c) (call_run c) (call_clock c)
                (call_args c) (call_context c) st a sid handle
                Ha Hsid Hreset Hfound Hne) as [Hresume _].
    unfold resumeMode. now rewrite Hresume.
Qed.

(** One call stores no empty handle. *)
Lemma execute_handle_nonempty (c : Call) (st : S) (sid : string) :
  getClaudeSessionId sid st <> Some "" ->
  getClaudeSessionId sid (storage (executeCall c st)) <> Some "".
Proof using All.
  intros Hst. unfold executeCall.
  destruct (ClaudeToolSchema (call_args c)) as [issues|a] eqn:Ha.
  - now rewrite (execute_rejected _ _ _ _ _ st issues Ha).
  - pose proof (execute_observed (call_env c) (call_run c) (call_clock c)
                  (call_args c) (call_context c) st a sid Ha) as Ho.
    cbv zeta in Ho.
    assert ((if resetsSession a sid then None else getClaudeSessionId sid st)
            <> Some "") as Hbefore.
    { now destruct (resetsSession a sid). }
    destruct (settled _) as [result|cause];
      [|destruct Ho as (_ & -> & _); exact Hbefore].
    destruct (parseOutput result) as [response extracted|];
      [|destruct Ho as (_ & -> & _); exact Hbefore].
    destruct Ho as (_ & -> & _).
    destruct (_ && Js.truthyOpt extracted) eqn:Hstores; [|exact Hbefore].
    apply andb_true_iff in Hstores as [_ Htruthy].
    destruct extracted as [[|c' y]|]; discriminate.
Qed.

End SessionsOverCalls.

(** X11. A call leaves every session other than the one it names as it
    was: the handle and the turns of a session change only through calls
    that carry its id. *)
Theorem other_sessions_are_untouched
    `{platform : Platform} {S : Type} `{store : SessionStorage S}
    `{!SessionStorageLaws S}
    (env : gmap string string)
    (run : Subprocess) (clock : Clock) (args : JsValue)
    (context : ToolHandlerContext) (st : S) (sid : string) :
  (forall a, ClaudeToolSchema args = inr a ->
             ClaudeToolArgs.sessionId a <> Some sid) ->
  let o := execute env run clock args context st in
  getClaudeSessionId sid (storage o) = getClaudeSessionId sid st /\
  history sid (storage o) = history sid st.
Proof.
  intros Hother o. destruct (ClaudeToolSchema args) as [issues|a] eqn:Ha.
  - unfold o. rewrite (execute_rejected env run clock args context st issues Ha).
    auto.
  - destruct (sessionId_other a sid (Hother a eq_refl)) as [Hn Hr].
    pose proof (execute_observed env run clock args context st a sid Ha) as Ho.
    cbv zeta in Ho. rewrite Hn, Hr in Ho. fold o in Ho.
    destruct (settled _) as [result|cause]; [|tauto].
    destruct (parseOutput result); tauto.
Qed.

Lemma other_sessions_are_untouched_witness :
  let o := sampleExecute (answers (Json.quoted "{'result':'R','session_id':'cli-9'}") "")
             (JObj [("prompt", JStr "p"); ("sessionId", JStr "s9")])
             resumableStore in
  getClaudeSessionId "s1" (storage o) = Some "h1" /\
  history "s1" (storage o)
  = [ConversationTurn.make "first question" "first answer" 2].
Proof.
  intros o.
  destruct (other_sessions_are_untouched (platform := samplePlatform) ∅
              (answers (Json.quoted "{'result':'R','session_id':'cli-9'}") "")
              sampleClock
              (JObj [("prompt", JStr "p"); ("sessionId", JStr "s9")])
              defaultContext resumableStore "s1") as [Hhandle Hturns].
  - intros a Ha. vm_compute in Ha. injection Ha as <-. discriminate.
  - unfold o, sampleExecute. rewrite Hhandle, Hturns. split; reflexivity.
Defined.

(** X12. A call whose subprocess fails records no turn and stores no
    handle. A reset the request asked for is not undone: the turns and
    the handle of the session it names are gone. *)
Theorem failed_call_records_nothing
    `{platform : Platform} {S : Type} `{store : SessionStorage S}
    `{!SessionStorageLaws S}
    (env : gmap string string)
    (run : Subprocess) (clock : Clock) (args : JsValue)
    (context : ToolHandlerContext) (st : S) (a : ClaudeToolArgs.t)
    (sid : string) (error : ToolError) :
  ClaudeToolSchema args = inr a ->
  let o := execute env run clock args context st in
  completion o = Thrown error ->
  getClaudeSessionId sid (storage o)
  = (if resetsSession a sid then None else getClaudeSessionId sid st) /\
  history sid (storage o)
  = (if resetsSession a sid then [] else history sid st).
Proof.
  intros Ha o Hthrown.
  pose proof (execute_observed env run clock args context st a sid Ha) as Ho.
  cbv zeta in Ho. fold o in Ho.
  destruct (settled _) as [result|cause]; [|tauto].
  destruct (parseOutput result) as [response extracted|].
  - destruct Ho as [Htext _]. rewrite Hthrown in Htext. discriminate.
  - destruct Ho as [Hoff _]. rewrite Hthrown in Hoff. discriminate.
Qed.

Lemma failed_call_records_nothing_witness :
  let o := sampleExecute (fails "exit code 1")
             (JObj [("prompt", JStr "p"); ("sessionId", JStr "s1");
                    ("resetSession", JBool true)])
             resumableStore in
  getClaudeSessionId "s1" (storage o) = None /\ history "s1" (storage o) = [].
Proof.
  intros o.
  exact (failed_call_records_nothing (platform := samplePlatform) ∅
           (fails "exit code 1") sampleClock
           (JObj [("prompt", JStr "p"); ("sessionId", JStr "s1");
                  ("resetSession", JBool true)])
           defaultContext resumableStore
           (ClaudeToolArgs.make "p" (Some "s1") (Some true) None None None
              None None None None None) "s1"
           (ToolExecutionError "claude" "Failed to execute claude command"
              "exit code 1")
           eq_refl eq_refl).
Defined.

(** X13. Once a session holds a non-empty native handle, it keeps that
    handle through every sequence of later calls of which none asks for
    its reset, whatever those calls are and however they end: in
    particular the identifier a resumed subprocess prints is not
    stored. *)
Theorem stored_handle_is_kept
    `{platform : Platform} {S : Type} `{store : SessionStorage S}
    `{!SessionStorageLaws S}
    (calls : list Call) (st : S)
    (sid handle : string) :
  getClaudeSessionId sid st = Some handle -> handle <> "" ->
  Forall (fun c => forall a, ClaudeToolSchema (call_args c) = inr a ->
                             resetsSession a sid = false) calls ->
  getClaudeSessionId sid (serve calls st) = Some handle.
Proof.
  intros Hfound Hne Hcalls. revert st Hfound.
  induction Hcalls as [|c calls Hc _ IH]; intros st Hfound; [exact Hfound |].
  unfold serve. simpl. apply IH.
  now apply execute_keeps_handle.
Qed.

Lemma stored_handle_is_kept_witness :
  getClaudeSessionId "s1"
    (serve (platform := samplePlatform)
       [sampleCall
          (answers (Json.quoted "{'result':'R','session_id':'cli-2'}") "")
          (JObj [("prompt", JStr "again"); ("sessionId", JStr "s1")]);
        sampleCall (fails "exit code 1")
          (JObj [("prompt", JStr "once more"); ("sessionId", JStr "s1")])]
       resumableStore)
  = Some "h1".
Proof.
  apply (stored_handle_is_kept (platform := samplePlatform)).
  - reflexivity.
  - discriminate.
  - repeat constructor; intros a Ha; vm_compute in Ha; injection Ha as <-;
      reflexivity.
Defined.

(** X14. The handler never stores the empty string as a native handle:
    a store without empty handles, the empty store for one, has none
    after any sequence of calls, whatever the subprocess prints. *)
Theorem no_empty_handle_is_stored
    `{platform : Platform} {S : Type} `{store : SessionStorage S}
    `{!SessionStorageLaws S}
    (calls : list Call) (st : S) :
  (forall sid, getClaudeSessionId sid st <> Some "") ->
  forall sid, getClaudeSessionId sid (serve calls st) <> Some "".
Proof.
  revert st. induction calls as [|c calls IH]; intros st Hst; [exact Hst |].
  unfold serve. simpl. apply IH.
  intros sid. apply execute_handle_nonempty, Hst.
Qed.

Lemma no_empty_handle_is_stored_witness :
  getClaudeSessionId "s1"
    (serve (platform := samplePlatform)
       [sampleCall
          (answers (Json.quoted "{'result':'R','session_id':''}") "")
          (JObj [("prompt", JStr "p"); ("sessionId", JStr "s1")])]
       InMemorySessionStorage.empty)
  <> Some "".
Proof.
  apply (no_empty_handle_is_stored (platform := samplePlatform)).
  intros sid. simpl. unfold InMemorySessionStorage.getClaudeSessionId,
    InMemorySessionStorage.empty. rewrite lookup_empty. discriminate.
Defined.

(** X15. The identifier a new conversation prints is what the next call
    resumes. When a call on a session runs in fresh mode, because of a
    reset or for want of a handle, and returns after the subprocess
    printed a JSON object with a non-empty [session_id], that identifier
    is the handle of the session afterwards, and the next call that
    names the session without resetting it passes it to [--resume] and
    sends its prompt as it came. *)
Theorem printed_session_id_is_resumed
    `{platform : Platform} {S : Type} `{store : SessionStorage S}
    `{!SessionStorageLaws S}
    (first next : Call) (st : S)
    (a a' : ClaudeToolArgs.t) (sid : string) (result : CommandResult)
    (props : list (string * JsValue)) (printed : string) :
  let o := executeCall first st in
  ClaudeToolSchema (call_args first) = inr a ->
  ClaudeToolArgs.sessionId a = Some sid ->
  ClaudeToolArgs.resetSession a = Some true \/
    getClaudeSessionId sid st = None ->
  answered o (call_run first) result ->
  Json.parse (stdout result) = Some (JObj props) ->
  Json.member "session_id" props = Some (JStr printed) -> printed <> "" ->
  is_Some (responseText (completion o)) ->
  ClaudeToolSchema (call_args next) = inr a' ->
  ClaudeToolArgs.sessionId a' = Some sid ->
  ClaudeToolArgs.resetSession a' <> Some true ->
  getClaudeSessionId sid (storage o) = Some printed /\
  exists rest,
    sentArgs (executeCall next (storage o))
    = Some ("-p" :: ClaudeToolArgs.prompt a' :: "--resume" :: printed ::
            "--model" :: rest).
Proof.
  intros o Ha Hsid Hfresh Hrun Hparse Hprinted Hne Hret Ha' Hsid' Hreset'.
  assert (getClaudeSessionId sid (storage o) = Some printed) as Hstored.
  { destruct (ClaudeToolSchema_named _ a sid Ha Hsid) as (Hsidne & Hn & Hr).
    destruct (sessionStage_found (atStart (call_clock first)) a st sid
                Hsid Hsidne) as [Hh _].
    assert (resumeMode (fst (sessionStage (atStart (call_clock first)) a st))
            = false) as Hmode.
    { unfold resumeMode. rewrite Hh.
      destruct Hfresh as [Hreset|Hnone].
      - now rewrite Hreset.
      - rewrite Hnone. now destruct (default false _). }
    pose proof (execute_observed (call_env first) (call_run first)
                  (call_clock first) (call_args first) (call_context first)
                  st a sid Ha) as Ho.
    cbv zeta in Ho. fold (executeCall first st) in Ho. fold o in Ho.
    unfold answered, o, executeCall in Hrun.
    rewrite (execute_spawned _ _ _ _ _ st a Ha) in Hrun.
    rewrite (Hrun _ (or_introl eq_refl)) in Ho.
    unfold parseOutput in Ho. rewrite Hparse, Hprinted in Ho. simpl in Ho.
    destruct (resultField _ _) as [response|].
    - destruct Ho as (_ & Hh' & _). rewrite Hh', Hn, Hmode. simpl.
      apply truthy_nonempty in Hne. now rewrite Hne.
    - destruct Ho as [Hoff _]. rewrite Hoff in Hret.
      destruct Hret as [r Hr']. discriminate. }
  split; [exact Hstored |].
  now destruct (execute_resumes (call_env next) (call_run next)
                  (call_clock next) (call_args next) (call_context next)
                  (storage o) a' sid printed Ha' Hsid' Hreset' Hstored Hne).
Qed.

Lemma printed_session_id_is_resumed_witness :
  let first :=
    sampleCall (answers (Json.quoted "{'result':'R','session_id':'cli-1'}") "")
      (JObj [("prompt", JStr "one"); ("sessionId", JStr "s1")]) in
  let next :=
    sampleCall (answers (Json.quoted "{'result':'R2','session_id':'cli-2'}") "")
      (JObj [("prompt", JStr "two"); ("sessionId", JStr "s1")]) in
  let o := executeCall (platform := samplePlatform) first
             InMemorySessionStorage.empty in
  getClaudeSessionId "s1" (storage o) = Some "cli-1" /\
  exists rest,
    sentArgs (executeCall (platform := samplePlatform) next (storage o))
    = Some ("-p" :: "two" :: "--resume" :: "cli-1" :: "--model" :: rest).
Proof.
  intros first next o.
  apply (printed_session_id_is_resumed (platform := samplePlatform)
           first next InMemorySessionStorage.empty
           (ClaudeToolArgs.make "one" (Some "s1") None None None None None
              None None None None)
           (ClaudeToolArgs.make "two" (Some "s1") None None None None None
              None None None None)
           "s1" {| stdout := Json.quoted "{'result':'R','session_id':'cli-1'}";
                   stderr := "" |}
           [("result", JStr "R"); ("session_id", JStr "cli-1")] "cli-1").
  - reflexivity.
  - reflexivity.
  - right. reflexivity.
  - intros inv _. reflexivity.
  - reflexivity.
  - reflexivity.
  - discriminate.
  - eexists. reflexivity.
  - reflexivity.
  - reflexivity.
  - discriminate.
Defined.

(** X16. A call that asks for the reset of its session starts over: it
    runs in fresh mode and sends the prompt as it came, whatever handle
    and turns the session held. Afterwards the session holds the turn of
    this call alone when the call returned a response, and no turn when
    the subprocess failed. *)
Theorem reset_starts_over
    `{platform : Platform} {S : Type} `{store : SessionStorage S}
    `{!SessionStorageLaws S}
    (env : gmap string string) (run : Subprocess)
    (clock : Clock) (args : JsValue) (context : ToolHandlerContext) (st : S)
    (a : ClaudeToolArgs.t) (sid : string) :
  ClaudeToolSchema args = inr a ->
  ClaudeToolArgs.sessionId a = Some sid ->
  ClaudeToolArgs.resetSession a = Some true ->
  let o := execute env run clock args context st in
  (exists rest,
     sentArgs o = Some ("-p" :: ClaudeToolArgs.prompt a :: "--model" :: rest)) /\
  (forall response,
     responseText (completion o) = Some response ->
     history sid (storage o) = [turnOf clock a response]) /\
  (forall error,
     completion o = Thrown error -> history sid (storage o) = []).
Proof.
  intros Ha Hsid Hreset o.
  destruct (ClaudeToolSchema_named _ a sid Ha Hsid) as (Hsidne & Hn & Hr).
  rewrite Hreset in Hr. simpl in Hr.
  destruct (sessionStage_found (atStart clock) a st sid Hsid Hsidne)
    as [Hh Hprompt].
  rewrite Hreset in Hh, Hprompt. simpl in Hh, Hprompt.
  assert (resumeMode (fst (sessionStage (atStart clock) a st)) = false)
    as Hmode by (unfold resumeMode; now rewrite Hh).
  split.
  - unfold o. rewrite (sentArgs_execute env run clock args context st a Ha).
    unfold cmdArgs. rewrite Hh, (Hprompt Hmode). eexists. reflexivity.
  - pose proof (execute_observed env run clock args context st a sid Ha) as Ho.
    cbv zeta in Ho. fold o in Ho. rewrite Hr, Hn in Ho.
    destruct (settled _) as [result|cause].
    + destruct (parseOutput result) as [response extracted|].
      * destruct Ho as (Htext & _ & ->). rewrite Htext. split.
        -- now intros response' [= <-].
        -- intros error Hthrown. rewrite Hthrown in Htext. discriminate.
      * destruct Ho as (-> & _ & _). split; discriminate.
    + destruct Ho as (-> & _ & ->). split; [discriminate | reflexivity].
Qed.

Lemma reset_starts_over_witness :
  let o := sampleExecute (answers "plain answer" "")
             (JObj [("prompt", JStr "p"); ("sessionId", JStr "s1");
                    ("resetSession", JBool true)])
             resumableStore in
  (exists rest, sentArgs o = Some ("-p" :: "p" :: "--model" :: rest)) /\
  history "s1" (storage o)
  = [ConversationTurn.make "p" "plain answer" 200].
Proof.
  intros o.
  destruct (reset_starts_over (platform := samplePlatform) ∅
              (answers "plain answer" "") sampleClock
              (JObj [("prompt", JStr "p"); ("sessionId", JStr "s1");
                     ("resetSession", JBool true)])
              defaultContext resumableStore
              (ClaudeToolArgs.make "p" (Some "s1") (Some true) None None None
                 None None None None None) "s1" eq_refl eq_refl eq_refl)
    as (Hsent & Hreturned & _).
  split; [exact Hsent |].
  exact (Hreturned "plain answer" eq_refl).
Defined.

(** X17. Without a native handle the conversation is carried by the
    prompt. When a call on a session returned and left the session
    without handle, the next call that names the session without
    resetting it runs in fresh mode and sends the prompt synthesized
    from the turns the session held before, followed by the turn of that
    call: the caller's prompt and the response returned. *)
Theorem history_is_replayed_without_handle
    `{platform : Platform} {S : Type} `{store : SessionStorage S}
    `{!SessionStorageLaws S}
    (first next : Call) (st : S)
    (a a' : ClaudeToolArgs.t) (sid response : string) :
  let o := executeCall first st in
  ClaudeToolSchema (call_args first) = inr a ->
  ClaudeToolArgs.sessionId a = Some sid ->
  responseText (completion o) = Some response ->
  getClaudeSessionId sid (storage o) = None ->
  ClaudeToolSchema (call_args next) = inr a' ->
  ClaudeToolArgs.sessionId a' = Some sid ->
  ClaudeToolArgs.resetSession a' <> Some true ->
  let before :=
    if default false (ClaudeToolArgs.resetSession a) then []
    else history sid st in
  exists rest,
    sentArgs (executeCall next (storage o))
    = Some ("-p" ::
            buildEnhancedPrompt
              (before ++ [turnOf (call_clock first) a response])
              (ClaudeToolArgs.prompt a') ::
            "--model" :: rest).
Proof.
  intros o Ha Hsid Hret Hnone Ha' Hsid' Hreset' before.
  assert (history sid (storage o)
          = before ++ [turnOf (call_clock first) a response]) as Hturns.
  { destruct (ClaudeToolSchema_named _ a sid Ha Hsid) as (_ & Hn & Hr).
    pose proof (execute_observed (call_env first) (call_run first)
                  (call_clock first) (call_args first) (call_context first)
                  st a sid Ha) as Ho.
    cbv zeta in Ho. fold (executeCall first st) in Ho. fold o in Ho.
    rewrite Hr, Hn in Ho. fold before in Ho.
    destruct (settled _) as [result|cause].
    - destruct (parseOutput result) as [response' extracted|].
      + destruct Ho as (Htext & _ & ->). congruence.
      + destruct Ho as [Hoff _]. rewrite Hoff in Hret. discriminate.
    - destruct Ho as [Hoff _]. rewrite Hoff in Hret. discriminate. }
  destruct (ClaudeToolSchema_named _ a' sid Ha' Hsid') as (Hsidne & _ & _).
  destruct (sessionStage_found (atStart (call_clock next)) a' (storage o) sid
              Hsid' Hsidne) as [Hh Hprompt].
  assert (default false (ClaudeToolArgs.resetSession a') = false) as Hoff.
  { destruct (ClaudeToolArgs.resetSession a') as [[]|]; simpl; congruence. }
  rewrite Hoff, Hnone in Hh. rewrite Hoff, Hturns in Hprompt.
  simpl in Hh.
  assert (resumeMode (fst (sessionStage (atStart (call_clock next)) a'
                             (storage o))) = false)
    as Hmode by (unfold resumeMode; now rewrite Hh).
  unfold executeCall at 1.
  rewrite (sentArgs_execute _ _ _ _ _ (storage o) a' Ha').
  unfold cmdArgs. rewrite Hh, (Hprompt Hmode). eexists. reflexivity.
Qed.

Lemma history_is_replayed_without_handle_witness :
  let first :=
    sampleCall (answers "first answer" "")
      (JObj [("prompt", JStr "first question"); ("sessionId", JStr "s1")]) in
  let next :=
    sampleCall (answers "second answer" "")
      (JObj [("prompt", JStr "What next?"); ("sessionId", JStr "s1")]) in
  let o := executeCall (platform := samplePlatform) first
             InMemorySessionStorage.empty in
  exists rest,
    sentArgs (executeCall (platform := samplePlatform) next (storage o))
    = Some ("-p" ::
            ("Context: first question -> first answer..." +:+ Js.LF +:+
             Js.LF +:+ "Task: What next?") ::
            "--model" :: rest).
Proof.
  intros first next o.
  exact (history_is_replayed_without_handle (platform := samplePlatform)
           first next InMemorySessionStorage.empty
           (ClaudeToolArgs.make "first question" (Some "s1") None None None
              None None None None None None)
           (ClaudeToolArgs.make "What next?" (Some "s1") None None None None
              None None None None None)
           "s1" "first answer" eq_refl eq_refl eq_refl eq_refl eq_refl eq_refl
           ltac:(discriminate)).
Defined.


(** ** The review handler *)

Lemma append_assoc (s1 s2 s3 : string) :
  (s1 +:+ s2) +:+ s3 = s1 +:+ s2 +:+ s3.
Proof.
  induction s1 as [|c s1 IH]; [reflexivity |].
  change (String c ((s1 +:+ s2) +:+ s3) = String c (s1 +:+ s2 +:+ s3)).
  now rewrite IH.
Qed.

Lemma join_snoc (sep : string) (parts : list string) (last : string) :
  parts <> [] ->
  Js.join sep (parts ++ [last]) = Js.join sep parts +:+ sep +:+ last.
Proof.
  unfold Js.join. induction parts as [|p parts IH]; [congruence |]. intros _.
  destruct parts as [|q parts].
  - simpl. reflexivity.
  - change (String.concat sep ((p :: q :: parts) ++ [last]))
      with (p +:+ sep +:+ String.concat sep ((q :: parts) ++ [last])).
    rewrite IH by discriminate.
    change (String.concat sep (p :: q :: parts))
      with (p +:+ sep +:+ String.concat sep (q :: parts)).
    now rewrite !append_assoc.
Qed.

Lemma append_nonempty_r (s1 s2 : string) : s2 <> "" -> s1 +:+ s2 <> "".
Proof.
  intros Hne Heq. apply (f_equal String.length) in Heq.
  rewrite length_append in Heq. destruct s2; [congruence | simpl in Heq; lia].
Qed.

Lemma sentArgs_review (env : gmap string string) (run : Subprocess)
    (args : JsValue) (context : ToolHandlerContext) (a : ReviewToolArgs.t) :
  ReviewToolSchema args = inr a ->
  Js.truthyOpt (ReviewToolArgs.prompt a) &&
    default false (ReviewToolArgs.uncommitted a) = false ->
  sentArgs (review env run args context)
  = Some (reviewArgs a (selectModel env (ReviewToolArgs.model a))).
Proof.
  intros Ha Hok. unfold sentArgs.
  now rewrite (review_spawned env run args context a Ha Hok).
Qed.

(** Where [parsed.result] is a string, [parseReviewOutput] is
    [readReviewOutput]; where it is not, the handler returns that value
    as the text. *)
Lemma readReviewOutput_typed (result : CommandResult) :
  match parseReviewOutput result with
  | Some response => readReviewOutput result = JStr response
  | None => forall s, readReviewOutput result <> JStr s
  end.
Proof.
  unfold parseReviewOutput, readReviewOutput.
  destruct (Json.parse (stdout result)) as [[| | | | |props]|];
    try reflexivity.
  destruct (Json.member "result" props) as [[]|]; simpl;
    try reflexivity; discriminate.
Qed.

(** X18. The prompt of a review is never empty. The sentences for the
    working tree, the base branch, the commit and the title, in that
    order and each only for a value that is set and not empty, are
    joined by single spaces and closed by the caller's instructions or,
    without instructions, by a request for a detailed review; with
    nothing set the prompt is a fixed sentence, and instructions without
    any context are sent behind a single space. The arguments are that
    prompt, the model and the JSON output format, followed only by the
    working directory when it is set and not empty. *)
Theorem review_prompt_composition (env : gmap string string)
    (run : Subprocess) (args : JsValue) (context : ToolHandlerContext)
    (a : ReviewToolArgs.t) :
  ReviewToolSchema args = inr a ->
  ~ ((exists p, ReviewToolArgs.prompt a = Some p /\ p <> "") /\
     ReviewToolArgs.uncommitted a = Some true) ->
  let given (x : option string) :=
    match x with
    | Some s => if decide (s = "") then None else Some s
    | None => None
    end in
  let sentence (x : option string) (before : string) :=
    match given x with
    | Some s => [before +:+ s +:+ "."]
    | None => []
    end in
  let sentences :=
    (if decide (ReviewToolArgs.uncommitted a = Some true)
     then ["Review staged, unstaged, and untracked changes (working tree diff)."]
     else []) ++
    sentence (ReviewToolArgs.base a) "Review changes against base branch: " ++
    sentence (ReviewToolArgs.commit a) "Review changes introduced by commit: " ++
    sentence (ReviewToolArgs.title a) "Review title: " in
  let sent :=
    match sentences, given (ReviewToolArgs.prompt a) with
    | [], None => "Please review the current code changes and provide feedback."
    | [], Some p => " " +:+ p
    | _ :: _, None =>
        Js.join " " (sentences ++ ["Please provide a detailed code review."])
    | _ :: _, Some p => Js.join " " (sentences ++ [p])
    end in
  sent <> "" /\
  sentArgs (review env run args context)
  = Some (["-p"; sent; "--model"; selectModel env (ReviewToolArgs.model a);
           "--output-format"; "json"] ++
          match given (ReviewToolArgs.workingDirectory a) with
          | Some directory => ["--cwd"; directory]
          | None => []
          end).
Proof.
  intros Ha Hguard given sentence sentences sent.
  assert (Js.truthyOpt (ReviewToolArgs.prompt a) &&
            default false (ReviewToolArgs.uncommitted a) = false) as Hok.
  { apply not_true_is_false. intros Hboth.
    apply andb_true_iff in Hboth as [Hp Hu]. apply Hguard. split.
    - destruct (ReviewToolArgs.prompt a) as [p|]; [|discriminate].
      exists p. split; [reflexivity |]. now apply truthy_nonempty.
    - now destruct (ReviewToolArgs.uncommitted a) as [[]|]. }
  assert (forall x before,
            contextSentence x (fun s => before +:+ s +:+ ".")
            = sentence x before) as Hsentence.
  { intros [[|c s]|] before; reflexivity. }
  assert (reviewContext a = sentences) as Hcontext.
  { unfold reviewContext, sentences. rewrite !Hsentence. f_equal.
    now destruct (ReviewToolArgs.uncommitted a) as [[]|]. }
  assert (reviewPrompt a = sent) as Hsent.
  { unfold reviewPrompt, sent. rewrite Hcontext.
    destruct (ReviewToolArgs.prompt a) as [[|c p]|]; simpl.
    - destruct sentences as [|s rest] eqn:Hs; [reflexivity |].
      rewrite join_snoc by discriminate. reflexivity.
    - destruct sentences as [|s rest] eqn:Hs; [reflexivity |].
      rewrite join_snoc by discriminate. reflexivity.
    - destruct sentences as [|s rest] eqn:Hs; [reflexivity |].
      rewrite join_snoc by discriminate. reflexivity. }
  split.
  - rewrite <- Hsent. unfold reviewPrompt.
    destruct (Js.truthyOpt (ReviewToolArgs.prompt a)) eqn:Hp.
    + destruct (ReviewToolArgs.prompt a) as [p|]; [|discriminate].
      simpl in *. apply truthy_nonempty in Hp.
      apply append_nonempty_r. now apply append_nonempty_r.
    + destruct (reviewContext a); [discriminate |].
      now apply append_nonempty_r.
  - rewrite (sentArgs_review env run args context a Ha Hok).
    unfold reviewArgs. rewrite Hsent. do 2 f_equal.
    now destruct (ReviewToolArgs.workingDirectory a) as [[|c s]|].
Qed.

Lemma review_prompt_composition_witness :
  sentArgs (review ∅ (answers "ok" "")
              (JObj [("prompt", JStr "Focus on tests"); ("base", JStr "main")])
              defaultContext)
  = Some ["-p"; "Review changes against base branch: main. Focus on tests";
          "--model"; "claude-sonnet-4-6"; "--output-format"; "json"]
  /\ sentArgs (review ∅ (answers "ok" "")
                 (JObj [("prompt", JStr "Focus on tests")]) defaultContext)
     = Some ["-p"; " Focus on tests";
             "--model"; "claude-sonnet-4-6"; "--output-format"; "json"].
Proof.
  split.
  - refine (proj2 (review_prompt_composition ∅ (answers "ok" "")
                     (JObj [("prompt", JStr "Focus on tests");
                            ("base", JStr "main")])
                     defaultContext
                     (ReviewToolArgs.make (Some "Focus on tests") None
                        (Some "main") None None None None) eq_refl _)).
    intros [_ Hu]. discriminate.
  - refine (proj2 (review_prompt_composition ∅ (answers "ok" "")
                     (JObj [("prompt", JStr "Focus on tests")])
                     defaultContext
                     (ReviewToolArgs.make (Some "Focus on tests") None None
                        None None None None) eq_refl _)).
    intros [_ Hu]. discriminate.
Defined.

(** X19. A review that is not refused sends the notification
    [Starting code review...], then starts [claude] exactly once,
    without environment override, through the streaming executor exactly
    when the context holds a truthy progress token. When the process
    fails the call ends in an execution error tagged [review] that
    carries the cause; otherwise it ends in no error. *)
Theorem review_runs_once (env : gmap string string) (run : Subprocess)
    (args : JsValue) (context : ToolHandlerContext) (a : ReviewToolArgs.t) :
  ReviewToolSchema args = inr a ->
  ~ ((exists p, ReviewToolArgs.prompt a = Some p /\ p <> "") /\
     ReviewToolArgs.uncommitted a = Some true) ->
  let o := review env run args context in
  exists inv,
    file inv = "claude" /\ envOverride inv = None /\
    streaming inv = useStreaming context /\
    events o
    = Progress "Starting code review..." (Some 0) :: Spawn inv ::
      (if streaming inv
       then List.map (fun message => Progress message None) (chunks (run inv))
       else []) /\
    match settled (run inv) with
    | Rejected cause =>
        completion o
        = Thrown (ToolExecutionError "review"
                    "Failed to execute claude review" cause)
    | Resolved _ => forall e, completion o <> Thrown e
    end.
Proof.
  intros Ha Hguard o.
  assert (Js.truthyOpt (ReviewToolArgs.prompt a) &&
            default false (ReviewToolArgs.uncommitted a) = false) as Hok.
  { apply not_true_is_false. intros Hboth.
    apply andb_true_iff in Hboth as [Hp Hu]. apply Hguard. split.
    - destruct (ReviewToolArgs.prompt a) as [p|]; [|discriminate].
      exists p. split; [reflexivity |]. now apply truthy_nonempty.
    - now destruct (ReviewToolArgs.uncommitted a) as [[]|]. }
  exists {| file := "claude";
            argv := reviewArgs a (selectModel env (ReviewToolArgs.model a));
            envOverride := None; streaming := useStreaming context |}.
  repeat split.
  - unfold o, review. rewrite Ha, Hok.
    destruct (settled _) as [result|cause]; [|reflexivity].
    destruct (parseReviewOutput result); reflexivity.
  - unfold o, review. rewrite Ha, Hok.
    destruct (settled _) as [result|cause]; [|reflexivity].
    intros e. destruct (parseReviewOutput result); discriminate.
Qed.

Lemma review_runs_once_witness :
  completion (review ∅ (fails "exit code 1")
                (JObj [("uncommitted", JBool true)]) defaultContext)
  = Thrown (ToolExecutionError "review" "Failed to execute claude review"
              "exit code 1").
Proof.
  destruct (review_runs_once ∅ (fails "exit code 1")
              (JObj [("uncommitted", JBool true)]) defaultContext
              (ReviewToolArgs.make None (Some true) None None None None None)
              eq_refl) as (inv & _ & _ & _ & _ & Hend).
  - intros [(p & Hp & _) _]. discriminate.
  - exact Hend.
Defined.

(** X20. A review that returns has exactly one content item. Its text
    is the [result] string of the JSON object the subprocess printed;
    the whole standard output when that is other valid JSON, or an
    object without [result] or with a [null] one; and, when the output
    is not JSON, the standard output, else the standard error, else a
    placeholder. The metadata names the model and, exactly when they are
    set and not empty, the base branch and the commit; it is also the
    [structuredContent] of the result exactly when the environment
    enables structured content. The [session_id] of the output is not
    read. *)
Theorem review_result (env : gmap string string) (run : Subprocess)
    (args : JsValue) (context : ToolHandlerContext) (a : ReviewToolArgs.t)
    (result : CommandResult) (returned : ToolResult) :
  ReviewToolSchema args = inr a ->
  let o := review env run args context in
  answered o run result ->
  completion o = Returned returned ->
  let given (key : string) (x : option string) :=
    match x with
    | Some s => if decide (s = "") then [] else [(key, s)]
    | None => []
    end in
  let metadata :=
    ("model", selectModel env (ReviewToolArgs.model a)) ::
    given "base" (ReviewToolArgs.base a) ++
    given "commit" (ReviewToolArgs.commit a) in
  let response :=
    match Json.parse (stdout result) with
    | Some (JObj props) =>
        match Json.member "result" props with
        | Some (JStr X) => X
        | _ => stdout result
        end
    | Some _ => stdout result
    | None =>
        if decide (stdout result = "") then
          if decide (stderr result = "") then "No review output from Claude"
          else stderr result
        else stdout result
    end in
  content returned = [{| text := response; meta := metadata |}] /\
  structuredContent returned
  = if isStructuredContentEnabled env then Some metadata else None.
Proof.
  intros Ha o Hrun Hret given metadata response.
  assert (forall key x, spreadOpt key x = given key x) as Hgiven.
  { intros key [[|c s]|]; reflexivity. }
  assert (reviewMetadata a (selectModel env (ReviewToolArgs.model a))
          = metadata) as Hmeta.
  { unfold reviewMetadata, metadata. now rewrite !Hgiven. }
  unfold o, review in Hret, Hrun. rewrite Ha in Hret, Hrun.
  destruct (_ && _); [discriminate |].
  unfold answered in Hrun.
  match type of Hret with
  | context [settled (run ?i)] => set (inv := i) in *
  end.
  assert (settled (run inv) = Resolved result) as Hsettled.
  { apply Hrun.
    destruct (settled (run inv)) as [r|cause];
      [destruct (parseReviewOutput r) |];
      (change (In inv (spawned (invoke run "Starting code review..." inv)));
       rewrite spawned_invoke; now left). }
  rewrite Hsettled in Hret.
  destruct (parseReviewOutput result) as [text|] eqn:Hparse; [|discriminate].
  injection Hret as <-. simpl. rewrite Hmeta. split; [|reflexivity].
  do 2 f_equal. unfold parseReviewOutput in Hparse. unfold response.
  destruct (Json.parse (stdout result)) as [v|] eqn:Hjson.
  - pose proof (parse_nonempty _ _ Hjson) as Hne.
    destruct v as [| | | | |props]; try (now injection Hparse as <-).
    + injection Hparse as <-. rewrite rawOutput_fallback.
      now destruct (decide (stdout result = "")).
    + destruct (Json.member "result" props) as [[]|]; simpl in Hparse;
        try discriminate; now injection Hparse as <-.
  - injection Hparse as <-. apply rawOutput_fallback.
Qed.

Lemma review_result_witness :
  let o := review {[ "STRUCTURED_CONTENT_ENABLED" := "on" ]}
             (answers (Json.quoted "{'result':'LGTM','session_id':{'a':1}}") "")
             (JObj [("base", JStr "main"); ("title", JStr "T")])
             defaultContext in
  exists returned,
    completion o = Returned returned /\
    content returned
    = [{| text := "LGTM";
          meta := [("model", "claude-sonnet-4-6"); ("base", "main")] |}] /\
    structuredContent returned
    = Some [("model", "claude-sonnet-4-6"); ("base", "main")].
Proof.
  intros o.
  assert (exists returned, completion o = Returned returned) as [returned Hret]
    by (eexists; reflexivity).
  exists returned. split; [exact Hret |].
  exact (review_result {[ "STRUCTURED_CONTENT_ENABLED" := "on" ]}
           (answers (Json.quoted "{'result':'LGTM','session_id':{'a':1}}") "")
           (JObj [("base", JStr "main"); ("title", JStr "T")])
           defaultContext
           (ReviewToolArgs.make None None (Some "main") None (Some "T") None
              None)
           {| stdout := Json.quoted "{'result':'LGTM','session_id':{'a':1}}";
              stderr := "" |}
           returned eq_refl (fun _ _ => eq_refl) Hret).
Defined.

(** ** The advertised schemas and the schemas that validate *)

Lemma accepted_map {A B} (f : A -> B) (r : Zod.Result A) :
  accepted (Zod.map f r) <-> accepted r.
Proof.
  unfold accepted. destruct r as [issues|a]; simpl.
  - split; intros [x Hx]; discriminate.
  - split; eauto.
Qed.

Lemma accepted_both {A B} (ra : Zod.Result A) (rb : Zod.Result B) :
  accepted (Zod.both ra rb) <-> accepted ra /\ accepted rb.
Proof.
  unfold accepted. destruct ra as [ia|a], rb as [ib|b]; simpl;
    (split; [intros [x Hx] | intros [[x Hx] [y Hy]]]); try discriminate;
    eauto.
Qed.

Lemma accepted_inl {A} (issues : list Zod.Issue) :
  accepted (inl issues : Zod.Result A) <-> False.
Proof. split; [intros [a Ha]; discriminate | tauto]. Qed.

Lemma accepted_inr {A} (a : A) : accepted (inr a : Zod.Result A) <-> True.
Proof. split; [tauto | intros _; now exists a]. Qed.

(** An optional property passes when it is absent or its value does. *)
Lemma accepted_field {A} (props : list (string * JsValue))
    (schema : list string -> JsValue -> Zod.Result A) (key : string) :
  accepted (Zod.field props schema key) <->
  match Json.member key props with
  | Some v => accepted (schema [key] v)
  | None => True
  end.
Proof.
  unfold Zod.field, Zod.optional.
  destruct (Json.member key props) as [v|].
  - apply accepted_map.
  - apply accepted_inr.
Qed.

Lemma accepted_string (path : list string) (description : option string)
    (v : JsValue) :
  accepted (Zod.string_ [] path v)
  <-> conforms (SchemaString description None) v = true.
Proof.
  destruct v; simpl; rewrite ?accepted_inl, ?accepted_inr;
    split; (tauto || discriminate || reflexivity || auto).
Qed.

Lemma accepted_boolean (path : list string) (description : option string)
    (v : JsValue) :
  accepted (Zod.boolean path v)
  <-> conforms (SchemaBoolean description) v = true.
Proof.
  destruct v; simpl; rewrite ?accepted_inl, ?accepted_inr;
    split; (tauto || discriminate || reflexivity || auto).
Qed.

Lemma accepted_enum (options path : list string) (description : option string)
    (v : JsValue) :
  accepted (Zod.enum options path v)
  <-> conforms (SchemaString description (Some options)) v = true.
Proof.
  destruct v; simpl; rewrite ?accepted_inl;
    try (split; (tauto || discriminate)).
  destruct (existsb _ _); rewrite ?accepted_inl, ?accepted_inr;
    split; (tauto || discriminate || reflexivity || auto).
Qed.

Lemma accepted_optional {A} (schema : list string -> JsValue -> Zod.Result A)
    (path : list string) (v : option JsValue) :
  accepted (Zod.optional schema path v) <->
  match v with
  | Some x => accepted (schema path x)
  | None => True
  end.
Proof.
  unfold Zod.optional. destruct v as [x|].
  - apply accepted_map.
  - apply accepted_inr.
Qed.

(** One listed property of an object schema at a time. *)
Lemma conforms_property (key : string) (schema : JsonSchema)
    (properties : list (string * JsonSchema)) (required : option (list string))
    (members : list (string * JsValue)) :
  conforms (SchemaObject ((key, schema) :: properties) required) (JObj members)
    = true <->
  match Json.member key members with
  | Some v => conforms schema v
  | None => true
  end = true /\
  conforms (SchemaObject properties required) (JObj members) = true.
Proof. simpl. rewrite !andb_true_iff. tauto. Qed.

Lemma conforms_required (required : option (list string))
    (members : list (string * JsValue)) :
  conforms (SchemaObject [] required) (JObj members) = true <->
  forall key, In key (default [] required) ->
              is_Some (Json.member key members).
Proof.
  simpl. rewrite forallb_forall. split; intros Hall key Hin.
  - specialize (Hall key Hin). now apply bool_decide_eq_true in Hall.
  - apply bool_decide_eq_true. now apply Hall.
Qed.

Section AdvertisedFields.
Context `{platform : Platform}.
Variable props : list (string * JsValue).

Lemma field_string (key : string) (description : option string) :
  accepted (Zod.field props (Zod.string_ []) key) <->
  match Json.member key props with
  | Some v => conforms (SchemaString description None) v
  | None => true
  end = true.
Proof.
  rewrite accepted_field. destruct (Json.member key props) as [v|].
  - apply accepted_string.
  - tauto.
Qed.

Lemma field_boolean (key : string) (description : option string) :
  accepted (Zod.field props Zod.boolean key) <->
  match Json.member key props with
  | Some v => conforms (SchemaBoolean description) v
  | None => true
  end = true.
Proof.
  rewrite accepted_field. destruct (Json.member key props) as [v|].
  - apply accepted_boolean.
  - tauto.
Qed.

Lemma field_enum (key : string) (options : list string)
    (description : option string) :
  accepted (Zod.field props (Zod.enum options) key) <->
  match Json.member key props with
  | Some v => conforms (SchemaString description (Some options)) v
  | None => true
  end = true.
Proof.
  rewrite accepted_field. destruct (Json.member key props) as [v|].
  - apply accepted_enum.
  - tauto.
Qed.

Lemma field_sessionId (description : option string) :
  accepted (Zod.field props (Zod.string_
    [Zod.max 256 "Session ID must be 256 characters or fewer" ["sessionId"];
     Zod.regex sessionIdPattern
       "Session ID can only contain letters, numbers, hyphens, and underscores"
       ["sessionId"]]) "sessionId") <->
  match Json.member "sessionId" props with
  | Some v => conforms (SchemaString description None) v
  | None => true
  end = true /\
  forall s, Json.member "sessionId" props = Some (JStr s) -> validSessionId s.
Proof.
  rewrite accepted_field.
  destruct (Json.member "sessionId" props) as [v|]; [|split; [|tauto]].
  - destruct v; simpl; rewrite ?accepted_inl;
      try (split; [tauto | intros [? _]; discriminate]).
    unfold Zod.max, Zod.regex, validSessionId.
    destruct (decide (String.length s <= 256)%nat) as [Hlen|Hlen];
      destruct (sessionIdPattern s) eqn:Hpat; simpl;
      rewrite ?accepted_inl, ?accepted_inr.
    + split; [|tauto]. intros _. split; [reflexivity |].
      intros s' [= <-]. auto.
    + split; [tauto |]. intros [_ Hs]. destruct (Hs s eq_refl). congruence.
    + split; [tauto |]. intros [_ Hs]. destruct (Hs s eq_refl). contradiction.
    + split; [tauto |]. intros [_ Hs]. destruct (Hs s eq_refl). contradiction.
  - intros _. split; [reflexivity | discriminate].
Qed.

Lemma field_maxTurns (description : option string) :
  accepted (Zod.field props Zod.positiveInt "maxTurns") <->
  match Json.member "maxTurns" props with
  | Some v => conforms (SchemaNumber description) v
  | None => true
  end = true /\
  forall m e, Json.member "maxTurns" props = Some (JNum m e) ->
    exists n, Json.toInteger m e = Some n /\ 0 < n <= Zod.MAX_SAFE_INTEGER.
Proof.
  rewrite accepted_field.
  destruct (Json.member "maxTurns" props) as [v|]; [|split; [|tauto]].
  - destruct v; simpl; rewrite ?accepted_inl;
      try (split; [tauto | intros [? _]; discriminate]).
    split.
    + intros Hacc. split; [reflexivity |]. intros m' e' [= <- <-].
      destruct (Json.toDouble m e) as [double|];
        [|now apply accepted_inl in Hacc].
      destruct (Json.toInteger m e) as [n|];
        [|now apply accepted_inl in Hacc].
      exists n. split; [reflexivity |].
      destruct (Z.ltb_spec Zod.MAX_SAFE_INTEGER n);
        [now apply accepted_inl in Hacc |].
      destruct (Z.ltb_spec n (- Zod.MAX_SAFE_INTEGER));
        [now apply accepted_inl in Hacc |].
      destruct (Z.leb_spec n 0); [now apply accepted_inl in Hacc | lia].
    + intros [_ Hn]. destruct (Hn m e eq_refl) as (n & Hinteger & Hpos).
      destruct (toInteger_finite m e n Hinteger) as [double Hdouble].
      rewrite Hdouble, Hinteger.
      destruct (Z.ltb_spec Zod.MAX_SAFE_INTEGER n); [lia |].
      destruct (Z.ltb_spec n (- Zod.MAX_SAFE_INTEGER)); [lia |].
      destruct (Z.leb_spec n 0); [lia |]. now apply accepted_inr.
  - intros _. split; [reflexivity | discriminate].
Qed.

Lemma field_routerBaseUrl (description : option string) :
  accepted (Zod.field props Zod.urlString "routerBaseUrl") <->
  match Json.member "routerBaseUrl" props with
  | Some v => conforms (SchemaString description None) v
  | None => true
  end = true /\
  forall u, Json.member "routerBaseUrl" props = Some (JStr u) ->
            URL_canParse (Js.trim u) = true.
Proof.
  rewrite accepted_field.
  destruct (Json.member "routerBaseUrl" props) as [v|]; [|split; [|tauto]].
  - destruct v; simpl; rewrite ?accepted_inl;
      try (split; [tauto | intros [? _]; discriminate]).
    destruct (URL_canParse (Js.trim s)) eqn:Hs;
      rewrite ?accepted_inl, ?accepted_inr.
    + split; [|tauto]. intros _. split; [reflexivity |]. now intros u [= <-].
    + split; [tauto |]. intros [_ Hu]. specialize (Hu s eq_refl). congruence.
  - intros _. split; [reflexivity | discriminate].
Qed.

End AdvertisedFields.

Section AdvertisedProviders.
Context `{platform : Platform}.

(** An entry of [fallbackProviders]: an object whose two properties,
    when present, are strings, the first of them a URL. *)
Lemma accepted_provider (path : list string) (d1 d2 : option string)
    (v : JsValue) :
  accepted (ProviderSchema path v) <->
  conforms (SchemaObject [("routerBaseUrl", SchemaString d1 None);
                          ("model", SchemaString d2 None)] None) v = true /\
  forall ps u, v = JObj ps ->
    Json.member "routerBaseUrl" ps = Some (JStr u) ->
    URL_canParse (Js.trim u) = true.
Proof.
  destruct v as [| | | | |ps];
    try (simpl; rewrite accepted_inl; split; [tauto | intros [? _]; discriminate]).
  unfold ProviderSchema.
  rewrite accepted_map, accepted_both, !accepted_optional.
  rewrite conforms_property, conforms_property, conforms_required.
  destruct (Json.member "routerBaseUrl" ps) as [u|] eqn:Eu.
  - assert (accepted (Zod.urlString (path ++ ["routerBaseUrl"]) u)
            <-> conforms (SchemaString d1 None) u = true /\
                forall u', u = JStr u' -> URL_canParse (Js.trim u') = true)
      as Hurl.
    { destruct u; simpl; rewrite ?accepted_inl;
        try (split; [tauto | intros [? _]; discriminate]).
      destruct (URL_canParse (Js.trim s)) eqn:Hs;
        rewrite ?accepted_inl, ?accepted_inr.
      - split; [|tauto]. intros _. split; [reflexivity |]. now intros u' [= <-].
      - split; [tauto |]. intros [_ Hu]. specialize (Hu s eq_refl).
        congruence. }
    rewrite Hurl.
    assert (match Json.member "model" ps with
            | Some x => accepted (Zod.string_ [] (path ++ ["model"]) x)
            | None => True
            end
            <-> match Json.member "model" ps with
                | Some v => conforms (SchemaString d2 None) v
                | None => true
                end = true) as ->.
    { destruct (Json.member "model" ps); [apply accepted_string | tauto]. }
    split.
    + intros [[Hu Hcan] Hm]. split.
      * repeat split; auto. intros key [].
      * intros ps' u' [= <-] Hu'. apply Hcan. congruence.
    + intros [(Hu & Hm & _) Hcan]. repeat split; auto.
      intros u' ->. now apply (Hcan ps u').
  - assert (match Json.member "model" ps with
            | Some x => accepted (Zod.string_ [] (path ++ ["model"]) x)
            | None => True
            end
            <-> match Json.member "model" ps with
                | Some v => conforms (SchemaString d2 None) v
                | None => true
                end = true) as ->.
    { destruct (Json.member "model" ps); [apply accepted_string | tauto]. }
    split.
    + intros [_ Hm]. split.
      * repeat split; auto. intros key [].
      * intros ps' u' [= <-] Hu'. congruence.
    + intros [(_ & Hm & _) _]. split; [exact I | exact Hm].
Qed.

Lemma accepted_items {A} (item : list string -> JsValue -> Zod.Result A)
    (P : JsValue -> Prop) (path : list string) (vs : list JsValue) :
  (forall path' v, accepted (item path' v) <-> P v) ->
  forall index, accepted (Zod.items item path index vs) <-> Forall P vs.
Proof.
  intros Hitem. induction vs as [|v vs IH]; intros index; simpl.
  - rewrite accepted_inr. split; [constructor | tauto].
  - rewrite accepted_map, accepted_both, Hitem, IH. split.
    + intros [Hv Hvs]. now constructor.
    + intros Hall. inversion Hall; subst. auto.
Qed.

Lemma accepted_array {A} (item : list string -> JsValue -> Zod.Result A)
    (maximum : nat) (path : list string) (v : JsValue) :
  accepted (Zod.array item maximum path v) <->
  exists vs, v = JArr vs /\ (length vs <= maximum)%nat /\
             accepted (Zod.items item path 0 vs).
Proof.
  destruct v as [| | | |vs|]; simpl; rewrite ?accepted_inl;
    try (split; [tauto | intros (vs' & [=] & _)]).
  destruct (Zod.items item path 0 vs) as [issues|parsed] eqn:Eitems.
  - rewrite accepted_inl. split; [tauto |].
    intros (vs' & [= <-] & _ & Hacc). rewrite Eitems in Hacc.
    now apply accepted_inl in Hacc.
  - destruct (decide (length vs <= maximum)%nat) as [Hlen|Hlen].
    + rewrite accepted_inr. split; [|tauto]. intros _.
      exists vs. repeat split; [exact Hlen |].
      rewrite Eitems. now apply accepted_inr.
    + rewrite accepted_inl. split; [tauto |].
      intros (vs' & [= <-] & Hlen' & _). contradiction.
Qed.

Lemma field_fallbackProviders (props : list (string * JsValue))
    (d d1 d2 : option string) :
  accepted (Zod.field props (Zod.array ProviderSchema 5) "fallbackProviders")
  <->
  match Json.member "fallbackProviders" props with
  | Some v =>
      conforms
        (SchemaArray d (Some 5%nat)
           (SchemaObject [("routerBaseUrl", SchemaString d1 None);
                          ("model", SchemaString d2 None)] None)) v
  | None => true
  end = true /\
  forall entries ps u,
    Json.member "fallbackProviders" props = Some (JArr entries) ->
    In (JObj ps) entries ->
    Json.member "routerBaseUrl" ps = Some (JStr u) ->
    URL_canParse (Js.trim u) = true.
Proof.
  rewrite accepted_field.
  destruct (Json.member "fallbackProviders" props) as [v|];
    [|split; [intros _; split; [reflexivity | discriminate] | tauto]].
  rewrite accepted_array.
  set (entry := SchemaObject [("routerBaseUrl", SchemaString d1 None);
                              ("model", SchemaString d2 None)] None).
  split.
  - intros (vs & -> & Hlen & Hitems).
    apply (accepted_items ProviderSchema _ _ vs
             (fun path' v => accepted_provider path' d1 d2 v)) in Hitems.
    fold entry in Hitems. rewrite List.Forall_forall in Hitems. split.
    + change (conforms (SchemaArray d (Some 5%nat) entry) (JArr vs))
        with (bool_decide (length vs <= 5)%nat && forallb (conforms entry) vs).
      rewrite bool_decide_eq_true_2 by exact Hlen. rewrite andb_true_l.
      apply forallb_forall. intros v Hv. now apply Hitems.
    + intros entries ps u [= <-] Hin Hu.
      destruct (Hitems _ Hin) as [_ Hurl]. now apply (Hurl ps u).
  - intros [Hconf Hurl]. destruct v as [| | | |vs|]; try discriminate.
    change (conforms (SchemaArray d (Some 5%nat) entry) (JArr vs))
      with (bool_decide (length vs <= 5)%nat && forallb (conforms entry) vs)
      in Hconf.
    apply andb_true_iff in Hconf as [Hlen Hall].
    apply bool_decide_eq_true in Hlen. rewrite forallb_forall in Hall.
    exists vs. split; [reflexivity |]. split; [exact Hlen |].
    apply (accepted_items ProviderSchema _ _ vs
             (fun path' v => accepted_provider path' d1 d2 v)).
    fold entry. apply List.Forall_forall. intros v Hv. split; [now apply Hall |].
    intros ps u -> Hu. now apply (Hurl vs ps u).
Qed.

End AdvertisedProviders.

Lemma prompt_required (props : list (string * JsValue)) :
  accepted match Json.member "prompt" props with
           | Some v => Zod.string_ [] ["prompt"] v
           | None => inl [Zod.invalid_type ["prompt"] "string"]
           end <->
  accepted (Zod.field props (Zod.string_ []) "prompt") /\
  forall key, In key ["prompt"] -> is_Some (Json.member key props).
Proof.
  rewrite accepted_field.
  destruct (Json.member "prompt" props) as [v|] eqn:Hprompt.
  - split; [|tauto]. intros Hv. split; [exact Hv |].
    intros key [<-|[]]. rewrite Hprompt. eauto.
  - rewrite accepted_inl. split; [tauto |]. intros [_ Hreq].
    destruct (Hreq "prompt" (or_introl eq_refl)) as [v Hv]. congruence.
Qed.

(** X21. What the execute-assistant handler accepts is what its
    advertised input schema admits, narrowed by four checks the
    advertised schema does not state: the session id has at most 256
    characters, all of them letters, digits, underscores or hyphens; the
    turn limit is a positive integer; the router URL, trimmed, parses as
    a URL; and so does the router URL of every fallback provider. *)
Theorem advertised_claude_schema `{platform : Platform}
    (props : list (string * JsValue)) :
  accepted (ClaudeToolSchema (JObj props)) <->
  admits "claude" (JObj props) = true /\
  (forall s, Json.member "sessionId" props = Some (JStr s) ->
             validSessionId s) /\
  (forall m e, Json.member "maxTurns" props = Some (JNum m e) ->
     exists n, Json.toInteger m e = Some n /\ 0 < n <= Zod.MAX_SAFE_INTEGER) /\
  (forall u, Json.member "routerBaseUrl" props = Some (JStr u) ->
             URL_canParse (Js.trim u) = true) /\
  (forall entries ps u,
     Json.member "fallbackProviders" props = Some (JArr entries) ->
     In (JObj ps) entries ->
     Json.member "routerBaseUrl" ps = Some (JStr u) ->
     URL_canParse (Js.trim u) = true).
Proof.
  unfold admits.
  destruct (definitionOf "claude") as [definition|] eqn:Hdef;
    [|vm_compute in Hdef; discriminate].
  vm_compute in Hdef. injection Hdef as <-.
  unfold ClaudeToolSchema, object. simpl ToolDefinition.inputSchema.
  rewrite accepted_map, !accepted_both, prompt_required.
  rewrite !conforms_property, conforms_required.
  match goal with
  | |- context [conforms (SchemaNumber ?d) _] =>
      rewrite (field_maxTurns props d)
  end.
  match goal with
  | |- context [conforms
                  (SchemaArray ?d _
                     (SchemaObject [(_, SchemaString ?d1 _);
                                    (_, SchemaString ?d2 _)] _)) _] =>
      rewrite (field_fallbackProviders props d d1 d2)
  end.
  rewrite (field_sessionId props None), (field_routerBaseUrl props None).
  rewrite <- !field_string, <- !field_boolean, <- !field_enum.
  simpl default. tauto.
Qed.

Lemma advertised_claude_schema_witness :
  let props := [("prompt", JStr "p"); ("maxTurns", JNum 0 0)] in
  admits "claude" (JObj props) = true /\
  ~ accepted (ClaudeToolSchema (platform := samplePlatform) (JObj props)).
Proof.
  intros props. split; [reflexivity |]. intros Hacc.
  apply (advertised_claude_schema (platform := samplePlatform)) in Hacc
    as (_ & _ & Hturns & _).
  destruct (Hturns 0 0 eq_refl) as (n & Hn & Hpos).
  injection Hn as <-. lia.
Defined.

(** X22. For the review, ping, help and session-list tools the advertised
    input schema is exact: the schema the handler validates with accepts
    a request precisely when the advertised schema admits it. *)
Theorem advertised_schemas_are_exact (args : JsValue) :
  (accepted (ReviewToolSchema args) <-> admits "review" args = true) /\
  (accepted (PingToolSchema args) <-> admits "ping" args = true) /\
  (accepted (HelpToolSchema args) <-> admits "help" args = true) /\
  (accepted (ListSessionsToolSchema args)
   <-> admits "listSessions" args = true).
Proof.
  assert (forall properties required,
            (forall props, args <> JObj props) ->
            conforms (SchemaObject properties required) args = true
            <-> False) as Hother.
  { intros properties required Hargs.
    destruct args; try (split; [discriminate | tauto]).
    now destruct (Hargs members). }
  assert (forall A (shape : list (string * JsValue) -> Zod.Result A),
            (forall props, args <> JObj props) ->
            accepted (object shape args) <-> False) as Hrefused.
  { intros A shape Hargs. destruct args; simpl; try apply accepted_inl.
    now destruct (Hargs members). }
  assert ((exists props, args = JObj props) \/
          (forall props, args <> JObj props)) as [[props ->]|Hargs]
    by (destruct args; eauto; right; discriminate).
  - assert (forall properties,
              conforms (SchemaObject properties (Some [])) (JObj props) = true
              <-> conforms (SchemaObject properties None) (JObj props) = true)
      as Hrequired.
    { intros properties. simpl. now rewrite !andb_true_r. }
    split; [|split; [|split]]; unfold admits;
      match goal with
      | |- context [definitionOf ?toolName] =>
          destruct (definitionOf toolName) as [definition|] eqn:Hdef;
          [|vm_compute in Hdef; discriminate]
      end;
      vm_compute in Hdef; injection Hdef as <-;
      simpl ToolDefinition.inputSchema;
      rewrite Hrequired, ?conforms_property, conforms_required.
    + unfold ReviewToolSchema, object. rewrite accepted_map, !accepted_both.
      rewrite <- !field_string, <- !field_boolean. simpl default.
      split; [|tauto]. intros H. repeat split; try tauto. intros key [].
    + unfold PingToolSchema, object. rewrite <- !field_string.
      split; [|tauto]. intros H. split; [exact H | intros key []].
    + unfold HelpToolSchema, object. rewrite accepted_inr.
      split; [|tauto]. intros _ key [].
    + unfold ListSessionsToolSchema, object. rewrite accepted_inr.
      split; [|tauto]. intros _ key [].
  - split; [|split; [|split]]; unfold admits;
      match goal with
      | |- context [definitionOf ?toolName] =>
          destruct (definitionOf toolName) as [definition|] eqn:Hdef;
          [|vm_compute in Hdef; discriminate]
      end;
      vm_compute in Hdef; injection Hdef as <-;
      simpl ToolDefinition.inputSchema;
      rewrite Hother by exact Hargs;
      unfold ReviewToolSchema, PingToolSchema, HelpToolSchema,
        ListSessionsToolSchema;
      rewrite Hrefused by exact Hargs; tauto.
Qed.

Lemma advertised_schemas_are_exact_witness :
  ~ accepted (PingToolSchema (JObj [("message", JNum 1 0)])) /\
  accepted (PingToolSchema (JObj [("message", JStr "hello")])).
Proof.
  split.
  - intros Hacc.
    apply (proj1 (proj2 (advertised_schemas_are_exact _))) in Hacc.
    discriminate.
  - apply (proj1 (proj2 (advertised_schemas_are_exact _))). reflexivity.
Defined.

(** ** What the synthesized prompt depends on *)

Lemma slice0_slice0 (n m : nat) (s : string) :
  (n <= m)%nat -> Js.slice0 n (Js.slice0 m s) = Js.slice0 n s.
Proof.
  unfold Js.slice0. revert m s.
  induction n as [|n IH]; intros [|m] [|c s] Hnm; simpl; try reflexivity;
    try lia.
  f_equal. apply IH. lia.
Qed.

(** X23. The context sent in place of a native handle depends on the
    last two turns of the session only, and on each of their responses
    only through its first 200 characters and through whether it
    mentions [function] or [def ]: two histories that agree on that lead
    to the same prompt, whatever else they hold. *)
Theorem synthesized_prompt_depends_on
    (older older' recent recent' : list ConversationTurn.t)
    (newPrompt : string) :
  length recent = 2%nat ->
  Forall2
    (fun turn turn' =>
       ConversationTurn.prompt turn = ConversationTurn.prompt turn' /\
       Js.slice0 200 (ConversationTurn.response turn)
       = Js.slice0 200 (ConversationTurn.response turn') /\
       Js.includes "function" (ConversationTurn.response turn) ||
         Js.includes "def " (ConversationTurn.response turn)
       = Js.includes "function" (ConversationTurn.response turn') ||
           Js.includes "def " (ConversationTurn.response turn'))
    recent recent' ->
  buildEnhancedPrompt (older ++ recent) newPrompt
  = buildEnhancedPrompt (older' ++ recent') newPrompt.
Proof.
  intros Hlen Hsame.
  assert (forall turn turn',
            ConversationTurn.prompt turn = ConversationTurn.prompt turn' /\
            Js.slice0 200 (ConversationTurn.response turn)
            = Js.slice0 200 (ConversationTurn.response turn') /\
            Js.includes "function" (ConversationTurn.response turn) ||
              Js.includes "def " (ConversationTurn.response turn)
            = Js.includes "function" (ConversationTurn.response turn') ||
                Js.includes "def " (ConversationTurn.response turn') ->
            contextLine turn = contextLine turn') as Hline.
  { intros turn turn' (Hp & Hr & Hcode). unfold contextLine. cbv zeta.
    rewrite Hcode, Hp, Hr.
    rewrite <- (slice0_slice0 100 200 (ConversationTurn.response turn))
      by lia.
    rewrite <- (slice0_slice0 100 200 (ConversationTurn.response turn'))
      by lia.
    now rewrite Hr. }
  destruct recent as [|t1 [|t2 [|t3 rest]]]; try discriminate.
  inversion Hsame as [|? t1' ? tail' H1 Htail]; subst.
  inversion Htail as [|? t2' ? tail'' H2 Hnil]; subst.
  inversion Hnil; subst.
  rewrite !buildEnhancedPrompt_window.
  unfold buildEnhancedPrompt, lastTurns. simpl.
  now rewrite (Hline _ _ H1), (Hline _ _ H2).
Qed.

Lemma synthesized_prompt_depends_on_witness :
  buildEnhancedPrompt
    (Session.turns talkativeSession ++
     [ConversationTurn.make "q1" "short" 1;
      ConversationTurn.make "q2" longAnswer 2]) "next"
  = buildEnhancedPrompt
      [ConversationTurn.make "q1" "short" 7;
       ConversationTurn.make "q2" (longAnswer +:+ " and more") 8] "next".
Proof.
  apply (synthesized_prompt_depends_on (Session.turns talkativeSession) []
           [ConversationTurn.make "q1" "short" 1;
            ConversationTurn.make "q2" longAnswer 2]
           [ConversationTurn.make "q1" "short" 7;
            ConversationTurn.make "q2" (longAnswer +:+ " and more") 8]).
  - reflexivity.
  - repeat constructor; vm_compute; reflexivity.
Defined.

(** ** Calls without a session *)

(** X24. A request without [sessionId] never touches the session store,
    whatever store it is and however the call ends, and it runs in fresh
    mode with the prompt as it came: sessions exist only for callers
    that ask for them. *)
Theorem sessionless_call_is_stateless `{platform : Platform} {S : Type}
    `{store : SessionStorage S} (env : gmap string string) (run : Subprocess)
    (clock : Clock) (context : ToolHandlerContext) (st : S)
    (props : list (string * JsValue)) (a : ClaudeToolArgs.t) :
  ClaudeToolSchema (JObj props) = inr a ->
  Json.member "sessionId" props = None ->
  let o := execute env run clock (JObj props) context st in
  storage o = st /\
  exists rest,
    sentArgs o = Some ("-p" :: ClaudeToolArgs.prompt a :: "--model" :: rest).
Proof.
  intros Ha Hnone o.
  assert (ClaudeToolArgs.sessionId a = None) as Hsid.
  { destruct (ClaudeToolSchema_inr _ a Ha) as (props' & [= <-] & _ & Hs & _).
    now rewrite Hnone in Hs. }
  pose proof (sessionStage_no_session (atStart clock) a st Hsid) as Hstage.
  split.
  - unfold o, execute. rewrite Ha, Hstage.
    destruct (settled _) as [result|cause]; [|reflexivity].
    destruct (parseOutput result) as [response extracted|]; [|reflexivity].
    simpl. now apply persist_no_session.
  - unfold o. rewrite (sentArgs_execute env run clock _ context st a Ha).
    rewrite Hstage. unfold cmdArgs. simpl. eexists. reflexivity.
Qed.

Lemma sessionless_call_is_stateless_witness :
  storage (sampleExecute
             (answers (Json.quoted "{'result':'R','session_id':'cli-1'}") "")
             (JObj [("prompt", JStr "p")]) resumableStore)
  = resumableStore.
Proof.
  exact (proj1 (sessionless_call_is_stateless (platform := samplePlatform) ∅
                  (answers (Json.quoted "{'result':'R','session_id':'cli-1'}") "")
                  sampleClock defaultContext resumableStore
                  [("prompt", JStr "p")]
                  (ClaudeToolArgs.make "p" None None None None None None None
                     None None None) eq_refl eq_refl)).
Defined.
